(** * Subscription Debt Manager: the analytics engine

    A shallow embedding of [src/hooks/useAnalytics.js] (the hook that derives
    every metric from the subscription list) and of [calculateForecast] in
    the analytics panel, with the properties the specification states about
    them.  The last part adds the category and billing-cycle tables of the
    panel and the budget status of the main component, and further
    properties of all of these.

    Modelling conventions.
    - A JavaScript number holding a money amount is an exact rational ([Q]);
      binary rounding, [NaN] and the infinities are outside the model.
      Rounding to two decimals is where this shows: when the exact value
      lies halfway between two cents, the double the code holds can lie on
      either side of it.  What is stated about a rounded value is
      therefore stated through [JSNumber.roundsToCents], which admits both
      neighbours, unless every intermediate value is exact in binary.
    - A [Date] object is its time value: [Some t] for [t] milliseconds since
      the epoch, [None] for an Invalid Date (time value [NaN]).  Every
      [new Date (...)] of the source goes through [newDate] or [makeDate],
      which perform the [TimeClip] of the language.
    - The clock is explicit: [now] is what [new Date ()] returns, the same
      instant for every read within one evaluation, and [tza] is the offset
      of local time from UTC (taken as fixed), both in milliseconds.
    - A plain object used as a map is the list of its own properties in
      creation order, read through the members of [Object.prototype].
    - A loop is a function with an iteration budget; the budget the model
      hands to it is proved sufficient. *)

From Stdlib Require Import ZArith QArith Qabs Qround Lia List Bool String Ascii.
From Stdlib Require Import Sorted Permutation Lqa.
Import ListNotations.

Local Open Scope Z_scope.

(* ================================================================== *)
(** ** Numbers *)

Module JSNumber.

(** [parseFloat (x.toFixed (2))].  [toFixed] works on the magnitude, picks
    the integer [n] with [n / 100] closest to it (the larger one on a tie)
    and restores the sign; from 1e21 on it prints the number as it is.
    The function is applied to the exact value; the code applies it to a
    double, which agrees with it except where the exact value is a tie
    that the double does not hit. *)
Definition toFixed2 (x : Q) : Q :=
  if Qle_bool (inject_Z (10 ^ 21)) (Qabs x) then x
  else
    let n := Qfloor (Qabs x * inject_Z 100 + (1 # 2)) in
    if Qle_bool 0 x then inject_Z n / inject_Z 100
    else - (inject_Z n / inject_Z 100).

(** What [parseFloat (x.toFixed (2))] can yield for a number whose exact
    value is [x]: a whole number of cents nearest to [x], either neighbour
    when [x] lies halfway between two; from 1e21 on, the number itself. *)
Definition roundsToCents (x v : Q) : Prop :=
  if Qle_bool (inject_Z (10 ^ 21)) (Qabs x) then (v == x)%Q
  else
    (exists n : Z, (v == inject_Z n / inject_Z 100)%Q)
    /\ (Qabs (v - x) <= 1 # 200)%Q.

(** [array.reduce ((total, x) => total + x, 0)]. *)
Definition sum (l : list Q) : Q := fold_left Qplus l 0%Q.

(** A number is falsy exactly when it is zero. *)
Definition truthy (x : Q) : bool := negb (Qeq_bool x 0).

End JSNumber.

(* ================================================================== *)
(** ** Dates *)

Module JSDate.

(** The time value of a Date object; [None] is Invalid Date. *)
Definition Date : Type := option Z.

Definition msPerDay : Z := 24 * 60 * 60 * 1000.
Definition maxTime : Z := 8640000000000000.

Definition timeClip (t : Z) : Date :=
  if Z.abs t <=? maxTime then Some t else None.

(** [new Date (v)] for a time value, a date string already read as a time
    value, or another Date. *)
Definition newDate (v : option Z) : Date :=
  match v with
  | Some t => timeClip t
  | None => None
  end.

Definition getTime (d : Date) : option Z := d.

(** [x + k] on a possibly-NaN number. *)
Definition addMs (x : option Z) (k : Z) : option Z :=
  match x with
  | Some t => Some (t + k)
  | None => None
  end.

(** Relational operators convert both dates to numbers; any comparison
    with [NaN] is false. *)
Definition leb (a b : Date) : bool :=
  match a, b with
  | Some x, Some y => x <=? y
  | _, _ => false
  end.

Definition geb (a b : Date) : bool := leb b a.

Definition gtb (a b : Date) : bool :=
  match a, b with
  | Some x, Some y => y <? x
  | _, _ => false
  end.

(** [a - b] as used by sort comparators; [NaN] is read as [+0] by [sort]. *)
Definition diff (a b : Date) : Z :=
  match a, b with
  | Some x, Some y => x - y
  | _, _ => 0
  end.

(** *** Civil calendar (proleptic Gregorian) *)

(** Day number (days since 1970-01-01) of the given year, month [1..12]
    and day of month. *)
Definition daysFromCivil (y m d : Z) : Z :=
  let y' := if m <=? 2 then y - 1 else y in
  let era := y' / 400 in
  let yoe := y' - era * 400 in
  let mp := if 2 <? m then m - 3 else m + 9 in
  let doy := (153 * mp + 2) / 5 + d - 1 in
  let doe := yoe * 365 + yoe / 4 - yoe / 100 + doy in
  era * 146097 + doe - 719468.

(** Year, month [1..12] and day of month of a day number. *)
Definition civilFromDays (z : Z) : Z * Z * Z :=
  let z' := z + 719468 in
  let era := z' / 146097 in
  let doe := z' - era * 146097 in
  let yoe := (doe - doe / 1460 + doe / 36524 - doe / 146096) / 365 in
  let doy := doe - (365 * yoe + yoe / 4 - yoe / 100) in
  let mp := (5 * doy + 2) / 153 in
  let d := doy - (153 * mp + 2) / 5 + 1 in
  let m := if mp <? 10 then mp + 3 else mp - 9 in
  let y := yoe + era * 400 in
  (if m <=? 2 then y + 1 else y, m, d).

Section LocalTime.
Variable tza : Z.

Definition localDay (t : Z) : Z := (t + tza) / msPerDay.

(** [d.getFullYear ()]; [None] is [NaN]. *)
Definition getFullYear (d : Date) : option Z :=
  match d with
  | Some t => let '(y, _, _) := civilFromDays (localDay t) in Some y
  | None => None
  end.

(** [d.getMonth ()], counted from 0. *)
Definition getMonth (d : Date) : option Z :=
  match d with
  | Some t => let '(_, m, _) := civilFromDays (localDay t) in Some (m - 1)
  | None => None
  end.

(** [new Date (year, month, day)]: local midnight of the given day, with
    the month (from 0) and the day free to overflow; a year in 0..99 is
    taken as 1900 + year. *)
Definition makeDate (year month day : option Z) : Date :=
  match year, month, day with
  | Some y, Some m, Some d =>
      let yr := if (0 <=? y) && (y <=? 99) then 1900 + y else y in
      let ym := yr + m / 12 in
      let mn := m mod 12 in
      timeClip ((daysFromCivil ym (mn + 1) 1 + d - 1) * msPerDay - tza)
  | _, _, _ => None
  end.

End LocalTime.

End JSDate.

(* ================================================================== *)
(** ** Arrays and plain objects *)

Module JSArray.

Section Sort.
Context {A : Type}.
Variable compareFn : A -> A -> Q.

(** [x] moves past [y] only when the comparator is positive, so equal
    elements keep their order. *)
Fixpoint insertSorted (x : A) (l : list A) : list A :=
  match l with
  | [] => [x]
  | y :: l' =>
      if Qle_bool (compareFn x y) 0 then x :: y :: l'
      else y :: insertSorted x l'
  end.

(** [array.sort (compareFn)]: the stable sort of the language. *)
Definition sort (l : list A) : list A := fold_right insertSorted [] l.

(** The comparator lets [x] stand before [y]. *)
Definition before (x y : A) : Prop := (compareFn x y <= 0)%Q.
End Sort.

(** [array.slice (-3)]. *)
Definition sliceLast3 {A : Type} (l : list A) : list A :=
  skipn (List.length l - 3) l.

End JSArray.

Module JSObject.

Local Open Scope string_scope.

(** What a property of the accumulator object can hold: a number, or the
    string that [+=] makes out of an inherited member. *)
Inductive Value : Type :=
| Num (q : Q)
| Str.

(** What a property read yields. *)
Inductive Read : Type :=
| Undefined
| Own (v : Value)
| Inherited.

(** Own properties of an object literal [{}], in creation order. *)
Definition Obj : Type := list (string * Value).

(** The members every plain object inherits from [Object.prototype]. *)
Definition prototypeMembers : list string :=
  [ "constructor"; "__proto__"; "hasOwnProperty"; "isPrototypeOf";
    "propertyIsEnumerable"; "toLocaleString"; "toString"; "valueOf";
    "__defineGetter__"; "__defineSetter__"; "__lookupGetter__";
    "__lookupSetter__" ].

Definition isPrototypeMember (k : string) : bool :=
  existsb (String.eqb k) prototypeMembers.

Fixpoint getOwn (o : Obj) (k : string) : option Value :=
  match o with
  | [] => None
  | (k', v) :: o' => if String.eqb k' k then Some v else getOwn o' k
  end.

(** [o[k]]. *)
Definition get (o : Obj) (k : string) : Read :=
  match getOwn o k with
  | Some v => Own v
  | None => if isPrototypeMember k then Inherited else Undefined
  end.

Fixpoint setOwn (o : Obj) (k : string) (v : Value) : Obj :=
  match o with
  | [] => [(k, v)]
  | (k', v') :: o' =>
      if String.eqb k' k then (k', v) :: o' else (k', v') :: setOwn o' k v
  end.

(** [o[k] = v] for a primitive [v]; the [__proto__] setter ignores it. *)
Definition set (o : Obj) (k : string) (v : Value) : Obj :=
  if String.eqb k "__proto__" then o else setOwn o k v.

(** *** Key order of [Object.entries] *)

Definition digitValue (c : ascii) : option N :=
  let n := N_of_ascii c in
  if ((48 <=? n) && (n <=? 57))%N then Some (n - 48)%N else None.

Fixpoint parseDigits (s : string) (acc : N) : option N :=
  match s with
  | EmptyString => Some acc
  | String c s' =>
      match digitValue c with
      | Some d => parseDigits s' (acc * 10 + d)%N
      | None => None
      end
  end.

(** A key is an array index when it is the canonical decimal form of an
    integer below 2^32 - 1. *)
Definition arrayIndex (k : string) : option N :=
  match k with
  | EmptyString => None
  | String c rest =>
      if Ascii.eqb c "0"%char then
        match rest with EmptyString => Some 0%N | _ => None end
      else
        match parseDigits k 0 with
        | Some n => if (n <? 2 ^ 32 - 1)%N then Some n else None
        | None => None
        end
  end.

Definition isIndexKey (kv : string * Value) : bool :=
  match arrayIndex (fst kv) with Some _ => true | None => false end.

Definition compareIndex (a b : string * Value) : Q :=
  match arrayIndex (fst a), arrayIndex (fst b) with
  | Some i, Some j => inject_Z (Z.of_N i - Z.of_N j)
  | _, _ => 0%Q
  end.

(** [Object.entries (o)]: array-index keys first, in ascending order, then
    the other keys in creation order. *)
Definition entries (o : Obj) : list (string * Value) :=
  JSArray.sort compareIndex (filter isIndexKey o)
    ++ filter (fun kv => negb (isIndexKey kv)) o.

End JSObject.

(* ================================================================== *)
(** ** The trend series *)

Module Trend.

(** A month label printed with a short month name and a year: the month
    (from 0) and the year as printed; [None] for an Invalid Date. *)
Definition MonthKey : Type := option (Z * Z).

(** One point of the series: [{ month, cost }]. *)
Record Entry : Type := mkEntry {
  month : MonthKey;
  cost : Q
}.

End Trend.

(* ================================================================== *)
(** ** The analytics hook ([src/hooks/useAnalytics.js]) *)

Module UseAnalytics.

Import JSDate.
Local Open Scope string_scope.

(** The fields of a subscription record the hook reads.
    [nextRenewalDate] is the time value the stored date denotes, [None]
    when it cannot be parsed; [category] is falsy when empty;
    [isAwaitingCancellation] is the truthiness of the flag. *)
Record Subscription : Type := mkSubscription {
  name : string;
  cost : Q;
  billingCycle : string;
  nextRenewalDate : option Z;
  category : string;
  isAwaitingCancellation : bool
}.

(** The counters of the hook.  [averageCost] is the number its two-decimal
    string denotes. *)
Record Statistics : Type := mkStatistics {
  activeCount : nat;
  cancellationCount : nat;
  totalCount : nat;
  averageCost : Q
}.

(** One slice of the category chart. *)
Record CategoryEntry : Type := mkCategoryEntry {
  categoryName : string;
  value : Q
}.

Definition calculateMonthlyRate (cost : Q) (billingCycle : string) : Q :=
  if String.eqb billingCycle "Monthly" then cost
  else if String.eqb billingCycle "Quarterly" then cost / inject_Z 3
  else if String.eqb billingCycle "Annually" then cost / inject_Z 12
  else cost.

Definition cycleInDays (billingCycle : string) : Z :=
  if String.eqb billingCycle "Monthly" then 30
  else if String.eqb billingCycle "Quarterly" then 90
  else 365.

(** The [while] loop both walks share:
    [while (currentDate <= windowEnd) { if (counted currentDate) count++;
    currentDate = new Date (currentDate.getTime () + stepMs); }].
    [None] when the iteration budget runs out before the guard fails. *)
Fixpoint renewalLoop (fuel : nat) (counted : Date -> bool)
    (windowEnd : Date) (stepMs : Z) (currentDate : Date) (count : nat)
    : option nat :=
  if leb currentDate windowEnd then
    match fuel with
    | O => None
    | S fuel' =>
        renewalLoop fuel' counted windowEnd stepMs
          (newDate (addMs (getTime currentDate) stepMs))
          (if counted currentDate then S count else count)
    end
  else Some count.

(** Iterations after which the guard of the loop has failed. *)
Definition walkFuel (currentDate windowEnd : Date) (stepMs : Z) : nat :=
  match currentDate, windowEnd with
  | Some c, Some e => Z.to_nat ((e - c) / stepMs + 1)
  | _, _ => O
  end.

Definition runLoop (counted : Date -> bool) (windowEnd : Date) (stepMs : Z)
    (currentDate : Date) : nat :=
  match
    renewalLoop (walkFuel currentDate windowEnd stepMs) counted windowEnd
      stepMs currentDate O
  with
  | Some count => count
  | None => O
  end.

(** The walk as [monthlyTrendData] writes it, for any window. *)
Definition occurrencesInWindow (anchorDate : Date) (billingCycle : string)
    (windowStart windowEnd : Date) : nat :=
  let currentDate := newDate anchorDate in
  runLoop (fun d => geb d windowStart && leb d windowEnd) windowEnd
    (cycleInDays billingCycle * msPerDay) currentDate.

Definition timesCost (renewals : nat) (cost : Q) : Q :=
  inject_Z (Z.of_nat renewals) * cost.

Section Hook.
(** Offset of local time, the value of [new Date ()], and the argument of
    the hook. *)
Variables (tza now : Z) (subscriptions : list Subscription).

Definition calculateRenewalsInNext12Months (nextRenewalDate : option Z)
    (billingCycle : string) : nat :=
  let today := newDate (Some now) in
  let renewalDate := newDate nextRenewalDate in
  let next12Months := newDate (addMs (getTime today) (365 * msPerDay)) in
  let currentDate := newDate renewalDate in
  runLoop (fun d => geb d today) next12Months
    (cycleInDays billingCycle * msPerDay) currentDate.

Definition totalMonthlyCost : Q :=
  fold_left
    (fun total sub =>
       (total + calculateMonthlyRate (cost sub) (billingCycle sub))%Q)
    subscriptions 0%Q.

Definition totalDebt12Months : Q :=
  fold_left
    (fun total sub =>
       let renewals :=
         calculateRenewalsInNext12Months (nextRenewalDate sub)
           (billingCycle sub) in
       (total + timesCost renewals (cost sub))%Q)
    (filter (fun sub => negb (isAwaitingCancellation sub)) subscriptions)
    0%Q.

Definition cancellationDebt : Q :=
  fold_left
    (fun total sub =>
       let renewals :=
         calculateRenewalsInNext12Months (nextRenewalDate sub)
           (billingCycle sub) in
       (total + timesCost renewals (cost sub))%Q)
    (filter (fun sub => isAwaitingCancellation sub) subscriptions)
    0%Q.

(** [sub.category || 'Uncategorized']. *)
Definition categoryOf (sub : Subscription) : string :=
  if String.eqb (category sub) "" then "Uncategorized" else category sub.

(** The body of the [forEach] that fills [categoryMap]:
    [if (!categoryMap[category]) categoryMap[category] = 0;
     categoryMap[category] += monthlyCost]. *)
Definition addToCategory (categoryMap : JSObject.Obj) (sub : Subscription)
    : JSObject.Obj :=
  let category := categoryOf sub in
  let monthlyCost := calculateMonthlyRate (cost sub) (billingCycle sub) in
  match JSObject.get categoryMap category with
  | JSObject.Undefined =>
      JSObject.set categoryMap category (JSObject.Num (0 + monthlyCost)%Q)
  | JSObject.Own (JSObject.Num v) =>
      if JSNumber.truthy v
      then JSObject.set categoryMap category (JSObject.Num (v + monthlyCost)%Q)
      else JSObject.set categoryMap category (JSObject.Num (0 + monthlyCost)%Q)
  | JSObject.Own JSObject.Str | JSObject.Inherited =>
      JSObject.set categoryMap category JSObject.Str
  end.

(** [([name, value]) => ({ name, value: parseFloat (value.toFixed (2)) })]
    over the entries; a string has no [toFixed], which throws. *)
Fixpoint toCategoryEntries (es : list (string * JSObject.Value))
    : option (list CategoryEntry) :=
  match es with
  | [] => Some []
  | (k, JSObject.Num v) :: es' =>
      match toCategoryEntries es' with
      | Some r => Some (mkCategoryEntry k (JSNumber.toFixed2 v) :: r)
      | None => None
      end
  | (_, JSObject.Str) :: _ => None
  end.

(** [None] stands for the TypeError the callback of [map] can throw. *)
Definition categoryBreakdown : option (list CategoryEntry) :=
  let categoryMap := fold_left addToCategory subscriptions [] in
  match toCategoryEntries (JSObject.entries categoryMap) with
  | Some es => Some (JSArray.sort (fun a b => (value b - value a)%Q) es)
  | None => None
  end.

Definition topExpensiveSubscriptions : list Subscription :=
  firstn 5
    (JSArray.sort
       (fun a b =>
          (calculateMonthlyRate (cost b) (billingCycle b)
           - calculateMonthlyRate (cost a) (billingCycle a))%Q)
       (filter (fun sub => negb (isAwaitingCancellation sub)) subscriptions)).

Definition upcomingRenewals : list Subscription :=
  let today := newDate (Some now) in
  let thirtyDaysFromNow :=
    newDate (addMs (getTime today) (30 * msPerDay)) in
  JSArray.sort
    (fun a b =>
       inject_Z (diff (newDate (nextRenewalDate a))
                      (newDate (nextRenewalDate b))))
    (filter
       (fun sub =>
          let renewalDate := newDate (nextRenewalDate sub) in
          geb renewalDate today && leb renewalDate thirtyDaysFromNow
            && negb (isAwaitingCancellation sub))
       subscriptions).

(** [sub.billingCycle === 'Annually' &&
     monthDate.getFullYear () === renewalDate.getFullYear ()]:
    strict equality of two numbers, false when either is [NaN]. *)
Definition sameNumber (a b : option Z) : bool :=
  match a, b with
  | Some x, Some y => Z.eqb x y
  | _, _ => false
  end.

(** The occurrences the trend loop counts for one subscription in the
    calendar month of [monthDate]. *)
Definition renewalsInMonth (sub : Subscription) (monthDate : Date) : nat :=
  let renewalDate := newDate (nextRenewalDate sub) in
  let monthStart :=
    makeDate tza (getFullYear tza monthDate) (getMonth tza monthDate)
      (Some 1) in
  let monthEnd :=
    makeDate tza (getFullYear tza monthDate)
      (addMs (getMonth tza monthDate) 1) (Some 0) in
  occurrencesInWindow renewalDate (billingCycle sub) monthStart monthEnd.

(** What one subscription adds to the month of [monthDate]. *)
Definition monthSubCost (sub : Subscription) (monthDate : Date) : Q :=
  let renewalDate := newDate (nextRenewalDate sub) in
  let renewals := renewalsInMonth sub monthDate in
  if (0 <? renewals)%nat then (cost sub * inject_Z (Z.of_nat renewals))%Q
  else if String.eqb (billingCycle sub) "Monthly" then cost sub
  else if String.eqb (billingCycle sub) "Quarterly"
          && leb monthDate
               (makeDate tza (getFullYear tza renewalDate)
                  (addMs (getMonth tza renewalDate) 3) (Some 0))
  then (cost sub / inject_Z 3)%Q
  else if String.eqb (billingCycle sub) "Annually"
          && sameNumber (getFullYear tza monthDate)
               (getFullYear tza renewalDate)
  then (cost sub / inject_Z 12)%Q
  else 0%Q.

Definition monthKeyOf (d : Date) : Trend.MonthKey :=
  match getMonth tza d, getFullYear tza d with
  | Some m, Some y => Some (m, y)
  | _, _ => None
  end.

(** The date of the [i]-th trend month:
    [new Date (today.getFullYear (), today.getMonth () + i, 1)]. *)
Definition trendMonthDate (i : Z) : Date :=
  let today := newDate (Some now) in
  makeDate tza (getFullYear tza today) (addMs (getMonth tza today) i)
    (Some 1).

Definition trendEntry (i : Z) : Trend.Entry :=
  let monthDate := trendMonthDate i in
  let total :=
    fold_left (fun total sub => (total + monthSubCost sub monthDate)%Q)
      subscriptions 0%Q in
  Trend.mkEntry (monthKeyOf monthDate) (JSNumber.toFixed2 total).

(** [for (let i = 0; i < 12; i++) months.push (...)]. *)
Definition monthlyTrendData : list Trend.Entry :=
  map trendEntry [0; 1; 2; 3; 4; 5; 6; 7; 8; 9; 10; 11].

Definition statistics : Statistics :=
  let activeSubscriptions :=
    filter (fun sub => negb (isAwaitingCancellation sub)) subscriptions in
  let awaitingCancellation :=
    filter (fun sub => isAwaitingCancellation sub) subscriptions in
  mkStatistics (List.length activeSubscriptions)
    (List.length awaitingCancellation) (List.length subscriptions)
    (if (0 <? List.length activeSubscriptions)%nat
     then
       JSNumber.toFixed2
         (totalMonthlyCost
            / inject_Z (Z.of_nat (List.length activeSubscriptions)))%Q
     else 0%Q).

End Hook.

End UseAnalytics.

(* ================================================================== *)
(** ** The forecast of the analytics panel ([EnhancedAnalytics]) *)

Module EnhancedAnalytics.

Import JSDate.

(** A point of the chart.  [cost] is the property the spread [...item]
    carries over; the points built field by field do not have it. *)
Record ChartEntry : Type := mkChartEntry {
  month : Trend.MonthKey;
  cost : option Q;
  actualSpending : option Q;
  forecastSpending : option Q
}.

(** The callback of [recent.reduce]: the first element adds nothing, every
    later one adds its difference to the element before it. *)
Fixpoint sumChanges (sum : Q) (previous : Q) (rest : list Q) : Q :=
  match rest with
  | [] => sum
  | d :: rest' => sumChanges (sum + (d - previous))%Q d rest'
  end.

Definition averageChange (recent : list Trend.Entry) : Q :=
  match map Trend.cost recent with
  | [] => 0%Q
  | first :: rest =>
      (sumChanges 0 first rest
         / inject_Z (Z.of_nat (List.length recent) - 1))%Q
  end.

Section Component.
Variables (tza now : Z) (monthlyTrendData : list Trend.Entry).

(** [d.setMonth (m)]: same local day of month and time of day, month
    free to overflow. *)
Definition setMonth (d : Date) (m : option Z) : Date :=
  match d, m with
  | Some t, Some mo =>
      let local := t + tza in
      let '(y, _, dd) := civilFromDays (local / msPerDay) in
      let ym := y + mo / 12 in
      let mn := mo mod 12 in
      timeClip
        ((daysFromCivil ym (mn + 1) 1 + dd - 1) * msPerDay
           + local mod msPerDay - tza)
  | _, _ => None
  end.

(** The label with a two-digit year. *)
Definition shortMonthKey (d : Date) : Trend.MonthKey :=
  match getMonth tza d, getFullYear tza d with
  | Some m, Some y => Some (m, y mod 100)
  | _, _ => None
  end.

(** One turn of the [for] loop.  The value is
    [parseFloat ((lastCost + avgChange * i).toFixed (2))] taken on exact
    numbers; the code rounds the double it has computed, which can fall on
    the other side of a half-cent tie (see [JSNumber.roundsToCents]). *)
Definition forecastPoint (lastCost avgChange : Q) (i : Z) : ChartEntry :=
  let nextDate := newDate (Some now) in
  let nextDate := setMonth nextDate (addMs (getMonth tza nextDate) i) in
  mkChartEntry (shortMonthKey nextDate) None None
    (Some (JSNumber.toFixed2 (lastCost + avgChange * inject_Z i)%Q)).

Definition calculateForecast : list ChartEntry :=
  if (List.length monthlyTrendData <? 3)%nat then
    map
      (fun item =>
         mkChartEntry (Trend.month item) (Some (Trend.cost item))
           (Some (Trend.cost item)) None)
      monthlyTrendData
  else
    let recent := JSArray.sliceLast3 monthlyTrendData in
    let avgChange := averageChange recent in
    let lastCost :=
      Trend.cost (last monthlyTrendData (Trend.mkEntry None 0%Q)) in
    let actualData :=
      map
        (fun item =>
           mkChartEntry (Trend.month item) None
             (Some (Trend.cost item)) None)
        monthlyTrendData in
    let forecast := map (forecastPoint lastCost avgChange) [1; 2; 3] in
    actualData ++ forecast.

End Component.

End EnhancedAnalytics.

(* ================================================================== *)
(** ** What the specification says, in its own terms *)

Module Spec.

Import UseAnalytics.

(** The active set: subscriptions not awaiting cancellation. *)
Definition active (subs : list Subscription) : list Subscription :=
  filter (fun s => negb (isAwaitingCancellation s)) subs.

Definition pendingCancellation (subs : list Subscription)
    : list Subscription :=
  filter (fun s => isAwaitingCancellation s) subs.

(** Monthly-equivalent rate of a subscription. *)
Definition monthlyRate (s : Subscription) : Q :=
  calculateMonthlyRate (cost s) (billingCycle s).

(** Sum of the monthly-equivalent rates of the subscriptions filed under
    the category name [c]. *)
Definition categoryTotal (c : string) (subs : list Subscription) : Q :=
  JSNumber.sum
    (map monthlyRate (filter (fun s => String.eqb (categoryOf s) c) subs)).

(** The accumulator object holds exactly the groups of [subs]: a number for
    each category name in use, equal to the total of its group, and nothing
    else. *)
Definition holdsGroups (o : JSObject.Obj) (subs : list Subscription) : Prop :=
  forall k,
    match JSObject.getOwn o k with
    | Some (JSObject.Num v) =>
        (exists s, In s subs /\ categoryOf s = k)
        /\ (v == categoryTotal k subs)%Q
    | Some JSObject.Str => False
    | None => forall s, In s subs -> categoryOf s <> k
    end.

(** No subscription is filed under the name of a member that every object
    inherits. *)
Definition plainCategories (subs : list Subscription) : Prop :=
  Forall (fun s => JSObject.isPrototypeMember (categoryOf s) = false) subs.

(** Slices in descending order of value. *)
Definition descending (es : list CategoryEntry) : Prop :=
  StronglySorted (fun a b => (value b <= value a)%Q) es.

(** The dates a walk visits: the anchor and every further multiple of the
    period that is still on or before the end of the window. *)
Definition visitedDates (anchor period windowEnd : Z) : list Z :=
  map (fun k => anchor + Z.of_nat k * period)
    (seq 0 (Z.to_nat ((windowEnd - anchor) / period + 1))).

Definition inWindow (windowStart windowEnd t : Z) : bool :=
  (windowStart <=? t) && (t <=? windowEnd).

(** Number of visited dates inside the window. *)
Definition occurrenceCount (anchor period windowStart windowEnd : Z) : nat :=
  List.length
    (filter (inWindow windowStart windowEnd)
       (visitedDates anchor period windowEnd)).

(** The same on dates; an invalid date leaves nothing to count. *)
Definition occurrences (anchor : JSDate.Date) (periodDays : Z)
    (windowStart windowEnd : JSDate.Date) : nat :=
  match anchor, windowStart, windowEnd with
  | Some a, Some s, Some e =>
      occurrenceCount a (periodDays * JSDate.msPerDay) s e
  | _, _, _ => O
  end.

(** The twelve-month window opens today and closes 365 days later. *)
Definition today (now : Z) : JSDate.Date := JSDate.newDate (Some now).

Definition in365Days (now : Z) : JSDate.Date :=
  JSDate.newDate
    (JSDate.addMs (JSDate.getTime (today now)) (365 * JSDate.msPerDay)).

(** What a subscription is projected to be charged inside the window: the
    number of occurrences multiplied by the raw cost. *)
Definition projectedCharges (now : Z) (s : Subscription) : Q :=
  (inject_Z
     (Z.of_nat
        (occurrences (JSDate.newDate (nextRenewalDate s))
           (cycleInDays (billingCycle s)) (today now) (in365Days now)))
   * cost s)%Q.

Definition projectedDebt (now : Z) (subs : list Subscription) : Q :=
  JSNumber.sum (map (projectedCharges now) subs).

(** Day number of the first day of month [n], months being counted from
    January of year 0. *)
Definition monthStartDay (n : Z) : Z :=
  JSDate.daysFromCivil (n / 12) (n mod 12 + 1) 1.

Section Calendar.
Variable tza : Z.

(** The calendar month a date lies in, counted from January of year 0. *)
Definition monthNumber (d : JSDate.Date) : option Z :=
  match JSDate.getFullYear tza d, JSDate.getMonth tza d with
  | Some y, Some m => Some (12 * y + m)
  | _, _ => None
  end.

(** Last day of the [k]-th calendar month after the month of [anchor]. *)
Definition lastDayOfMonthAfter (k : Z) (anchor : JSDate.Date)
    : JSDate.Date :=
  JSDate.makeDate tza (JSDate.getFullYear tza anchor)
    (JSDate.addMs (JSDate.getMonth tza anchor) (k + 1)) (Some 0).

(** The month of [monthDate] is at most [k] calendar months after the
    month of [anchor]; any month before the anchor's qualifies. *)
Definition atMostMonthsAfter (k : Z) (monthDate anchor : JSDate.Date)
    : bool :=
  match monthNumber monthDate, monthNumber anchor with
  | Some m, Some a => m <=? a + k
  | _, _ => false
  end.

(** The month of [monthDate] is within three calendar months of the
    month of [anchor], on either side. *)
Definition withinThreeMonths (monthDate anchor : JSDate.Date) : bool :=
  match monthNumber monthDate, monthNumber anchor with
  | Some m, Some a => Z.abs (m - a) <=? 3
  | _, _ => false
  end.

Definition sameCalendarYear (monthDate anchor : JSDate.Date) : bool :=
  match JSDate.getFullYear tza monthDate, JSDate.getFullYear tza anchor with
  | Some y, Some y' => Z.eqb y y'
  | _, _ => false
  end.

(** The pro-rated share of a month without occurrences, by cycle, given
    the test that decides the quarterly case. *)
Definition fallbackShare (quarterInForce : bool) (s : Subscription)
    (monthDate : JSDate.Date) : Q :=
  let anchor := JSDate.newDate (nextRenewalDate s) in
  if String.eqb (billingCycle s) "Monthly" then cost s
  else if String.eqb (billingCycle s) "Quarterly" then
    if quarterInForce then (cost s / inject_Z 3)%Q else 0%Q
  else if String.eqb (billingCycle s) "Annually" then
    if sameCalendarYear monthDate anchor then (cost s / inject_Z 12)%Q
    else 0%Q
  else 0%Q.

(** The anchor is a date whose year the Date constructor takes as it is
    (not one of 0..99) and whose quarter still ends on a valid date. *)
Definition ordinaryAnchor (anchor : JSDate.Date) : bool :=
  match JSDate.getFullYear tza anchor with
  | Some y =>
      negb ((0 <=? y) && (y <=? 99))
      && match lastDayOfMonthAfter 2 anchor with
         | Some _ => true
         | None => false
         end
  | None => true
  end.
End Calendar.

End Spec.

(* ================================================================== *)
(** ** Sample data *)

Module Samples.

Import UseAnalytics.
Local Open Scope string_scope.

(** Midnight UTC of a calendar day, as a time value. *)
Definition utc (y m d : Z) : Z := JSDate.daysFromCivil y m d * JSDate.msPerDay.

Definition netflix : Subscription :=
  mkSubscription "Netflix" 10 "Monthly" (Some (utc 2025 2 1)) "Streaming"
    false.

(** A subscription the user has flagged for cancellation. *)
Definition gymPending : Subscription :=
  mkSubscription "Gym" 10 "Monthly" (Some (utc 2025 2 1)) "Health" true.

(** An annual plan of 12, due on 15 January 2025. *)
Definition annualPlan : Subscription :=
  mkSubscription "Domain" 12 "Annually" (Some (utc 2025 1 15)) "" false.

(** A monthly plan whose stored date cannot be parsed. *)
Definition brokenDate : Subscription :=
  mkSubscription "Cloud" 10 "Monthly" None "Storage" false.

(** A quarterly plan first due on 15 December 2025. *)
Definition quarterlyLate : Subscription :=
  mkSubscription "Insurance" 30 "Quarterly" (Some (utc 2025 12 15))
    "Insurance" false.

(** A quarterly plan anchored on 1 January 2024. *)
Definition quarterlyJan : Subscription :=
  mkSubscription "News" 30 "Quarterly" (Some (utc 2024 1 1)) "News" false.

(** A series that ends with the costs 0, 0 and 0.25; every value the
    forecast computes from it is exact in binary. *)
Definition flatThenQuarter : list Trend.Entry :=
  [ Trend.mkEntry (Some (0, 2025)) 0;
    Trend.mkEntry (Some (1, 2025)) 0;
    Trend.mkEntry (Some (2, 2025)) (1 # 4) ].

Definition risingTrend : list Trend.Entry :=
  [ Trend.mkEntry (Some (0, 2025)) 10;
    Trend.mkEntry (Some (1, 2025)) 20;
    Trend.mkEntry (Some (2, 2025)) 40 ].

End Samples.

(* ================================================================== *)
(** ** Notions for the further properties *)

Module Notions.

Import UseAnalytics.

(** The renewal date of a subscription as the hook reads it. *)
Definition renewalDate (s : Subscription) : JSDate.Date :=
  JSDate.newDate (nextRenewalDate s).

(** The upcoming-renewals window closes 30 days from now. *)
Definition in30Days (now : Z) : JSDate.Date :=
  JSDate.newDate
    (JSDate.addMs (JSDate.getTime (Spec.today now)) (30 * JSDate.msPerDay)).

(** Active, and due between now and 30 days from now. *)
Definition dueSoon (now : Z) (s : Subscription) : bool :=
  JSDate.geb (renewalDate s) (Spec.today now)
  && JSDate.leb (renewalDate s) (in30Days now)
  && negb (isAwaitingCancellation s).

(** [a] is due no later than [b]. *)
Definition dueNoLater (a b : Subscription) : Prop :=
  JSDate.leb (renewalDate a) (renewalDate b) = true.

(** [a] costs at least as much per month as [b]. *)
Definition costsAtLeast (a b : Subscription) : Prop :=
  (Spec.monthlyRate b <= Spec.monthlyRate a)%Q.

(** A category name that makes the breakdown fail: the name of an
    inherited member other than [__proto__]. *)
Definition breaksBreakdown (s : Subscription) : bool :=
  JSObject.isPrototypeMember (categoryOf s)
  && negb (String.eqb (categoryOf s) "__proto__").

(** Filed under the name [__proto__]. *)
Definition filedUnderProto (s : Subscription) : bool :=
  String.eqb (categoryOf s) "__proto__".

(** Sum of the values of the slices. *)
Definition sliceTotal (es : list CategoryEntry) : Q :=
  JSNumber.sum (map value es).

(** Sum of the numbers the accumulator object holds. *)
Definition storedTotal (o : JSObject.Obj) : Q :=
  JSNumber.sum
    (map (fun kv =>
            match snd kv with
            | JSObject.Num v => v
            | JSObject.Str => 0%Q
            end) o).

(** The subscriptions filed under the category name [c]. *)
Definition filedUnder (c : string) (subs : list Subscription)
    : list Subscription :=
  filter (fun s => String.eqb (categoryOf s) c) subs.

(** One of the three billing cycles the engine knows. *)
Definition knownCycle (cycle : string) : bool :=
  String.eqb cycle "Monthly" || String.eqb cycle "Quarterly"
  || String.eqb cycle "Annually".

(** The length of a billing cycle in milliseconds. *)
Definition periodMs (billingCycle : string) : Z :=
  cycleInDays billingCycle * JSDate.msPerDay.

(** [d.getDate ()]: the local day of the month. *)
Definition getDate (tza : Z) (d : JSDate.Date) : option Z :=
  match d with
  | Some t =>
      let '(_, _, dd) := JSDate.civilFromDays (JSDate.localDay tza t) in
      Some dd
  | None => None
  end.

End Notions.

(* ================================================================== *)
(** ** Plain objects holding values of any one kind *)

Module JSRecord.

Section Records.
Context {V : Type}.

(** Own properties, in creation order. *)
Definition Obj : Type := list (string * V).

Fixpoint getOwn (o : Obj) (k : string) : option V :=
  match o with
  | [] => None
  | (k', v) :: o' => if String.eqb k' k then Some v else getOwn o' k
  end.

Fixpoint setOwn (o : Obj) (k : string) (v : V) : Obj :=
  match o with
  | [] => [(k, v)]
  | (k', v') :: o' =>
      if String.eqb k' k then (k', v) :: o' else (k', v') :: setOwn o' k v
  end.

Definition isIndexKey (kv : string * V) : bool :=
  match JSObject.arrayIndex (fst kv) with Some _ => true | None => false end.

Definition compareIndex (a b : string * V) : Q :=
  match JSObject.arrayIndex (fst a), JSObject.arrayIndex (fst b) with
  | Some i, Some j => inject_Z (Z.of_N i - Z.of_N j)
  | _, _ => 0%Q
  end.

(** [Object.entries (o)]. *)
Definition entries (o : Obj) : list (string * V) :=
  JSArray.sort compareIndex (filter isIndexKey o)
    ++ filter (fun kv => negb (isIndexKey kv)) o.
End Records.

End JSRecord.

(* ================================================================== *)
(** ** More of the analytics panel ([EnhancedAnalytics]) *)

Module Panel.

Import UseAnalytics.
Local Open Scope string_scope.

(** A row of the category table.  [totalMonthly] and [avgCost] are the
    numbers their two-decimal strings denote. *)
Record CategoryRow : Type := mkCategoryRow {
  rowCategory : string;
  totalMonthly : Q;
  avgCost : Q;
  count : nat
}.

(** The monthly equivalent the panel works out inline; a cycle it does not
    know counts for nothing. *)
Definition monthlyRate (sub : Subscription) : Q :=
  if String.eqb (billingCycle sub) "Monthly" then cost sub
  else if String.eqb (billingCycle sub) "Quarterly"
  then (cost sub / inject_Z 3)%Q
  else if String.eqb (billingCycle sub) "Annually"
  then (cost sub / inject_Z 12)%Q
  else 0%Q.

(** The body of the [forEach] of [calculateCategoryTrend]:
    [if (!categories[cat]) categories[cat] = [];
     categories[cat].push (monthlyRate)].
    An inherited member is truthy and has no [push], which throws
    ([None]). *)
Definition pushRate (categories : @JSRecord.Obj (list Q))
    (sub : Subscription) : option (@JSRecord.Obj (list Q)) :=
  let cat := categoryOf sub in
  match JSRecord.getOwn categories cat with
  | Some costs =>
      Some (JSRecord.setOwn categories cat (costs ++ [monthlyRate sub])%list)
  | None =>
      if JSObject.isPrototypeMember cat then None
      else Some (JSRecord.setOwn categories cat ([] ++ [monthlyRate sub])%list)
  end.

(** [subscriptions.forEach (...)], stopped by the first throw. *)
Fixpoint pushRates (categories : @JSRecord.Obj (list Q))
    (subs : list Subscription) : option (@JSRecord.Obj (list Q)) :=
  match subs with
  | [] => Some categories
  | sub :: subs' =>
      match pushRate categories sub with
      | Some categories' => pushRates categories' subs'
      | None => None
      end
  end.

Definition toRow (entry : string * list Q) : CategoryRow :=
  let '(cat, costs) := entry in
  mkCategoryRow cat
    (JSNumber.toFixed2 (JSNumber.sum costs))
    (JSNumber.toFixed2
       (JSNumber.sum costs / inject_Z (Z.of_nat (List.length costs)))%Q)
    (List.length costs).

Definition calculateCategoryTrend (subscriptions : list Subscription)
    : option (list CategoryRow) :=
  match pushRates [] subscriptions with
  | Some categories =>
      Some
        (JSArray.sort (fun a b => (totalMonthly b - totalMonthly a)%Q)
           (map toRow (JSRecord.entries categories)))
  | None => None
  end.

(** *** The billing-cycle table ([calculateBillingCycleData]) *)

(** [sub.billingCycle || 'Monthly']. *)
Definition cycleOf (sub : Subscription) : string :=
  if String.eqb (billingCycle sub) "" then "Monthly" else billingCycle sub.

Definition cycleRate (sub : Subscription) : Q :=
  let cycle := cycleOf sub in
  if String.eqb cycle "Monthly" then cost sub
  else if String.eqb cycle "Quarterly" then (cost sub / inject_Z 3)%Q
  else if String.eqb cycle "Annually" then (cost sub / inject_Z 12)%Q
  else 0%Q.

(** [(read || 0) + x]: a number is added to; an inherited member or a
    string is truthy and [+] makes a string of it. *)
Definition orZeroPlus (read : JSObject.Read) (x : Q) : JSObject.Value :=
  match read with
  | JSObject.Undefined => JSObject.Num (0 + x)
  | JSObject.Own (JSObject.Num v) =>
      if JSNumber.truthy v then JSObject.Num (v + x)
      else JSObject.Num (0 + x)
  | JSObject.Own JSObject.Str | JSObject.Inherited => JSObject.Str
  end.

(** [{ 'Monthly': 0, 'Quarterly': 0, 'Annually': 0 }]. *)
Definition initialCycles : JSObject.Obj :=
  [ ("Monthly", JSObject.Num 0); ("Quarterly", JSObject.Num 0);
    ("Annually", JSObject.Num 0) ].

(** The body of the [forEach], on the pair of [cycles] and [counts]:
    [cycles[cycle] = (cycles[cycle] || 0) + monthlyRate;
     counts[cycle] = (counts[cycle] || 0) + 1]. *)
Definition addCycle (tables : JSObject.Obj * JSObject.Obj)
    (sub : Subscription) : JSObject.Obj * JSObject.Obj :=
  let cycle := cycleOf sub in
  let monthlyRate := cycleRate sub in
  (JSObject.set (fst tables) cycle
     (orZeroPlus (JSObject.get (fst tables) cycle) monthlyRate),
   JSObject.set (snd tables) cycle
     (orZeroPlus (JSObject.get (snd tables) cycle) 1)).

(** A row of the billing-cycle table; [cycleCount] is whatever
    [counts[cycle]] reads. *)
Record CycleEntry : Type := mkCycleEntry {
  cycleName : string;
  cycleValue : Q;
  cycleCount : JSObject.Read
}.

(** [([cycle, value]) => ({ name: cycle,
      value: parseFloat (value.toFixed (2)), count: counts[cycle] })]
    over the entries; a string has no [toFixed], which throws. *)
Fixpoint toCycleEntries (counts : JSObject.Obj)
    (es : list (string * JSObject.Value)) : option (list CycleEntry) :=
  match es with
  | [] => Some []
  | (k, JSObject.Num v) :: es' =>
      match toCycleEntries counts es' with
      | Some r =>
          Some (mkCycleEntry k (JSNumber.toFixed2 v) (JSObject.get counts k)
                  :: r)
      | None => None
      end
  | (_, JSObject.Str) :: _ => None
  end.

(** [None] stands for the TypeError the callback of [map] can throw. *)
Definition calculateBillingCycleData (subscriptions : list Subscription)
    : option (list CycleEntry) :=
  let tables :=
    fold_left addCycle subscriptions (initialCycles, initialCycles) in
  match toCycleEntries (snd tables) (JSObject.entries (fst tables)) with
  | Some es =>
      Some (filter (fun item => negb (Qle_bool (cycleValue item) 0)) es)
  | None => None
  end.

End Panel.

(* ================================================================== *)
(** ** The main component ([App]) *)

Module App.

Import UseAnalytics.
Local Open Scope string_scope.

(** The component keeps its own copies of [calculateMonthlyRate] and of the
    bodies of [categoryBreakdown] and [monthlyTrendData], word for word
    those of the hook; they are read through the definitions of the hook. *)

Definition activeSubscriptions (subscriptions : list Subscription)
    : list Subscription :=
  filter (fun sub => negb (isAwaitingCancellation sub)) subscriptions.


Definition getMonthlyTrendData (tza now : Z)
    (subscriptions : list Subscription) : list Trend.Entry :=
  monthlyTrendData tza now subscriptions.


(** The series handed to the analytics panel:
    [getMonthlyTrendData (activeSubscriptions)]. *)
Definition panelTrendData (tza now : Z) (subscriptions : list Subscription)
    : list Trend.Entry :=
  getMonthlyTrendData tza now (activeSubscriptions subscriptions).

Section Budget.
(** The budget the user has set ([None] is [null]), its kind, and the two
    figures of the hook it is held against. *)
Variables (budgetLimit : option Q) (budgetType : string).
Variables (totalMonthlyCost futureDebt : Q).







End Budget.

End App.

(* ================================================================== *)
(** ** Notions for the panel *)

Module PanelNotions.

Import UseAnalytics.

(** The arrays of the accumulator are exactly the groups of [subs]: under
    each category name in use, the rates of its members in list order, and
    nothing else. *)
Definition holdsRates (o : @JSRecord.Obj (list Q)) (subs : list Subscription)
    : Prop :=
  forall k,
    match JSRecord.getOwn o k with
    | Some costs => costs = map Panel.monthlyRate (Notions.filedUnder k subs)
                    /\ Notions.filedUnder k subs <> []
    | None => Notions.filedUnder k subs = []
    end.

(** Number of rates held in all the arrays. *)
Definition heldCount (o : @JSRecord.Obj (list Q)) : nat :=
  list_sum (map (fun kv => List.length (snd kv)) o).

(** Sum of the [count] column. *)
Definition countTotal (rows : list Panel.CategoryRow) : nat :=
  list_sum (map Panel.count rows).

(** Rows in descending order of monthly total. *)
Definition rowsDescending (rows : list Panel.CategoryRow) : Prop :=
  StronglySorted
    (fun a b => (Panel.totalMonthly b <= Panel.totalMonthly a)%Q) rows.


(** No subscription is billed on a cycle that bears the name of an
    inherited member. *)
Definition plainCycles (subs : list Subscription) : Prop :=
  Forall (fun s => JSObject.isPrototypeMember (Panel.cycleOf s) = false) subs.

(** A billing cycle that makes the table fail: the name of an inherited
    member other than [__proto__]. *)
Definition breaksCycles (s : Subscription) : bool :=
  JSObject.isPrototypeMember (Panel.cycleOf s)
  && negb (String.eqb (Panel.cycleOf s) "__proto__").

(** The table [o] holds, under each key, the total of [amount] over the
    subscriptions of [subs] that [key] files under it. *)
Definition holdsTally (key : Subscription -> string)
    (amount : Subscription -> Q) (o : JSObject.Obj)
    (subs : list Subscription) : Prop :=
  forall k,
    match JSObject.getOwn o k with
    | Some (JSObject.Num v) =>
        (v == JSNumber.sum
                (map amount (filter (fun s => String.eqb (key s) k) subs)))%Q
    | Some JSObject.Str => False
    | None => filter (fun s => String.eqb (key s) k) subs = []
    end.

(** The row the callback of [map] makes of an entry. *)
Definition cycleRow (counts : JSObject.Obj) (kv : string * JSObject.Value)
    : Panel.CycleEntry :=
  Panel.mkCycleEntry (fst kv)
    (match snd kv with
     | JSObject.Num v => JSNumber.toFixed2 v
     | JSObject.Str => 0%Q
     end)
    (JSObject.get counts (fst kv)).


End PanelNotions.

(* ================================================================== *)
(** ** More sample data *)

Module PanelSamples.

Import UseAnalytics.
Local Open Scope string_scope.

(** A plan on a cycle the engine does not know. *)
Definition weeklyPass : Subscription :=
  mkSubscription "Transit" 20 "Weekly" (Some (Samples.utc 2025 2 3))
    "Travel" false.

End PanelSamples.

(* ================================================================== *)
(** * Proofs *)

(** ** Facts about dates and the calendar *)

Module DateFacts.

Import JSDate Spec.

(** Goals about floor division by constants. *)
Ltac div_lia := Z.div_mod_to_equations; lia.

(** Case analysis on a month given by its bounds. *)
Ltac month_cases k :=
  let H := fresh "Hmonth" in
  assert (H : k = 1 \/ k = 2 \/ k = 3 \/ k = 4 \/ k = 5 \/ k = 6 \/ k = 7
              \/ k = 8 \/ k = 9 \/ k = 10 \/ k = 11 \/ k = 12) by lia;
  repeat (destruct H as [H|H]); subst k.

Lemma timeClip_valid t : Z.abs t <= maxTime -> timeClip t = Some t.
Proof. intros H. unfold timeClip. apply Z.leb_le in H. now rewrite H. Qed.

Lemma timeClip_Some t t' : timeClip t = Some t' -> t' = t /\ Z.abs t <= maxTime.
Proof.
  unfold timeClip. destruct (Z.abs t <=? maxTime) eqn:E; [|discriminate].
  intros [= <-]. split; [reflexivity | now apply Z.leb_le].
Qed.

Lemma newDate_Some v t : newDate v = Some t -> v = Some t /\ Z.abs t <= maxTime.
Proof.
  destruct v as [u|]; simpl; [|discriminate].
  intros H. apply timeClip_Some in H as [-> H]. now split.
Qed.

Lemma newDate_idem v : newDate (newDate v) = newDate v.
Proof.
  destruct (newDate v) as [t|] eqn:E; [|reflexivity].
  apply newDate_Some in E as [_ E]. simpl. now apply timeClip_valid.
Qed.


Lemma yoe_of_doe yoe doy :
  0 <= yoe < 400 -> 0 <= doy < 365 ->
  let doe := yoe * 365 + yoe / 4 - yoe / 100 + doy in
  0 <= doe < 146097 /\
  (doe - doe / 1460 + doe / 36524 - doe / 146096) / 365 = yoe.
Proof.
  intros Hy Hd doe. subst doe.
  split; div_lia.
Qed.

Lemma civilFromDays_parts era yoe doy :
  0 <= yoe < 400 -> 0 <= doy < 365 ->
  civilFromDays
    (era * 146097 + (yoe * 365 + yoe / 4 - yoe / 100 + doy) - 719468) =
  let mp := (5 * doy + 2) / 153 in
  let m := if mp <? 10 then mp + 3 else mp - 9 in
  (if m <=? 2 then yoe + era * 400 + 1 else yoe + era * 400,
   m, doy - (153 * mp + 2) / 5 + 1).
Proof.
  intros Hy Hd.
  destruct (yoe_of_doe yoe doy Hy Hd) as [Hdoe Hyoe].
  cbv zeta in Hdoe, Hyoe.
  set (doe := yoe * 365 + yoe / 4 - yoe / 100 + doy) in *.
  unfold civilFromDays. cbv zeta.
  replace (era * 146097 + doe - 719468 + 719468) with (doe + era * 146097)
    by ring.
  rewrite Z.div_add by lia. rewrite (Z.div_small doe) by lia.
  rewrite Z.add_0_l.
  replace (doe + era * 146097 - era * 146097) with doe by ring.
  rewrite Hyoe.
  replace (doe - (365 * yoe + yoe / 4 - yoe / 100)) with doy
    by (subst doe; ring).
  reflexivity.
Qed.

Lemma civilFromDays_daysFromCivil y k :
  1 <= k <= 12 -> civilFromDays (daysFromCivil y k 1) = (y, k, 1).
Proof.
  intros Hk. unfold daysFromCivil. cbv zeta.
  set (y' := if k <=? 2 then y - 1 else y).
  set (mp := if 2 <? k then k - 3 else k + 9).
  assert (Hy : 0 <= y' - y' / 400 * 400 < 400) by div_lia.
  assert (Hmp : 0 <= mp <= 11) by (subst mp; destruct (Z.ltb_spec 2 k); lia).
  assert (Hd : 0 <= (153 * mp + 2) / 5 + 1 - 1 < 365) by div_lia.
  rewrite civilFromDays_parts by assumption. cbv zeta.
  assert (Hmp' : (5 * ((153 * mp + 2) / 5 + 1 - 1) + 2) / 153 = mp)
    by div_lia.
  rewrite Hmp'.
  assert (Hm : (if mp <? 10 then mp + 3 else mp - 9) = k).
  { subst mp. destruct (Z.ltb_spec 2 k).
    - destruct (Z.ltb_spec (k - 3) 10); lia.
    - destruct (Z.ltb_spec (k + 9) 10); lia. }
  rewrite Hm. f_equal; [f_equal|lia].
  subst y'. destruct (Z.leb_spec k 2); ring.
Qed.

Lemma daysFromCivil_next_month y k :
  1 <= k < 12 ->
  daysFromCivil y k 1 + 28 <= daysFromCivil y (k + 1) 1
  <= daysFromCivil y k 1 + 31.
Proof.
  intros Hk. unfold daysFromCivil.
  month_cases k; try lia; cbn; div_lia.
Qed.

Lemma daysFromCivil_next_year y :
  daysFromCivil (y + 1) 1 1 = daysFromCivil y 12 1 + 31.
Proof.
  unfold daysFromCivil. cbn. replace (y + 1 - 1) with y by ring.
  div_lia.
Qed.

(** A month has 28 to 31 days. *)
Lemma monthStartDay_step n :
  monthStartDay n + 28 <= monthStartDay (n + 1) <= monthStartDay n + 31.
Proof.
  unfold monthStartDay.
  assert (Hm : 0 <= n mod 12 < 12) by (apply Z.mod_pos_bound; lia).
  assert (Hn : n = 12 * (n / 12) + n mod 12) by (apply Z.div_mod; lia).
  set (y := n / 12) in *. set (m := n mod 12) in *.
  assert (Hcase : m = 11 \/ m < 11) by lia.
  destruct Hcase as [H11|Hlt].
  - assert (Hy : (n + 1) / 12 = y + 1).
    { symmetry. apply (Z.div_unique _ _ _ 0); lia. }
    assert (Hm' : (n + 1) mod 12 = 0).
    { symmetry. apply (Z.mod_unique _ _ (y + 1)); lia. }
    rewrite Hy, Hm', H11. change (11 + 1) with 12. change (0 + 1) with 1.
    rewrite daysFromCivil_next_year. lia.
  - assert (Hy : (n + 1) / 12 = y).
    { symmetry. apply (Z.div_unique _ _ _ (m + 1)); lia. }
    assert (Hm' : (n + 1) mod 12 = m + 1).
    { symmetry. apply (Z.mod_unique _ _ y); lia. }
    rewrite Hy, Hm'. apply daysFromCivil_next_month. lia.
Qed.

Lemma monthStartDay_lt n k : 0 < k -> monthStartDay n < monthStartDay (n + k).
Proof.
  intros Hk. pattern k. apply (Zlt_lower_bound_ind _ 1); [|lia].
  clear k Hk. intros k IH Hk.
  destruct (Z.eq_dec k 1) as [->|Hne].
  - pose proof (monthStartDay_step n). lia.
  - assert (H1 := IH (k - 1) ltac:(lia)).
    pose proof (monthStartDay_step (n + (k - 1))).
    replace (n + (k - 1) + 1) with (n + k) in * by ring. lia.
Qed.

Lemma monthStartDay_lt_iff n n' : monthStartDay n < monthStartDay n' <-> n < n'.
Proof.
  split; intros H.
  - destruct (Z_lt_le_dec n n') as [|Hle]; [assumption|exfalso].
    destruct (Z.eq_dec n n') as [->|]; [lia|].
    pose proof (monthStartDay_lt n' (n - n') ltac:(lia)) as Hlt.
    replace (n' + (n - n')) with n in Hlt by ring. lia.
  - pose proof (monthStartDay_lt n (n' - n) ltac:(lia)) as Hlt.
    now replace (n + (n' - n)) with n' in Hlt by ring.
Qed.

Lemma msPerDay_pos : 0 < msPerDay.
Proof. reflexivity. Qed.

Lemma localDay_of_midnight tza day : localDay tza (day * msPerDay - tza) = day.
Proof.
  unfold localDay.
  replace (day * msPerDay - tza + tza) with (day * msPerDay) by ring.
  apply Z.div_mul. discriminate.
Qed.

Lemma monthStartDay_split y m :
  monthStartDay (12 * y + m) = daysFromCivil (y + m / 12) (m mod 12 + 1) 1.
Proof.
  unfold monthStartDay.
  replace (12 * y + m) with (m + y * 12) by ring.
  rewrite Z.div_add, Z.mod_add by lia.
  f_equal. ring.
Qed.

(** A date built from a year the constructor takes literally. *)
Lemma makeDate_plain_year tza y m d :
  (0 <=? y) && (y <=? 99) = false ->
  makeDate tza (Some y) (Some m) (Some d) =
  timeClip ((monthStartDay (12 * y + m) + d - 1) * msPerDay - tza).
Proof.
  intros Hy. unfold makeDate. rewrite Hy. now rewrite monthStartDay_split.
Qed.

Lemma makeDate_month_start tza y m :
  exists n, makeDate tza (Some y) (Some m) (Some 1) =
            timeClip (monthStartDay n * msPerDay - tza).
Proof.
  unfold makeDate.
  exists (12 * (if (0 <=? y) && (y <=? 99) then 1900 + y else y) + m).
  rewrite monthStartDay_split. do 2 f_equal. ring.
Qed.

Lemma monthNumber_month_start tza n :
  monthNumber tza (Some (monthStartDay n * msPerDay - tza)) = Some n.
Proof.
  unfold monthNumber, getFullYear, getMonth.
  rewrite localDay_of_midnight. unfold monthStartDay.
  assert (Hm : 0 <= n mod 12 < 12) by (apply Z.mod_pos_bound; lia).
  rewrite civilFromDays_daysFromCivil by lia.
  f_equal. pose proof (Z.div_mod n 12). lia.
Qed.

Lemma monthNumber_Some tza t :
  exists y m,
    getFullYear tza (Some t) = Some y /\ getMonth tza (Some t) = Some m
    /\ monthNumber tza (Some t) = Some (12 * y + m).
Proof.
  unfold monthNumber, getFullYear, getMonth.
  destruct (civilFromDays (localDay tza t)) as [[y k] d].
  exists y, (k - 1). auto.
Qed.

(** The first day of a month is on or before the last day of the [k]-th
    month after the anchor's month exactly when the month is at most [k]
    months after the anchor's month. *)
Lemma scaled_leb a b ms tza :
  0 < ms -> (a * ms - tza <=? (b - 1) * ms - tza) = (a <? b).
Proof.
  intros Hms.
  destruct (Z.ltb_spec a b); [apply Z.leb_le | apply Z.leb_gt]; nia.
Qed.

Lemma leb_None_r d : leb d None = false.
Proof. now destruct d. Qed.

Lemma month_start_leb tza n n' :
  leb (Some (monthStartDay n * msPerDay - tza))
      (Some ((monthStartDay (n' + 1) + 0 - 1) * msPerDay - tza))
  = (n <=? n').
Proof.
  change (leb (Some ?x) (Some ?y)) with (x <=? y).
  rewrite Z.add_0_r, scaled_leb by apply msPerDay_pos.
  destruct (Z.leb_spec n n') as [Hle|Hgt].
  - apply Z.ltb_lt, monthStartDay_lt_iff. lia.
  - apply Z.ltb_ge.
    destruct (Z.eq_dec (n' + 1) n) as [->|]; [lia|].
    apply Z.lt_le_incl, monthStartDay_lt_iff. lia.
Qed.

Lemma atMostMonthsAfter_None_r tza k d : atMostMonthsAfter tza k d None = false.
Proof.
  unfold atMostMonthsAfter.
  change (monthNumber tza None) with (@None Z).
  now destruct (monthNumber tza d).
Qed.

Lemma lastDayOfMonthAfter_Some tza k a :
  exists y m,
    getFullYear tza (Some a) = Some y
    /\ monthNumber tza (Some a) = Some (12 * y + m)
    /\ lastDayOfMonthAfter tza k (Some a)
       = makeDate tza (Some y) (Some (m + (k + 1))) (Some 0).
Proof.
  destruct (monthNumber_Some tza a) as (y & m & Hy & Hm & Hn).
  exists y, m. repeat split; try assumption.
  unfold lastDayOfMonthAfter. now rewrite Hy, Hm.
Qed.

Lemma month_start_before_cutoff tza n anchor k c :
  match getFullYear tza anchor with
  | Some y => (0 <=? y) && (y <=? 99) = false
  | None => True
  end ->
  lastDayOfMonthAfter tza k anchor = Some c ->
  leb (timeClip (monthStartDay n * msPerDay - tza)) (Some c)
  = atMostMonthsAfter tza k (timeClip (monthStartDay n * msPerDay - tza))
      anchor.
Proof.
  intros Hyear Hc.
  destruct anchor as [a|]; [|discriminate Hc].
  destruct (lastDayOfMonthAfter_Some tza k a) as (y & m & Hy & Hn & Hlast).
  rewrite Hy in Hyear. rewrite Hlast in Hc.
  rewrite (makeDate_plain_year _ _ _ _ Hyear) in Hc.
  apply timeClip_Some in Hc as [Hc _].
  unfold atMostMonthsAfter. rewrite Hn.
  destruct (timeClip (monthStartDay n * msPerDay - tza)) as [t|] eqn:Et;
    [|reflexivity].
  apply timeClip_Some in Et as [Et _].
  rewrite Et, monthNumber_month_start, Hc.
  replace (12 * y + (m + (k + 1))) with (12 * y + m + k + 1) by ring.
  apply month_start_leb.
Qed.

End DateFacts.

(** ** Facts about the renewal walk *)

Module WalkFacts.

Import JSDate UseAnalytics Spec DateFacts.

Lemma steps_after a p e : 0 < p -> e < a -> Z.to_nat ((e - a) / p + 1) = O.
Proof.
  intros Hp Hlt.
  assert ((e - a) / p < 0) by (apply Z.div_lt_upper_bound; lia).
  lia.
Qed.

Lemma steps_next a p e : 0 < p -> a <= e ->
  Z.to_nat ((e - a) / p + 1) = S (Z.to_nat ((e - (a + p)) / p + 1)).
Proof.
  intros Hp Hle.
  replace (e - a) with ((e - (a + p)) + 1 * p) by ring.
  rewrite Z.div_add by lia.
  assert (-1 <= (e - (a + p)) / p) by (apply Z.div_le_lower_bound; lia).
  lia.
Qed.

Lemma visitedDates_after a p e : 0 < p -> e < a -> visitedDates a p e = [].
Proof. intros. unfold visitedDates. now rewrite steps_after. Qed.

Lemma visitedDates_next a p e : 0 < p -> a <= e ->
  visitedDates a p e = a :: visitedDates (a + p) p e.
Proof.
  intros Hp Hle. unfold visitedDates.
  rewrite (steps_next a p e Hp Hle). cbn [seq map].
  f_equal; [lia|].
  rewrite <- seq_shift, map_map. apply map_ext. intros k. lia.
Qed.

Lemma visitedDates_bound a p e t :
  0 < p -> In t (visitedDates a p e) -> a <= t <= e.
Proof.
  intros Hp. unfold visitedDates. rewrite in_map_iff.
  intros (k & <- & Hk). apply in_seq in Hk.
  assert (Hk' : Z.of_nat k <= (e - a) / p) by lia.
  assert (p * Z.of_nat k <= e - a).
  { etransitivity; [apply Z.mul_le_mono_nonneg_l; [lia | exact Hk']|].
    apply Z.mul_div_le; lia. }
  nia.
Qed.

Lemma renewalLoop_count counted e p :
  0 < p -> Z.abs e <= maxTime ->
  forall fuel c n,
    Z.abs c <= maxTime ->
    (Z.to_nat ((e - c) / p + 1) <= fuel)%nat ->
    renewalLoop fuel counted (Some e) p (Some c) n =
    Some (n + List.length
                (filter (fun t => counted (Some t)) (visitedDates c p e)))%nat.
Proof.
  intros Hp He. induction fuel as [|fuel IH]; intros c n Hc Hfuel.
  - destruct (Z.leb_spec c e) as [Hle|Hgt].
    + rewrite (steps_next c p e Hp Hle) in Hfuel. lia.
    + cbn. apply Z.leb_gt in Hgt as Hb. rewrite Hb.
      rewrite visitedDates_after by assumption. cbn. f_equal. lia.
  - cbn [renewalLoop leb]. destruct (Z.leb_spec c e) as [Hle|Hgt].
    + rewrite (visitedDates_next c p e Hp Hle).
      cbn [filter getTime addMs newDate].
      rewrite (steps_next c p e Hp Hle) in Hfuel.
      destruct (Z_le_gt_dec (Z.abs (c + p)) maxTime) as [Hin|Hout].
      * rewrite (timeClip_valid _ Hin). rewrite IH by (assumption || lia).
        destruct (counted (Some c)); cbn [List.length]; f_equal; lia.
      * assert (Hcl : timeClip (c + p) = None).
        { unfold timeClip.
          destruct (Z.leb_spec (Z.abs (c + p)) maxTime); [lia|reflexivity]. }
        rewrite Hcl. rewrite visitedDates_after by lia.
        destruct fuel; cbn; destruct (counted (Some c)); cbn; f_equal; lia.
    + rewrite visitedDates_after by assumption. cbn. f_equal. lia.
Qed.

Lemma cycle_step_pos c : 0 < cycleInDays c * msPerDay.
Proof.
  unfold cycleInDays, msPerDay.
  destruct (String.eqb c "Monthly"); [lia|].
  destruct (String.eqb c "Quarterly"); lia.
Qed.

Create HintDb walk.
#[export] Hint Resolve cycle_step_pos : walk.

(** The budget [runLoop] hands to the loop is never exhausted, and a
    larger budget changes nothing. *)
Lemma renewalLoop_enough_fuel counted e p cur fuel :
  0 < p ->
  (walkFuel (newDate cur) (newDate e) p <= fuel)%nat ->
  renewalLoop fuel counted (newDate e) p (newDate cur) O
  = Some (runLoop counted (newDate e) p (newDate cur)).
Proof.
  intros Hp. unfold runLoop.
  destruct (newDate cur) as [c|] eqn:Ec; [|now destruct fuel].
  destruct (newDate e) as [e'|] eqn:Ee; [|now destruct fuel].
  apply newDate_Some in Ec as [_ Hc]. apply newDate_Some in Ee as [_ He].
  unfold walkFuel. intros Hfuel.
  rewrite (renewalLoop_count counted e' p Hp He _ c O Hc Hfuel).
  now rewrite (renewalLoop_count counted e' p Hp He _ c O Hc (Nat.le_refl _)).
Qed.

Lemma runLoop_count counted e p c :
  0 < p -> Z.abs e <= maxTime -> Z.abs c <= maxTime ->
  runLoop counted (Some e) p (Some c) =
  List.length (filter (fun t => counted (Some t)) (visitedDates c p e)).
Proof.
  intros Hp He Hc. unfold runLoop, walkFuel.
  now rewrite (renewalLoop_count counted e p Hp He _ c O Hc (Nat.le_refl _)).
Qed.

Lemma runLoop_invalid_start counted e p : runLoop counted e p None = O.
Proof. reflexivity. Qed.

Lemma runLoop_invalid_end counted p cur : runLoop counted None p cur = O.
Proof. unfold runLoop. destruct cur; reflexivity. Qed.

Lemma filter_ext_in_length {A} (f g : A -> bool) l :
  (forall x, In x l -> f x = g x) ->
  List.length (filter f l) = List.length (filter g l).
Proof. intros H. now rewrite (filter_ext_in f g l H). Qed.

Lemma filter_length_mono {A} (f g : A -> bool) l :
  (forall x, In x l -> f x = true -> g x = true) ->
  (List.length (filter f l) <= List.length (filter g l))%nat.
Proof.
  induction l as [|x l IH]; intros H; [apply Nat.le_refl|].
  assert (IH' := IH (fun y Hy => H y (or_intror Hy))).
  cbn. destruct (f x) eqn:Ef.
  - rewrite (H x (or_introl eq_refl) Ef). cbn. lia.
  - destruct (g x); cbn; lia.
Qed.

(** The walk of the code counts what the specification counts. *)
Lemma occurrencesInWindow_occurrences anchor cycle ws we :
  occurrencesInWindow (newDate anchor) cycle (newDate ws) (newDate we) =
  occurrences (newDate anchor) (cycleInDays cycle) (newDate ws) (newDate we).
Proof.
  unfold occurrencesInWindow, occurrences. rewrite newDate_idem.
  destruct (newDate anchor) as [a|] eqn:Ea; [|reflexivity].
  destruct (newDate we) as [e|] eqn:Ee; [|now destruct (newDate ws)].
  apply newDate_Some in Ea as [_ Ha]. apply newDate_Some in Ee as [_ He].
  rewrite runLoop_count by auto with walk.
  destruct (newDate ws) as [s|]; [reflexivity|].
  cbn. induction (visitedDates a _ e); [reflexivity | assumption].
Qed.

(** The 12-month walk is the generic walk over [today, today + 365 days]:
    inside the loop the date is already on or before the end. *)
Lemma calculateRenewalsInNext12Months_window now d cycle :
  calculateRenewalsInNext12Months now d cycle =
  occurrencesInWindow (newDate d) cycle (newDate (Some now))
    (newDate (addMs (getTime (newDate (Some now))) (365 * msPerDay))).
Proof.
  unfold calculateRenewalsInNext12Months, occurrencesInWindow.
  set (we := newDate (addMs _ _)). rewrite !newDate_idem.
  destruct (newDate d) as [a|] eqn:Ea; [|reflexivity].
  destruct we as [e|] eqn:Ee; [|reflexivity].
  apply newDate_Some in Ea as [_ Ha]. subst we.
  apply newDate_Some in Ee as [_ He].
  rewrite !runLoop_count by auto with walk.
  apply filter_ext_in_length. intros t Ht.
  apply visitedDates_bound in Ht; [|auto with walk].
  unfold geb. destruct (newDate (Some now)) as [s|]; cbn; [|reflexivity].
  replace (t <=? e) with true by (symmetry; apply Z.leb_le; lia).
  now rewrite andb_true_r.
Qed.

Lemma visitedDates_prefix a p e e' : 0 < p -> e <= e' ->
  exists rest, visitedDates a p e' = visitedDates a p e ++ rest.
Proof.
  intros Hp Hle. unfold visitedDates.
  set (n := Z.to_nat ((e - a) / p + 1)).
  set (n' := Z.to_nat ((e' - a) / p + 1)).
  assert (Hn : (n <= n')%nat).
  { subst n n'.
    assert ((e - a) / p <= (e' - a) / p) by (apply Z.div_le_mono; lia).
    lia. }
  exists (map (fun k => a + Z.of_nat k * p) (seq (0 + n) (n' - n))).
  rewrite <- map_app, <- seq_app. do 2 f_equal. lia.
Qed.

Lemma occurrenceCount_mono a p s e s' e' :
  0 < p -> s' <= s -> e <= e' ->
  (occurrenceCount a p s e <= occurrenceCount a p s' e')%nat.
Proof.
  intros Hp Hs He. unfold occurrenceCount.
  destruct (visitedDates_prefix a p e e' Hp He) as [rest ->].
  rewrite filter_app, length_app.
  etransitivity; [|apply Nat.le_add_r].
  apply filter_length_mono. intros t _. unfold inWindow.
  rewrite !andb_true_iff, !Z.leb_le. lia.
Qed.
End WalkFacts.

(** ** Facts about [sort] *)

Module SortFacts.

Import JSArray.

Section Sorting.
Context {A : Type}.
Variable compareFn : A -> A -> Q.

Lemma insertSorted_perm x l : Permutation (insertSorted compareFn x l) (x :: l).
Proof.
  induction l as [|y l IH]; cbn; [reflexivity|].
  destruct (Qle_bool (compareFn x y) 0); [reflexivity|].
  rewrite IH. apply perm_swap.
Qed.

Lemma sort_perm l : Permutation (sort compareFn l) l.
Proof.
  induction l as [|x l IH]; cbn; [reflexivity|].
  rewrite insertSorted_perm. now constructor.
Qed.

Lemma sort_In x l : In x (sort compareFn l) <-> In x l.
Proof.
  split; apply Permutation_in; [|symmetry]; apply sort_perm.
Qed.

Lemma sort_length l : List.length (sort compareFn l) = List.length l.
Proof. apply Permutation_length, sort_perm. Qed.

(** The order a comparator induces: [x] may stand before [y]. *)


Hypothesis before_total :
  forall x y, before compareFn x y \/ before compareFn y x.
Hypothesis before_trans :
  forall x y z,
    before compareFn x y -> before compareFn y z -> before compareFn x z.

Lemma insertSorted_sorted x l :
  StronglySorted (before compareFn) l ->
  StronglySorted (before compareFn) (insertSorted compareFn x l).
Proof.
  induction 1 as [|y l Hs IH Hall]; cbn.
  - repeat constructor.
  - destruct (Qle_bool (compareFn x y) 0) eqn:E.
    + apply Qle_bool_iff in E. constructor; [now constructor|].
      constructor; [exact E|].
      eapply Forall_impl; [|exact Hall]. intros z Hz.
      now apply (before_trans x y z).
    + constructor; [exact IH|].
      assert (Hyx : before compareFn y x).
      { destruct (before_total x y) as [H|H]; [|exact H].
        apply Qle_bool_iff in H. unfold before in H. congruence. }
      eapply Permutation_Forall; [symmetry; apply insertSorted_perm|].
      now constructor.
Qed.

Lemma sort_sorted l : StronglySorted (before compareFn) (sort compareFn l).
Proof.
  induction l as [|x l IH]; cbn; [constructor | now apply insertSorted_sorted].
Qed.
End Sorting.

End SortFacts.

(** ** Facts about the sums *)

Module SumFacts.

Lemma fold_left_sum {A} (f : A -> Q) (l : list A) (acc : Q) :
  fold_left (fun total x => (total + f x)%Q) l acc
  = fold_left Qplus (map f l) acc.
Proof.
  revert acc.
  induction l as [|x l IH]; intros acc; cbn; [reflexivity | apply IH].
Qed.

Lemma fold_left_Qeq {A} (f : A -> Q) (l : list A) (acc acc' : Q) :
  (acc == acc')%Q ->
  (fold_left (fun total x => (total + f x)%Q) l acc
   == fold_left (fun total x => (total + f x)%Q) l acc')%Q.
Proof.
  revert acc acc'. induction l as [|x l IH]; intros acc acc' H; cbn; [exact H|].
  apply IH. now rewrite H.
Qed.

(** An element that adds nothing can be dropped from the head. *)
Lemma fold_left_skip_zero {A} (f : A -> Q) (x : A) (l : list A) :
  (f x == 0)%Q ->
  (fold_left (fun total y => (total + f y)%Q) (x :: l) 0
   == fold_left (fun total y => (total + f y)%Q) l 0)%Q.
Proof.
  intros H. cbn [fold_left]. apply fold_left_Qeq. rewrite H. ring.
Qed.

End SumFacts.

(** ** Facts about rounding to two decimals *)

Module RoundingFacts.

(** Rounding to two decimals moves a number by at most half a cent. *)
Lemma toFixed2_close (x : Q) : (Qabs (JSNumber.toFixed2 x - x) <= 1 # 200)%Q.
Proof.
  unfold JSNumber.toFixed2.
  destruct (Qle_bool (inject_Z (10 ^ 21)) (Qabs x)).
  { setoid_replace (x - x)%Q with 0%Q by ring. discriminate. }
  set (n := Qfloor (Qabs x * inject_Z 100 + (1 # 2))).
  pose proof (Qfloor_le (Qabs x * inject_Z 100 + (1 # 2))) as Hlo.
  pose proof (Qlt_floor (Qabs x * inject_Z 100 + (1 # 2))) as Hhi.
  fold n in Hlo, Hhi. rewrite inject_Z_plus in Hhi.
  change (inject_Z 1) with 1%Q in Hhi.
  change (inject_Z 100) with (100 # 1)%Q in *.
  clearbody n. remember (inject_Z n) as q eqn:Hq. clear Hq n.
  apply Qabs_Qle_condition.
  destruct (Qle_bool 0 x) eqn:Ex.
  - apply Qle_bool_iff in Ex. rewrite (Qabs_pos x Ex) in Hlo, Hhi.
    split; unfold Qdiv; change (/ (100 # 1))%Q with (1 # 100)%Q; lra.
  - assert (Hneg : (x < 0)%Q).
    { apply Qnot_le_lt. intros H. apply Qle_bool_iff in H. congruence. }
    rewrite (Qabs_neg x (Qlt_le_weak _ _ Hneg)) in Hlo, Hhi.
    split; unfold Qdiv; change (/ (100 # 1))%Q with (1 # 100)%Q; lra.
Qed.

(** Rounding to two decimals does not tell equal numbers apart. *)
Lemma toFixed2_comp (x y : Q) :
  (x == y)%Q -> (JSNumber.toFixed2 x == JSNumber.toFixed2 y)%Q.
Proof.
  intros H. unfold JSNumber.toFixed2.
  assert (Ha : (Qabs x == Qabs y)%Q) by now rewrite H.
  rewrite (Qleb_comp _ _ (Qeq_refl (inject_Z (10 ^ 21))) _ _ Ha).
  rewrite (Qleb_comp _ _ (Qeq_refl 0%Q) _ _ H).
  destruct (Qle_bool (inject_Z (10 ^ 21)) (Qabs y)); [exact H|].
  assert (Hf : Qfloor (Qabs x * inject_Z 100 + (1 # 2))
               = Qfloor (Qabs y * inject_Z 100 + (1 # 2))).
  { apply Qfloor_comp. now rewrite Ha. }
  rewrite Hf. reflexivity.
Qed.

(** The rounded value is a whole number of cents. *)
Lemma toFixed2_cents (x : Q) :
  Qle_bool (inject_Z (10 ^ 21)) (Qabs x) = false ->
  exists n : Z, (JSNumber.toFixed2 x == inject_Z n / inject_Z 100)%Q.
Proof.
  intros Hsmall. unfold JSNumber.toFixed2. rewrite Hsmall.
  set (n := Qfloor (Qabs x * inject_Z 100 + (1 # 2))).
  destruct (Qle_bool 0 x).
  - now exists n.
  - exists (- n)%Z. rewrite inject_Z_opp. unfold Qdiv. ring.
Qed.

(** What the model computes is one of the values the code can yield. *)
Lemma toFixed2_roundsToCents (x : Q) :
  JSNumber.roundsToCents x (JSNumber.toFixed2 x).
Proof.
  unfold JSNumber.roundsToCents.
  destruct (Qle_bool (inject_Z (10 ^ 21)) (Qabs x)) eqn:E.
  - unfold JSNumber.toFixed2. rewrite E. reflexivity.
  - split; [now apply toFixed2_cents | apply toFixed2_close].
Qed.


End RoundingFacts.

(** ** Facts about the category accumulator *)

Module CategoryFacts.

Import JSObject UseAnalytics Spec SortFacts SumFacts.
Local Open Scope string_scope.

Lemma getOwn_setOwn_same o k v : getOwn (setOwn o k v) k = Some v.
Proof.
  induction o as [|[k' v'] o IH]; cbn.
  - now rewrite String.eqb_refl.
  - destruct (String.eqb_spec k' k) as [->|Hne]; cbn.
    + now rewrite String.eqb_refl.
    + destruct (String.eqb_spec k' k); [contradiction | exact IH].
Qed.

Lemma getOwn_setOwn_other o k v k0 :
  k0 <> k -> getOwn (setOwn o k v) k0 = getOwn o k0.
Proof.
  intros Hne. induction o as [|[k' v'] o IH]; cbn.
  - destruct (String.eqb_spec k k0); [congruence | reflexivity].
  - destruct (String.eqb_spec k' k) as [->|Hk]; cbn.
    + destruct (String.eqb_spec k k0); [congruence | reflexivity].
    + destruct (String.eqb_spec k' k0); [reflexivity | exact IH].
Qed.

Lemma setOwn_keys o k v :
  map fst (setOwn o k v)
  = if existsb (String.eqb k) (map fst o) then map fst o
    else (map fst o ++ [k])%list.
Proof.
  induction o as [|[k' v'] o IH]; cbn; [reflexivity|].
  rewrite (String.eqb_sym k k').
  destruct (String.eqb k' k); cbn; [reflexivity|].
  rewrite IH. now destruct (existsb (String.eqb k) (map fst o)).
Qed.

Lemma setOwn_NoDup o k v : NoDup (map fst o) -> NoDup (map fst (setOwn o k v)).
Proof.
  intros Hnd. rewrite setOwn_keys.
  destruct (existsb (String.eqb k) (map fst o)) eqn:E; [exact Hnd|].
  apply NoDup_app; [exact Hnd | repeat constructor; intros [] | ].
  intros x Hx [Hk|[]]. subst x.
  rename k into x.
  assert (existsb (String.eqb x) (map fst o) = true); [|congruence].
  apply existsb_exists. exists x. split; [exact Hx | apply String.eqb_refl].
Qed.

Lemma getOwn_In o k v : NoDup (map fst o) -> In (k, v) o -> getOwn o k = Some v.
Proof.
  induction o as [|[k' v'] o IH]; cbn; [contradiction|].
  intros Hnd [[= -> ->]|Hin].
  - now rewrite String.eqb_refl.
  - inversion Hnd as [|? ? Hnot Hnd']; subst.
    destruct (String.eqb_spec k' k) as [->|]; [|now apply IH].
    exfalso. apply Hnot. apply in_map_iff. now exists (k, v).
Qed.

Lemma In_getOwn o k v : getOwn o k = Some v -> In (k, v) o.
Proof.
  induction o as [|[k' v'] o IH]; cbn; [discriminate|].
  destruct (String.eqb_spec k' k) as [->|].
  - intros [= ->]. now left.
  - intros H. right. now apply IH.
Qed.

Lemma notProto_set o k v :
  isPrototypeMember k = false -> set o k v = setOwn o k v.
Proof.
  intros H. unfold set.
  destruct (String.eqb_spec k "__proto__") as [->|];
    [discriminate H | reflexivity].
Qed.

Lemma categoryTotal_snoc k done s :
  categoryTotal k (done ++ [s])%list
  = if String.eqb (categoryOf s) k
    then (categoryTotal k done + monthlyRate s)%Q
    else categoryTotal k done.
Proof.
  unfold categoryTotal, JSNumber.sum.
  rewrite filter_app, map_app, fold_left_app. cbn [filter].
  now destruct (String.eqb (categoryOf s) k).
Qed.

Lemma categoryTotal_unused k subs :
  (forall s, In s subs -> categoryOf s <> k) -> categoryTotal k subs = 0%Q.
Proof.
  intros H. unfold categoryTotal.
  replace (filter (fun s => String.eqb (categoryOf s) k) subs)
    with (@nil Subscription); [reflexivity|].
  symmetry. induction subs as [|s subs IH]; [reflexivity|]. cbn.
  destruct (String.eqb_spec (categoryOf s) k) as [He|_].
  - exfalso. apply (H s); [now left | exact He].
  - apply IH. intros s' Hs'. apply H. now right.
Qed.

Lemma holdsGroups_empty : holdsGroups [] [].
Proof. intros k s []. Qed.

(** One turn of the [forEach] keeps the groups in step with the list. *)
Lemma addToCategory_holdsGroups o done s :
  isPrototypeMember (categoryOf s) = false ->
  holdsGroups o done ->
  holdsGroups (addToCategory o s) (done ++ [s])%list.
Proof.
  intros Hplain Hinv k.
  assert (Hnew : forall v,
            (v == categoryTotal (categoryOf s) done + monthlyRate s)%Q ->
            match getOwn (setOwn o (categoryOf s) (Num v)) k with
            | Some (Num v') =>
                (exists s', In s' (done ++ [s])%list /\ categoryOf s' = k)
                /\ (v' == categoryTotal k (done ++ [s])%list)%Q
            | Some Str => False
            | None => forall s', In s' (done ++ [s])%list -> categoryOf s' <> k
            end).
  { intros v Hv. destruct (String.eqb_spec (categoryOf s) k) as [Hk|Hk].
    - subst k. rewrite getOwn_setOwn_same. split.
      + exists s. split; [apply in_or_app; right; now left | reflexivity].
      + rewrite categoryTotal_snoc, String.eqb_refl. exact Hv.
    - rewrite getOwn_setOwn_other by congruence.
      specialize (Hinv k). rewrite categoryTotal_snoc.
      destruct (String.eqb_spec (categoryOf s) k); [contradiction|].
      destruct (getOwn o k) as [[v'|]|].
      + destruct Hinv as [(s' & Hs' & Hc) Hv']. split; [|exact Hv'].
        exists s'. split; [apply in_or_app; now left | exact Hc].
      + exact Hinv.
      + intros s' Hs'. apply in_app_or in Hs' as [Hs'|[<-|[]]];
          [now apply Hinv | exact Hk]. }
  unfold addToCategory, get.
  pose proof (Hinv (categoryOf s)) as Hc.
  destruct (getOwn o (categoryOf s)) as [[v|]|].
  - destruct Hc as [_ Hv]. unfold JSNumber.truthy.
    destruct (Qeq_bool v 0) eqn:Ez; cbn [negb];
      rewrite notProto_set by assumption; apply Hnew.
    + apply Qeq_bool_iff in Ez. rewrite <- Hv, Ez. reflexivity.
    + now rewrite Hv.
  - contradiction.
  - rewrite Hplain, notProto_set by assumption. apply Hnew.
    now rewrite (categoryTotal_unused _ _ Hc).
Qed.

Lemma addToCategory_NoDup o s :
  NoDup (map fst o) -> NoDup (map fst (addToCategory o s)).
Proof.
  intros Hnd. unfold addToCategory, set.
  destruct (get o (categoryOf s)) as [|[v|]|];
    try destruct (JSNumber.truthy v);
    destruct (String.eqb (categoryOf s) "__proto__");
    auto using setOwn_NoDup.
Qed.

Lemma fold_addToCategory o done rest :
  plainCategories rest ->
  NoDup (map fst o) -> holdsGroups o done ->
  NoDup (map fst (fold_left addToCategory rest o))
  /\ holdsGroups (fold_left addToCategory rest o) (done ++ rest)%list.
Proof.
  revert o done. induction rest as [|s rest IH]; intros o done Hplain Hnd Hinv.
  - rewrite app_nil_r. now split.
  - inversion Hplain as [|? ? Hs Hrest]; subst. cbn [fold_left].
    replace (done ++ s :: rest)%list with ((done ++ [s]) ++ rest)%list
      by (now rewrite <- app_assoc).
    apply IH; [exact Hrest | now apply addToCategory_NoDup |].
    now apply addToCategory_holdsGroups.
Qed.

Lemma filter_split_perm {A} (f : A -> bool) (l : list A) :
  Permutation (filter f l ++ filter (fun x => negb (f x)) l)%list l.
Proof.
  induction l as [|x l IH]; cbn; [constructor|].
  destruct (f x); cbn.
  - now constructor.
  - rewrite <- Permutation_middle. now constructor.
Qed.

Lemma entries_perm o : Permutation (entries o) o.
Proof.
  unfold entries. rewrite (sort_perm compareIndex). apply filter_split_perm.
Qed.

(** When every property is a number the callback of [map] never throws, and
    each entry is turned into a slice with the rounded value. *)
Lemma toCategoryEntries_numbers es :
  Forall (fun kv => exists v, snd kv = Num v) es ->
  exists r,
    toCategoryEntries es = Some r
    /\ Forall2
         (fun kv e =>
            categoryName e = fst kv
            /\ exists v, snd kv = Num v /\ value e = JSNumber.toFixed2 v)
         es r.
Proof.
  induction 1 as [|[k x] es [v Hv] _ (r & Hr & Hall)]; cbn.
  - exists []. split; [reflexivity | constructor].
  - cbn in Hv. subst x. rewrite Hr.
    exists (mkCategoryEntry k (JSNumber.toFixed2 v) :: r).
    split; [reflexivity|]. constructor; [|exact Hall].
    split; [reflexivity|]. now exists v.
Qed.

Lemma value_order_total (a b : CategoryEntry) :
  JSArray.before (fun a b => (value b - value a)%Q) a b
  \/ JSArray.before (fun a b => (value b - value a)%Q) b a.
Proof.
  unfold JSArray.before.
  destruct (Qlt_le_dec (value a) (value b)) as [Hlt|Hle].
  - right. apply Qlt_le_weak in Hlt. lra.
  - left. lra.
Qed.

Lemma value_order_trans (a b c : CategoryEntry) :
  JSArray.before (fun a b => (value b - value a)%Q) a b ->
  JSArray.before (fun a b => (value b - value a)%Q) b c ->
  JSArray.before (fun a b => (value b - value a)%Q) a c.
Proof. unfold JSArray.before. intros. lra. Qed.

Lemma sorted_by_value_descending es :
  descending (JSArray.sort (fun a b => (value b - value a)%Q) es).
Proof.
  unfold descending.
  pose proof (sort_sorted _ value_order_total value_order_trans es) as Hs.
  induction Hs as [|e l _ IH Hall]; constructor; [exact IH|].
  eapply Forall_impl; [|exact Hall].
  unfold JSArray.before. intros. lra.
Qed.

Lemma Forall2_names {A} (R : string * A -> CategoryEntry -> Prop) es r :
  Forall2 R es r -> (forall kv e, R kv e -> categoryName e = fst kv) ->
  map categoryName r = map fst es.
Proof.
  intros H HR. induction H as [|kv e es r Hke _ IH]; cbn; [reflexivity|].
  now rewrite IH, (HR _ _ Hke).
Qed.

Lemma Forall2_In_right {A B} (R : A -> B -> Prop) l r y :
  Forall2 R l r -> In y r -> exists x, In x l /\ R x y.
Proof.
  induction 1 as [|x y' l r Hxy _ IH]; cbn; [contradiction|].
  intros [<-|Hin].
  - exists x. split; [now left | exact Hxy].
  - destruct (IH Hin) as (x' & Hx' & HR). exists x'.
    split; [now right | exact HR].
Qed.

(** What the hook computes for the chart, whatever the flags say: one slice
    for each category name in use among all the subscriptions, carrying
    the rounded total of its group, the slices being in descending order of
    value. *)
Lemma categoryBreakdown_groups_every_subscription subs :
  plainCategories subs ->
  exists es,
    categoryBreakdown subs = Some es
    /\ descending es
    /\ NoDup (map categoryName es)
    /\ (forall c,
          In c (map categoryName es)
          <-> exists s, In s subs /\ categoryOf s = c)
    /\ (forall e,
          In e es ->
          exists raw,
            value e = JSNumber.toFixed2 raw
            /\ (raw == categoryTotal (categoryName e) subs)%Q).
Proof.
  intros Hplain.
  destruct
    (fold_addToCategory [] [] subs Hplain (NoDup_nil _) holdsGroups_empty)
    as [Hnd Hinv].
  cbn [app] in Hinv.
  set (o := fold_left addToCategory subs []) in *.
  assert (Hnum : Forall (fun kv => exists v, snd kv = Num v) (entries o)).
  { eapply Permutation_Forall; [symmetry; apply entries_perm|].
    apply Forall_forall. intros [k x] Hin. cbn.
    pose proof (Hinv k) as Hk. rewrite (getOwn_In _ _ _ Hnd Hin) in Hk.
    destruct x as [v|]; [now exists v | contradiction]. }
  destruct (toCategoryEntries_numbers _ Hnum) as (r & Hr & Hall).
  assert (Hnames : map categoryName r = map fst (entries o)).
  { apply (Forall2_names _ _ _ Hall). now intros kv e [H _]. }
  assert (Hperm : Permutation
            (map categoryName
               (JSArray.sort (fun a b => (value b - value a)%Q) r))
            (map fst o)).
  { rewrite (sort_perm _ r), Hnames. apply Permutation_map, entries_perm. }
  exists (JSArray.sort (fun a b => (value b - value a)%Q) r).
  split; [|split; [|split; [|split]]].
  - unfold categoryBreakdown. fold o. now rewrite Hr.
  - apply sorted_by_value_descending.
  - eapply Permutation_NoDup; [symmetry; exact Hperm | exact Hnd].
  - intros c. split.
    + intros Hc. apply (Permutation_in _ Hperm) in Hc.
      apply in_map_iff in Hc as ([k x] & Hk & Hin). cbn in Hk. subst k.
      pose proof (Hinv c) as Hg. rewrite (getOwn_In _ _ _ Hnd Hin) in Hg.
      destruct x; [exact (proj1 Hg) | contradiction].
    + intros (s & Hs & Hc). apply (Permutation_in _ (Permutation_sym Hperm)).
      pose proof (Hinv c) as Hg.
      destruct (getOwn o c) as [x|] eqn:Eg.
      * apply In_getOwn in Eg. apply in_map_iff. now exists (c, x).
      * exfalso. exact (Hg s Hs Hc).
  - intros e He. apply sort_In in He.
    destruct (Forall2_In_right _ _ _ _ Hall He)
      as ([k x] & Hin & Hname & v & Hx & Hv).
    cbn in Hname, Hx. subst x. exists v. split; [exact Hv|].
    apply (Permutation_in _ (entries_perm o)) in Hin.
    pose proof (Hinv k) as Hg. rewrite (getOwn_In _ _ _ Hnd Hin) in Hg.
    rewrite Hname. exact (proj2 Hg).
Qed.

End CategoryFacts.

(** ** Facts about the trend series *)

Module TrendFacts.

Import JSDate UseAnalytics Spec DateFacts WalkFacts SumFacts Samples.
Local Open Scope string_scope.

Lemma occurrencesInWindow_invalid_anchor cycle ws we :
  occurrencesInWindow None cycle ws we = O.
Proof. reflexivity. Qed.

Lemma calculateRenewalsInNext12Months_invalid now d cycle :
  newDate d = None -> calculateRenewalsInNext12Months now d cycle = O.
Proof.
  intros H. unfold calculateRenewalsInNext12Months. rewrite H. reflexivity.
Qed.

Lemma renewalsInMonth_invalid tza sub monthDate :
  newDate (nextRenewalDate sub) = None -> renewalsInMonth tza sub monthDate = O.
Proof. intros H. unfold renewalsInMonth. rewrite H. reflexivity. Qed.

Lemma sameNumber_None_r a : sameNumber a None = false.
Proof. now destruct a. Qed.

Lemma trendMonthDate_month_start tza now i :
  trendMonthDate tza now i = None
  \/ exists n, trendMonthDate tza now i
               = timeClip (monthStartDay n * msPerDay - tza).
Proof.
  unfold trendMonthDate.
  destruct (newDate (Some now)) as [t|]; [right|left; reflexivity].
  destruct (monthNumber_Some tza t) as (y & m & Hy & Hm & _).
  rewrite Hy, Hm. apply makeDate_month_start.
Qed.

(** The test the trend makes for a quarterly plan, read on month numbers. *)
Lemma quarterly_test_months tza now i anchor :
  ordinaryAnchor tza anchor = true ->
  leb (trendMonthDate tza now i) (lastDayOfMonthAfter tza 2 anchor)
  = atMostMonthsAfter tza 2 (trendMonthDate tza now i) anchor.
Proof.
  intros Hord.
  destruct anchor as [a|].
  2:{ rewrite atMostMonthsAfter_None_r. apply leb_None_r. }
  unfold ordinaryAnchor in Hord.
  destruct (getFullYear tza (Some a)) as [y|] eqn:Hy.
  2:{ discriminate Hy. }
  apply andb_true_iff in Hord as [Hyear Hlast].
  apply negb_true_iff in Hyear.
  destruct (lastDayOfMonthAfter tza 2 (Some a)) as [c|] eqn:Hc; [|discriminate].
  destruct (trendMonthDate_month_start tza now i) as [Hn|[n Hn]]; rewrite Hn.
  - unfold atMostMonthsAfter. reflexivity.
  - apply month_start_before_cutoff; [now rewrite Hy | exact Hc].
Qed.

Lemma monthSubCost_no_occurrence tza sub monthDate :
  renewalsInMonth tza sub monthDate = O ->
  monthSubCost tza sub monthDate
  = fallbackShare tza
      (leb monthDate
         (lastDayOfMonthAfter tza 2 (newDate (nextRenewalDate sub))))
      sub monthDate.
Proof.
  intros H0. unfold monthSubCost, fallbackShare. rewrite H0.
  cbn [Nat.ltb Nat.leb].
  destruct (String.eqb (billingCycle sub) "Monthly"); [reflexivity|].
  destruct (String.eqb_spec (billingCycle sub) "Quarterly") as [Hq|Hq].
  - change (lastDayOfMonthAfter tza 2 ?a)
      with (makeDate tza (getFullYear tza a) (addMs (getMonth tza a) 3)
              (Some 0)).
    destruct (leb monthDate _); [reflexivity|].
    rewrite Hq. reflexivity.
  - rewrite andb_false_l.
    destruct (String.eqb (billingCycle sub) "Annually"); [|reflexivity].
    rewrite andb_true_l. reflexivity.
Qed.

End TrendFacts.

(** ** The model on known values *)

Module Checks.

Import JSDate UseAnalytics Spec Samples.
Local Open Scope string_scope.

Example epoch_day : utc 1970 1 1 = 0.
Proof. reflexivity. Qed.

Example leap_day_2000 : utc 2000 3 1 = 951868800000.
Proof. reflexivity. Qed.

Example new_year_2024 : utc 2024 1 1 = 1704067200000.
Proof. reflexivity. Qed.

Example year_and_month_read_back :
  getFullYear 0 (Some (utc 2024 12 31)) = Some 2024
  /\ getMonth 0 (Some (utc 2024 12 31)) = Some 11.
Proof. split; reflexivity. Qed.

(** Five hours west of Greenwich the first hours of a UTC day still belong
    to the day before. *)
Example local_time_west :
  getFullYear (-18000000) (Some (utc 2025 1 1)) = Some 2024
  /\ makeDate (-18000000) (Some 2025) (Some 0) (Some 1)
     = Some (utc 2025 1 1 + 18000000).
Proof. split; reflexivity. Qed.

Example month_overflows_into_next_year :
  makeDate 0 (Some 2024) (Some 12) (Some 1) = Some (utc 2025 1 1).
Proof. reflexivity. Qed.

Example day_zero_is_last_day_of_previous_month :
  makeDate 0 (Some 2024) (Some 3) (Some 0) = Some (utc 2024 3 31)
  /\ makeDate 0 (Some 2025) (Some 2) (Some 0) = Some (utc 2025 2 28).
Proof. split; reflexivity. Qed.

Example two_digit_year :
  makeDate 0 (Some 99) (Some 0) (Some 1) = Some (utc 1999 1 1).
Proof. reflexivity. Qed.

Example date_out_of_range : newDate (Some (maxTime + 1)) = None.
Proof. reflexivity. Qed.

Example rounding_half_up :
  (JSNumber.toFixed2 (1 # 8) == 13 # 100)%Q
  /\ (JSNumber.toFixed2 (- (1 # 8)) == - (13 # 100))%Q
  /\ (JSNumber.toFixed2 (10 # 3) == 333 # 100)%Q.
Proof. repeat split. Qed.

Example sort_is_stable :
  JSArray.sort (fun a b => inject_Z (fst a - fst b))
    [(2, "a"); (1, "b"); (2, "c"); (1, "d")]
  = [(1, "b"); (1, "d"); (2, "a"); (2, "c")].
Proof. reflexivity. Qed.

Example index_keys_come_first :
  map fst
    (JSObject.entries
       [("b", JSObject.Num 1); ("10", JSObject.Num 2); ("2", JSObject.Num 3);
        ("01", JSObject.Num 4)])
  = ["2"; "10"; "b"; "01"].
Proof. reflexivity. Qed.

(** A category named after an inherited member makes [toFixed] fail. *)
Example inherited_name_throws :
  categoryBreakdown
    [mkSubscription "Odd" 5 "Monthly" None "constructor" false] = None.
Proof. reflexivity. Qed.

(** The scenario of the specification: one annual plan of 12 due on 15
    January 2025, seen on 1 January 2025. *)
Example annual_plan_scenario :
  (totalMonthlyCost [annualPlan] == 1)%Q
  /\ (totalDebt12Months (utc 2025 1 1) [annualPlan] == 12)%Q.
Proof. split; reflexivity. Qed.

(** The scenario of the specification: no subscription at all. *)
Example empty_list_scenario :
  totalMonthlyCost [] = 0%Q
  /\ categoryBreakdown [] = Some []
  /\ List.length (monthlyTrendData 0 (utc 2025 1 10) []) = 12%nat
  /\ Forall (fun e => (Trend.cost e == 0)%Q)
       (monthlyTrendData 0 (utc 2025 1 10) []).
Proof.
  repeat split. repeat constructor.
Qed.

(** The average the hook reports divides the cost of every subscription by
    the number of active ones: with one active plan of 10 and one pending
    plan of 10 it is 20. *)
Example average_divides_by_active_count :
  activeCount (statistics [netflix; gymPending]) = 1%nat
  /\ (averageCost (statistics [netflix; gymPending]) == 20)%Q.
Proof. split; reflexivity. Qed.

Example monthly_plan_twelve_renewals :
  calculateRenewalsInNext12Months (utc 2025 1 1) (nextRenewalDate netflix)
    "Monthly" = 12%nat.
Proof. reflexivity. Qed.

End Checks.

(* ================================================================== *)
(** * The claims *)

(** ** Billing normalizer *)

Module Normalizer.

Import UseAnalytics.
Local Open Scope string_scope.

(** C8.  The monthly-equivalent rate is the cost for a Monthly cycle, a
    third of it for Quarterly, a twelfth for Annually, and the cost again
    for every other cycle value; the function is total, so no cycle makes
    it fail.  In particular 120 a year is 10 a month, 90 a quarter is 30 a
    month and 50 a month is 50 a month. *)
Theorem calculateMonthlyRate_by_cycle (cost : Q) (cycle : string) :
  calculateMonthlyRate cost "Monthly" = cost
  /\ calculateMonthlyRate cost "Quarterly" = (cost / inject_Z 3)%Q
  /\ calculateMonthlyRate cost "Annually" = (cost / inject_Z 12)%Q
  /\ (cycle <> "Monthly" -> cycle <> "Quarterly" -> cycle <> "Annually" ->
      calculateMonthlyRate cost cycle = cost)
  /\ (calculateMonthlyRate 120 "Annually" == 10)%Q
  /\ (calculateMonthlyRate 90 "Quarterly" == 30)%Q
  /\ (calculateMonthlyRate 50 "Monthly" == 50)%Q.
Proof.
  repeat split; try reflexivity.
  intros Hm Hq Ha. unfold calculateMonthlyRate.
  destruct (String.eqb_spec cycle "Monthly"); [contradiction|].
  destruct (String.eqb_spec cycle "Quarterly"); [contradiction|].
  destruct (String.eqb_spec cycle "Annually"); [contradiction|].
  reflexivity.
Qed.

Lemma calculateMonthlyRate_by_cycle_witness :
  calculateMonthlyRate 7 "Weekly" = 7%Q.
Proof.
  apply (proj1 (proj2 (proj2 (proj2
    (calculateMonthlyRate_by_cycle 7 "Weekly"))))); discriminate.
Defined.

End Normalizer.

(** ** Recurrence expander *)

Module Expander.

Import JSDate UseAnalytics Spec DateFacts WalkFacts.
Local Open Scope string_scope.

(** C4.  A cycle is a fixed number of days (30, 90 or 365).  The walk of
    the code starts at the anchor, steps by that period while the running
    date is on or before the end of the window, and stops (every iteration
    budget from [walkFuel] up lets it finish); what it returns is the number
    of visited dates inside the window, and it is zero when the anchor is
    after the end of the window.  The twelve-month walk is the same walk
    over the window from today to 365 days later. *)
Theorem occurrencesInWindow_fixed_period_walk
    (now : Z) (anchor windowStart windowEnd : option Z) (cycle : string) :
  (cycleInDays "Monthly" = 30 /\ cycleInDays "Quarterly" = 90
   /\ cycleInDays "Annually" = 365)
  /\ (forall fuel,
        (walkFuel (newDate anchor) (newDate windowEnd)
           (cycleInDays cycle * msPerDay) <= fuel)%nat ->
        renewalLoop fuel
          (fun d => geb d (newDate windowStart) && leb d (newDate windowEnd))
          (newDate windowEnd) (cycleInDays cycle * msPerDay) (newDate anchor)
          O
        = Some (occurrencesInWindow (newDate anchor) cycle
                  (newDate windowStart) (newDate windowEnd)))
  /\ occurrencesInWindow (newDate anchor) cycle (newDate windowStart)
       (newDate windowEnd)
     = occurrences (newDate anchor) (cycleInDays cycle) (newDate windowStart)
         (newDate windowEnd)
  /\ (gtb (newDate anchor) (newDate windowEnd) = true ->
      occurrencesInWindow (newDate anchor) cycle (newDate windowStart)
        (newDate windowEnd) = O)
  /\ calculateRenewalsInNext12Months now anchor cycle
     = occurrencesInWindow (newDate anchor) cycle (newDate (Some now))
         (newDate (addMs (getTime (newDate (Some now))) (365 * msPerDay))).
Proof.
  split; [repeat split|]. split; [|split; [|split]].
  - intros fuel Hfuel. unfold occurrencesInWindow. rewrite newDate_idem.
    apply renewalLoop_enough_fuel; auto with walk.
  - apply occurrencesInWindow_occurrences.
  - intros Hgt. rewrite occurrencesInWindow_occurrences. unfold occurrences.
    destruct (newDate anchor) as [a|]; [|reflexivity].
    destruct (newDate windowStart) as [s|]; [|reflexivity].
    destruct (newDate windowEnd) as [e|]; [|reflexivity].
    cbn in Hgt. apply Z.ltb_lt in Hgt.
    unfold occurrenceCount.
    rewrite visitedDates_after; auto with walk.
  - apply calculateRenewalsInNext12Months_window.
Qed.

Lemma occurrencesInWindow_fixed_period_walk_witness :
  renewalLoop 5
    (fun d =>
       geb d (newDate (Some 0)) && leb d (newDate (Some (40 * msPerDay))))
    (newDate (Some (40 * msPerDay))) (cycleInDays "Monthly" * msPerDay)
    (newDate (Some 0)) O
  = Some (occurrencesInWindow (newDate (Some 0)) "Monthly" (newDate (Some 0))
            (newDate (Some (40 * msPerDay))))
  /\ occurrencesInWindow (newDate (Some 100)) "Monthly" (newDate (Some 0))
       (newDate (Some 50)) = O.
Proof.
  split.
  - apply (proj1 (proj2
      (occurrencesInWindow_fixed_period_walk 0 (Some 0) (Some 0)
         (Some (40 * msPerDay)) "Monthly"))).
    vm_compute. lia.
  - apply (proj1 (proj2 (proj2 (proj2
      (occurrencesInWindow_fixed_period_walk 0 (Some 100) (Some 0) (Some 50)
         "Monthly"))))).
    reflexivity.
Defined.

(** C7.  Widening the window never loses an occurrence: with the start
    moved earlier (or kept) and the end moved later (or kept), the count is
    at least what it was. *)
Theorem occurrencesInWindow_monotone
    (anchor windowStart windowEnd windowStart' windowEnd' : option Z)
    (cycle : string) :
  leb (newDate windowStart') (newDate windowStart) = true ->
  leb (newDate windowEnd) (newDate windowEnd') = true ->
  (occurrencesInWindow (newDate anchor) cycle (newDate windowStart)
     (newDate windowEnd)
   <= occurrencesInWindow (newDate anchor) cycle (newDate windowStart')
        (newDate windowEnd'))%nat.
Proof.
  intros Hs He. rewrite !occurrencesInWindow_occurrences. unfold occurrences.
  destruct (newDate anchor) as [a|]; [|apply Nat.le_refl].
  destruct (newDate windowStart') as [s'|]; [|discriminate].
  destruct (newDate windowStart) as [s|]; [|discriminate].
  destruct (newDate windowEnd) as [e|]; [|discriminate].
  destruct (newDate windowEnd') as [e'|]; [|discriminate].
  cbn in Hs, He. apply Z.leb_le in Hs, He.
  apply occurrenceCount_mono; auto with walk.
Qed.

Lemma occurrencesInWindow_monotone_witness :
  (occurrencesInWindow (newDate (Some 0%Z)) "Monthly"
     (newDate (Some 0%Z)) (newDate (Some (40 * msPerDay)%Z))
   <= occurrencesInWindow (newDate (Some 0%Z)) "Monthly"
        (newDate (Some (-5)%Z)) (newDate (Some (70 * msPerDay)%Z)))%nat.
Proof.
  apply (occurrencesInWindow_monotone (Some 0) (Some 0) (Some (40 * msPerDay))
           (Some (-5)) (Some (70 * msPerDay)) "Monthly");
    reflexivity.
Defined.

End Expander.

(** ** Aggregator *)

Module Aggregator.

Import JSDate UseAnalytics Spec DateFacts WalkFacts SumFacts TrendFacts Samples.
Local Open Scope string_scope.

Lemma totalMonthlyCost_all_subscriptions subs :
  totalMonthlyCost subs = JSNumber.sum (map monthlyRate subs).
Proof. unfold totalMonthlyCost, JSNumber.sum. apply fold_left_sum. Qed.

(** C1.  The hook adds the rate of every subscription, flagged or not.  On
    the single subscription [gymPending], which awaits cancellation, the
    active set is empty and its rates sum to 0, yet [totalMonthlyCost] is
    10. *)
Theorem totalMonthlyCost_counts_pending :
  (forall subs, totalMonthlyCost subs = JSNumber.sum (map monthlyRate subs))
  /\ active [gymPending] = []
  /\ (JSNumber.sum (map monthlyRate (active [gymPending])) == 0)%Q
  /\ (totalMonthlyCost [gymPending] == 10)%Q
  /\ ~ (totalMonthlyCost [gymPending]
        == JSNumber.sum (map monthlyRate (active [gymPending])))%Q.
Proof.
  split; [exact totalMonthlyCost_all_subscriptions|].
  repeat split; try reflexivity.
  intros H. discriminate H.
Qed.

(** C2.  The hook groups every subscription, flagged or not: on the single
    subscription [gymPending] the breakdown has the slice "Health" with
    value 10, while the breakdown of the active set is empty. *)
Theorem categoryBreakdown_counts_pending :
  categoryBreakdown (active [gymPending]) = Some []
  /\ categoryBreakdown [gymPending]
     = Some [mkCategoryEntry "Health" (JSNumber.toFixed2 (0 + 10))]
  /\ categoryBreakdown [gymPending] <> categoryBreakdown (active [gymPending]).
Proof.
  repeat split. intros H. discriminate H.
Qed.

(** C3.  The twelve-month debt is the sum, over the subscriptions not
    awaiting cancellation, of the raw cost times the number of occurrences
    of the renewal walk between today and 365 days later; the cancellation
    debt is the same sum over the subscriptions awaiting cancellation. *)
Theorem debt_is_occurrences_times_cost (now : Z) (subs : list Subscription) :
  totalDebt12Months now subs = projectedDebt now (active subs)
  /\ cancellationDebt now subs = projectedDebt now (pendingCancellation subs).
Proof.
  assert (Hc : forall s,
    timesCost (calculateRenewalsInNext12Months now (nextRenewalDate s)
                 (billingCycle s)) (cost s)
    = projectedCharges now s).
  { intros s. unfold projectedCharges.
    rewrite calculateRenewalsInNext12Months_window.
    now rewrite occurrencesInWindow_occurrences. }
  unfold totalDebt12Months, cancellationDebt, projectedDebt, JSNumber.sum.
  split.
  - rewrite (fold_left_sum
      (fun s => timesCost (calculateRenewalsInNext12Months now
                             (nextRenewalDate s) (billingCycle s)) (cost s))).
    f_equal. apply map_ext, Hc.
  - rewrite (fold_left_sum
      (fun s => timesCost (calculateRenewalsInNext12Months now
                             (nextRenewalDate s) (billingCycle s)) (cost s))).
    f_equal. apply map_ext, Hc.
Qed.

Lemma monthlyTrendData_entries tza now subs :
  monthlyTrendData tza now subs
  = map (fun i =>
           Trend.mkEntry (monthKeyOf tza (trendMonthDate tza now i))
             (JSNumber.toFixed2
                (JSNumber.sum
                   (map (fun s => monthSubCost tza s (trendMonthDate tza now i))
                      subs))))
      [0; 1; 2; 3; 4; 5; 6; 7; 8; 9; 10; 11].
Proof.
  unfold monthlyTrendData. apply map_ext. intros i.
  unfold trendEntry, JSNumber.sum. now rewrite fold_left_sum.
Qed.

(** C5, as the code has it.  In a trend month in which the walk finds no
    occurrence of a subscription, the subscription adds a pro-rated share:
    its full cost when Monthly; a third of its cost when Quarterly and the
    month is no later than the second calendar month after the anchor's
    month (every month before the anchor's qualifies), else 0; a twelfth of
    its cost when Annually and the month lies in the anchor's calendar
    year, else 0; and 0 for any other cycle.  Each entry of the series is
    a whole number of cents nearest to the sum of what the subscriptions
    add to its month. *)
Theorem trend_fallback_share (tza now : Z) (subs : list Subscription)
    (sub : Subscription) (i : Z) :
  (billingCycle sub = "Quarterly" ->
   ordinaryAnchor tza (newDate (nextRenewalDate sub)) = true) ->
  renewalsInMonth tza sub (trendMonthDate tza now i) = O ->
  monthSubCost tza sub (trendMonthDate tza now i)
  = fallbackShare tza
      (atMostMonthsAfter tza 2 (trendMonthDate tza now i)
         (newDate (nextRenewalDate sub)))
      sub (trendMonthDate tza now i)
  /\ JSNumber.roundsToCents
       (JSNumber.sum
          (map (fun s => monthSubCost tza s (trendMonthDate tza now i))
             subs))
       (Trend.cost (trendEntry tza now subs i)).
Proof.
  intros Hord H0. split.
  - rewrite (monthSubCost_no_occurrence _ _ _ H0). unfold fallbackShare.
    destruct (String.eqb (billingCycle sub) "Monthly"); [reflexivity|].
    destruct (String.eqb_spec (billingCycle sub) "Quarterly") as [Hq|_];
      [|reflexivity].
    now rewrite (quarterly_test_months _ _ _ _ (Hord Hq)).
  - unfold trendEntry. cbn [Trend.cost].
    rewrite (fold_left_sum
               (fun s => monthSubCost tza s (trendMonthDate tza now i))).
    apply RoundingFacts.toFixed2_roundsToCents.
Qed.

Lemma trend_fallback_share_witness :
  monthSubCost 0 quarterlyJan (trendMonthDate 0 (utc 2024 1 10) 1)
  = fallbackShare 0
      (atMostMonthsAfter 0 2 (trendMonthDate 0 (utc 2024 1 10) 1)
         (newDate (nextRenewalDate quarterlyJan)))
      quarterlyJan (trendMonthDate 0 (utc 2024 1 10) 1).
Proof.
  refine (proj1 (trend_fallback_share 0 (utc 2024 1 10) [quarterlyJan]
                   quarterlyJan 1 _ _)).
  - intros _. vm_compute. reflexivity.
  - vm_compute. reflexivity.
Defined.

(** C5 as stated fails: on 10 January 2025 the plan [quarterlyLate], first
    due on 15 December 2025, has no occurrence in January 2025, a month
    eleven months before the anchor, and still adds a third of its cost to
    it. *)
Lemma quarterly_share_long_before_anchor :
  let monthDate := trendMonthDate 0 (utc 2025 1 10) 0 in
  let anchor := newDate (nextRenewalDate quarterlyLate) in
  renewalsInMonth 0 quarterlyLate monthDate = O
  /\ monthNumber 0 anchor = Some (12 * 2025 + 11)
  /\ monthNumber 0 monthDate = Some (12 * 2025 + 0)
  /\ withinThreeMonths 0 monthDate anchor = false
  /\ (monthSubCost 0 quarterlyLate monthDate == 10)%Q
  /\ ~ (monthSubCost 0 quarterlyLate monthDate
        == fallbackShare 0 (withinThreeMonths 0 monthDate anchor)
             quarterlyLate monthDate)%Q.
Proof.
  vm_compute. repeat split; try reflexivity. intros H. discriminate H.
Qed.

(** C10, as the code has it.  For a Quarterly subscription without an
    occurrence in a trend month, the month receives a third of the cost
    exactly when its first day is on or before the last day of the second
    calendar month after the anchor's month, that is, when the month is at
    most two calendar months after the anchor's month; months before the
    anchor's month, however far, all qualify, and later months receive 0. *)
Theorem quarterly_fallback_cutoff (tza now : Z) (sub : Subscription) (i : Z) :
  billingCycle sub = "Quarterly" ->
  ordinaryAnchor tza (newDate (nextRenewalDate sub)) = true ->
  renewalsInMonth tza sub (trendMonthDate tza now i) = O ->
  leb (trendMonthDate tza now i)
      (lastDayOfMonthAfter tza 2 (newDate (nextRenewalDate sub)))
  = atMostMonthsAfter tza 2 (trendMonthDate tza now i)
      (newDate (nextRenewalDate sub))
  /\ monthSubCost tza sub (trendMonthDate tza now i)
     = if leb (trendMonthDate tza now i)
            (lastDayOfMonthAfter tza 2 (newDate (nextRenewalDate sub)))
       then (cost sub / inject_Z 3)%Q
       else 0%Q.
Proof.
  intros Hq Hord H0. split; [now apply quarterly_test_months|].
  rewrite (monthSubCost_no_occurrence _ _ _ H0).
  unfold fallbackShare. rewrite Hq. reflexivity.
Qed.

Lemma quarterly_fallback_cutoff_witness :
  leb (trendMonthDate 0 (utc 2025 1 10) 0)
      (lastDayOfMonthAfter 0 2 (newDate (nextRenewalDate quarterlyLate)))
  = atMostMonthsAfter 0 2 (trendMonthDate 0 (utc 2025 1 10) 0)
      (newDate (nextRenewalDate quarterlyLate))
  /\ monthSubCost 0 quarterlyLate (trendMonthDate 0 (utc 2025 1 10) 0)
     = if leb (trendMonthDate 0 (utc 2025 1 10) 0)
            (lastDayOfMonthAfter 0 2 (newDate (nextRenewalDate quarterlyLate)))
       then (cost quarterlyLate / inject_Z 3)%Q
       else 0%Q.
Proof.
  apply (quarterly_fallback_cutoff 0 (utc 2025 1 10) quarterlyLate 0);
    vm_compute; reflexivity.
Defined.

(** C10 as stated fails: the plan [quarterlyJan], anchored on 1 January
    2024, has no occurrence in April 2024 (the walk visits 31 March and 29
    June); the first of April is before the last day of April, the third
    calendar month after January, and yet April receives 0. *)
Lemma quarterly_third_month_gets_nothing :
  let monthDate := trendMonthDate 0 (utc 2024 1 10) 3 in
  let anchor := newDate (nextRenewalDate quarterlyJan) in
  renewalsInMonth 0 quarterlyJan monthDate = O
  /\ monthDate = Some (utc 2024 4 1)
  /\ lastDayOfMonthAfter 0 3 anchor = Some (utc 2024 4 30)
  /\ leb monthDate (lastDayOfMonthAfter 0 3 anchor) = true
  /\ monthSubCost 0 quarterlyJan monthDate = 0%Q
  /\ ~ (monthSubCost 0 quarterlyJan monthDate
        == cost quarterlyJan / inject_Z 3)%Q.
Proof.
  vm_compute. repeat split; try reflexivity. intros H. discriminate H.
Qed.

Lemma charges_invalid now sub :
  newDate (nextRenewalDate sub) = None ->
  (timesCost
     (calculateRenewalsInNext12Months now (nextRenewalDate sub)
        (billingCycle sub))
     (cost sub)
   == 0)%Q.
Proof.
  intros H. rewrite (calculateRenewalsInNext12Months_invalid _ _ _ H).
  unfold timesCost. cbn [Z.of_nat]. ring.
Qed.

(** C9, as the code has it.  A subscription whose renewal date cannot be
    parsed makes nothing fail (every function of the hook is total).  Its
    walk counts no occurrence, so it leaves both debts as they are; it is
    absent from the upcoming renewals; and the trend finds no occurrence of
    it in any month, so that it adds 0 to each month unless its cycle is
    Monthly, in which case the fallback adds its full cost to each month. *)
Theorem unparseable_date_contribution (tza now : Z) (sub : Subscription)
    (subs : list Subscription) (monthDate : Date) :
  newDate (nextRenewalDate sub) = None ->
  calculateRenewalsInNext12Months now (nextRenewalDate sub) (billingCycle sub)
  = O
  /\ (totalDebt12Months now (sub :: subs) == totalDebt12Months now subs)%Q
  /\ (cancellationDebt now (sub :: subs) == cancellationDebt now subs)%Q
  /\ upcomingRenewals now (sub :: subs) = upcomingRenewals now subs
  /\ ~ In sub (upcomingRenewals now (sub :: subs))
  /\ renewalsInMonth tza sub monthDate = O
  /\ monthSubCost tza sub monthDate
     = if String.eqb (billingCycle sub) "Monthly" then cost sub else 0%Q.
Proof.
  intros H.
  assert (Hup : upcomingRenewals now (sub :: subs) = upcomingRenewals now subs).
  { unfold upcomingRenewals. cbn [filter]. rewrite H.
    unfold geb. rewrite leb_None_r. reflexivity. }
  split; [now apply calculateRenewalsInNext12Months_invalid|].
  split; [|split; [|split; [exact Hup|split; [|split]]]].
  - unfold totalDebt12Months. cbn [filter].
    destruct (isAwaitingCancellation sub); cbn [negb]; [reflexivity|].
    apply (fold_left_skip_zero
             (fun s =>
                timesCost
                  (calculateRenewalsInNext12Months now (nextRenewalDate s)
                     (billingCycle s))
                  (cost s))).
    now apply charges_invalid.
  - unfold cancellationDebt. cbn [filter].
    destruct (isAwaitingCancellation sub); [|reflexivity].
    apply (fold_left_skip_zero
             (fun s =>
                timesCost
                  (calculateRenewalsInNext12Months now (nextRenewalDate s)
                     (billingCycle s))
                  (cost s))).
    now apply charges_invalid.
  - rewrite Hup. unfold upcomingRenewals. rewrite SortFacts.sort_In, filter_In.
    intros [_ Hf]. rewrite H in Hf. unfold geb in Hf.
    rewrite leb_None_r in Hf. discriminate Hf.
  - now apply renewalsInMonth_invalid.
  - rewrite (monthSubCost_no_occurrence _ _ _
               (renewalsInMonth_invalid _ _ _ H)).
    unfold fallbackShare. rewrite H.
    destruct (String.eqb (billingCycle sub) "Monthly"); [reflexivity|].
    change (lastDayOfMonthAfter tza 2 None) with (@None Z). rewrite leb_None_r.
    unfold sameCalendarYear. change (getFullYear tza None) with (@None Z).
    destruct (String.eqb (billingCycle sub) "Quarterly"); [reflexivity|].
    destruct (String.eqb (billingCycle sub) "Annually"); [|reflexivity].
    now destruct (getFullYear tza monthDate).
Qed.

Lemma unparseable_date_contribution_witness :
  monthSubCost 0 brokenDate (trendMonthDate 0 (utc 2025 1 10) 0) = 10%Q.
Proof.
  apply (proj2 (proj2 (proj2 (proj2 (proj2 (proj2
    (unparseable_date_contribution 0 (utc 2025 1 10) brokenDate []
       (trendMonthDate 0 (utc 2025 1 10) 0) eq_refl))))))).
Defined.

(** C9 as stated fails: the monthly plan [brokenDate] has a date that
    cannot be parsed, and every entry of the trend of 10 January 2025 still
    carries its cost of 10. *)
Lemma unparseable_monthly_still_in_trend :
  newDate (nextRenewalDate brokenDate) = None
  /\ map Trend.cost (monthlyTrendData 0 (utc 2025 1 10) [brokenDate])
     = repeat (JSNumber.toFixed2 (0 + 10)) 12
  /\ (JSNumber.toFixed2 (0 + 10) == 10)%Q
  /\ ~ (monthSubCost 0 brokenDate (trendMonthDate 0 (utc 2025 1 10) 0) == 0)%Q.
Proof.
  vm_compute. repeat split; try reflexivity. intros H. discriminate H.
Qed.

End Aggregator.

(** ** Forecaster *)

Module Forecaster.

Import JSDate EnhancedAnalytics Samples.

Lemma sliceLast3_app {A} (earlier : list A) (p0 p1 p2 : A) :
  JSArray.sliceLast3 (earlier ++ [p0; p1; p2]) = [p0; p1; p2].
Proof.
  unfold JSArray.sliceLast3. rewrite length_app. cbn [List.length].
  replace (List.length earlier + 3 - 3)%nat
    with (List.length earlier + 0)%nat by lia.
  rewrite skipn_app, Nat.add_0_r, skipn_all.
  replace (List.length earlier - List.length earlier)%nat with O by lia.
  reflexivity.
Qed.

Lemma averageChange_last3 (p0 p1 p2 : Trend.Entry) :
  (averageChange [p0; p1; p2]
   == ((Trend.cost p2 - Trend.cost p1) + (Trend.cost p1 - Trend.cost p0))
      / inject_Z 2)%Q.
Proof.
  unfold averageChange. cbn [map sumChanges List.length Z.of_nat].
  apply Qdiv_comp; [ring | reflexivity].
Qed.

(** C6, as the code has it.  With fewer than three points every entry is
    returned with its month and cost, its cost again as the actual value,
    and no forecast.  With three points or more, the output is every entry
    with its cost as the actual value and no forecast, followed by exactly
    three points without an actual value whose forecast is a whole number
    of cents nearest to the last cost plus [i] times the average of the
    last two changes, for [i] from 1 to 3. *)
Theorem calculateForecast_shape (tza now : Z) (trend : list Trend.Entry) :
  ((List.length trend < 3)%nat ->
   calculateForecast tza now trend
   = map (fun item =>
            mkChartEntry (Trend.month item) (Some (Trend.cost item))
              (Some (Trend.cost item)) None)
       trend)
  /\ (forall earlier p0 p1 p2,
        trend = earlier ++ [p0; p1; p2] ->
        let avgDelta := averageChange [p0; p1; p2] in
        let label := fun i =>
          shortMonthKey tza
            (setMonth tza (newDate (Some now))
               (addMs (getMonth tza (newDate (Some now))) i)) in
        (avgDelta
         == ((Trend.cost p2 - Trend.cost p1) + (Trend.cost p1 - Trend.cost p0))
            / inject_Z 2)%Q
        /\ exists v1 v2 v3,
             calculateForecast tza now trend
             = map (fun item =>
                      mkChartEntry (Trend.month item) None
                        (Some (Trend.cost item)) None)
                 trend
               ++ [ mkChartEntry (label 1) None None (Some v1);
                    mkChartEntry (label 2) None None (Some v2);
                    mkChartEntry (label 3) None None (Some v3) ]
             /\ JSNumber.roundsToCents
                  (Trend.cost p2 + avgDelta * inject_Z 1) v1
             /\ JSNumber.roundsToCents
                  (Trend.cost p2 + avgDelta * inject_Z 2) v2
             /\ JSNumber.roundsToCents
                  (Trend.cost p2 + avgDelta * inject_Z 3) v3).
Proof.
  split.
  - intros Hlt. unfold calculateForecast.
    apply Nat.ltb_lt in Hlt. now rewrite Hlt.
  - intros earlier p0 p1 p2 -> avgDelta label.
    split; [apply averageChange_last3|].
    exists (JSNumber.toFixed2 (Trend.cost p2 + avgDelta * inject_Z 1)),
           (JSNumber.toFixed2 (Trend.cost p2 + avgDelta * inject_Z 2)),
           (JSNumber.toFixed2 (Trend.cost p2 + avgDelta * inject_Z 3)).
    split; [|repeat split; apply RoundingFacts.toFixed2_roundsToCents].
    unfold calculateForecast.
    assert (Hlen : (List.length (earlier ++ [p0; p1; p2]) <? 3)%nat = false).
    { apply Nat.ltb_ge. rewrite length_app. cbn. lia. }
    rewrite Hlen, sliceLast3_app.
    assert (Hlast :
      last (earlier ++ [p0; p1; p2]) (Trend.mkEntry None 0%Q) = p2).
    { change (earlier ++ [p0; p1; p2]) with (earlier ++ [p0; p1] ++ [p2]).
      rewrite app_assoc. apply last_last. }
    rewrite Hlast.
    reflexivity.
Qed.

Lemma calculateForecast_shape_witness :
  calculateForecast 0 (utc 2025 1 10) (firstn 2 risingTrend)
  = map (fun item =>
           mkChartEntry (Trend.month item) (Some (Trend.cost item))
             (Some (Trend.cost item)) None)
      (firstn 2 risingTrend)
  /\ (averageChange risingTrend == ((40 - 20) + (20 - 10)) / inject_Z 2)%Q.
Proof.
  split.
  - apply (proj1 (calculateForecast_shape 0 (utc 2025 1 10)
                    (firstn 2 risingTrend))).
    cbn. lia.
  - apply (proj1 (proj2 (calculateForecast_shape 0 (utc 2025 1 10) risingTrend)
                    [] _ _ _ eq_refl)).
Defined.

(** C6 as stated fails: the series [flatThenQuarter] ends with the costs 0,
    0 and 0.25, so the average change is 0.125 and the first projected
    value would be 0.375; the first appended point carries 0.38.  Every
    number on the way is exact in binary, and [toFixed] takes the larger
    neighbour of an exact tie. *)
Lemma forecast_value_is_rounded :
  (averageChange flatThenQuarter == 1 # 8)%Q
  /\ exists v,
       option_map forecastSpending
         (nth_error (calculateForecast 0 (utc 2025 1 10) flatThenQuarter) 3)
       = Some (Some v)
       /\ (v == 38 # 100)%Q
       /\ ~ (v == (1 # 4) + averageChange flatThenQuarter * inject_Z 1)%Q.
Proof.
  split; [reflexivity|].
  eexists. split; [vm_compute; reflexivity|].
  split; [reflexivity|]. intros H. vm_compute in H. discriminate H.
Qed.

End Forecaster.

(* ================================================================== *)
(** * Further properties of the code *)

(** ** More facts about lists, sums and sorting *)

Module ListFacts.

Import SortFacts SumFacts.

Lemma filter_lengths {A} (f : A -> bool) (l : list A) :
  (List.length (filter f l) + List.length (filter (fun x => negb (f x)) l)
   = List.length l)%nat.
Proof.
  induction l as [|x l IH]; [reflexivity|]. cbn.
  destruct (f x); cbn; lia.
Qed.

Lemma sum_from (l : list Q) (acc : Q) :
  (fold_left Qplus l acc == acc + JSNumber.sum l)%Q.
Proof.
  unfold JSNumber.sum. revert acc.
  induction l as [|x l IH]; intros acc; cbn; [ring|].
  rewrite (IH (acc + x)%Q), (IH (0 + x)%Q). ring.
Qed.

Lemma sum_cons (x : Q) (l : list Q) :
  (JSNumber.sum (x :: l) == x + JSNumber.sum l)%Q.
Proof.
  unfold JSNumber.sum at 1. cbn. rewrite sum_from. ring.
Qed.

(** A sum splits along any test. *)
Lemma sum_filter_split {A} (f : A -> Q) (p : A -> bool) (l : list A) :
  (JSNumber.sum (map f l)
   == JSNumber.sum (map f (filter p l))
      + JSNumber.sum (map f (filter (fun x => negb (p x)) l)))%Q.
Proof.
  induction l as [|x l IH]; [reflexivity|]. cbn [map filter].
  rewrite sum_cons, IH.
  destruct (p x); cbn [negb map]; rewrite sum_cons; ring.
Qed.

Lemma sorted_weaken {A} (R R' : A -> A -> Prop) (l : list A) :
  (forall x y, R x y -> R' x y) -> StronglySorted R l -> StronglySorted R' l.
Proof.
  intros Himp. induction 1 as [|x l _ IH Hall]; constructor; [exact IH|].
  eapply Forall_impl; [|exact Hall]. intros y. apply Himp.
Qed.

Lemma sorted_app_cross {A} (R : A -> A -> Prop) (l1 l2 : list A) :
  StronglySorted R (l1 ++ l2) ->
  forall x y, In x l1 -> In y l2 -> R x y.
Proof.
  induction l1 as [|a l1 IH]; cbn; intros Hs x y Hx Hy; [contradiction|].
  inversion Hs as [|? ? Hs' Hall]; subst.
  destruct Hx as [<-|Hx].
  - rewrite Forall_forall in Hall. apply Hall, in_or_app. now right.
  - now apply (IH Hs').
Qed.

Lemma sorted_app_left {A} (R : A -> A -> Prop) (l1 l2 : list A) :
  StronglySorted R (l1 ++ l2) -> StronglySorted R l1.
Proof.
  induction l1 as [|a l1 IH]; cbn; intros Hs; [constructor|].
  inversion Hs as [|? ? Hs' Hall]; subst.
  constructor; [now apply IH|].
  apply Forall_app in Hall. tauto.
Qed.

Section SortingOn.
Context {A : Type}.
Variable compareFn : A -> A -> Q.
Variable good : A -> Prop.
Hypothesis total_on :
  forall x y, good x -> good y ->
    JSArray.before compareFn x y \/ JSArray.before compareFn y x.
Hypothesis trans_on :
  forall x y z, good x -> good y -> good z ->
    JSArray.before compareFn x y -> JSArray.before compareFn y z ->
    JSArray.before compareFn x z.

Lemma insertSorted_sorted_on x l :
  good x -> Forall good l ->
  StronglySorted (JSArray.before compareFn) l ->
  StronglySorted (JSArray.before compareFn) (JSArray.insertSorted compareFn x l).
Proof.
  intros Hx Hg Hs. induction Hs as [|y l Hs IH Hall]; cbn.
  - repeat constructor.
  - inversion Hg as [|? ? Hy Hl]; subst.
    destruct (Qle_bool (compareFn x y) 0) eqn:E.
    + apply Qle_bool_iff in E. constructor; [now constructor|].
      constructor; [exact E|].
      rewrite Forall_forall in *. intros z Hz.
      apply (trans_on x y z); auto.
    + constructor; [now apply IH|].
      assert (Hyx : JSArray.before compareFn y x).
      { destruct (total_on x y Hx Hy) as [H|H]; [|exact H].
        apply Qle_bool_iff in H. unfold JSArray.before in H. congruence. }
      eapply Permutation_Forall; [symmetry; apply insertSorted_perm|].
      now constructor.
Qed.

(** Sorting a list of well-behaved elements yields a sorted list. *)
Lemma sort_sorted_on l :
  Forall good l ->
  StronglySorted (JSArray.before compareFn) (JSArray.sort compareFn l).
Proof.
  induction l as [|x l IH]; cbn; intros Hg; [constructor|].
  inversion Hg as [|? ? Hx Hl]; subst.
  apply insertSorted_sorted_on; auto.
  eapply Permutation_Forall; [symmetry; apply sort_perm | exact Hl].
Qed.
End SortingOn.

End ListFacts.

(** ** More facts about the renewal walk *)

Module CountFacts.

Import JSDate UseAnalytics Spec DateFacts WalkFacts Notions.

Lemma occurrenceCount_after a p s e :
  0 < p -> e < a -> occurrenceCount a p s e = O.
Proof.
  intros Hp H. unfold occurrenceCount. now rewrite visitedDates_after.
Qed.

Lemma occurrenceCount_next a p s e :
  0 < p -> a <= e ->
  occurrenceCount a p s e
  = ((if (s <=? a)%Z then 1 else 0) + occurrenceCount (a + p)%Z p s e)%nat.
Proof.
  intros Hp Hle. unfold occurrenceCount.
  rewrite (visitedDates_next a p e Hp Hle). cbn [filter]. unfold inWindow at 1.
  replace (a <=? e) with true by (symmetry; now apply Z.leb_le).
  rewrite andb_true_r. now destruct (s <=? a).
Qed.

(** From an anchor inside the window every visited date counts. *)
Lemma occurrenceCount_inside a p s e :
  0 < p -> s <= a -> occurrenceCount a p s e = Z.to_nat ((e - a) / p + 1).
Proof.
  intros Hp Hs. unfold occurrenceCount.
  rewrite (filter_ext_in _ (fun _ => true)).
  - rewrite filter_true. unfold visitedDates.
    now rewrite length_map, length_seq.
  - intros t Ht. apply (visitedDates_bound a p e t Hp) in Ht.
    unfold inWindow. apply andb_true_iff. split; apply Z.leb_le; lia.
Qed.

(** An anchor before the window adds nothing itself. *)
Lemma occurrenceCount_before a p s e :
  0 < p -> a < s -> occurrenceCount a p s e = occurrenceCount (a + p) p s e.
Proof.
  intros Hp Hlt. destruct (Z_le_gt_dec a e) as [Hle|Hgt].
  - rewrite (occurrenceCount_next a p s e Hp Hle).
    now replace (s <=? a) with false by (symmetry; apply Z.leb_gt; lia).
  - rewrite !occurrenceCount_after by lia. reflexivity.
Qed.

(** However old the anchor, a window holds at most one occurrence more
    than the number of whole periods that fit into it. *)
Lemma occurrenceCount_bound a p s e :
  0 < p -> s <= e ->
  (occurrenceCount a p s e <= Z.to_nat ((e - s) / p) + 1)%nat.
Proof.
  intros Hp Hse.
  remember (Z.to_nat ((e - a) / p + 1)) as n eqn:Hn.
  revert a Hn. induction n as [|n IH]; intros a Hn.
  - unfold occurrenceCount, visitedDates. rewrite <- Hn. cbn. lia.
  - destruct (Z_le_gt_dec a e) as [Hle|Hgt].
    2:{ rewrite occurrenceCount_after by lia. lia. }
    destruct (Z_lt_le_dec a s) as [Hlt|Hge].
    + rewrite occurrenceCount_before by lia. apply IH.
      rewrite (steps_next a p e Hp Hle) in Hn. lia.
    + rewrite occurrenceCount_inside by lia.
      assert ((e - a) / p <= (e - s) / p) by (apply Z.div_le_mono; lia).
      assert (0 <= (e - a) / p) by (apply Z.div_pos; lia).
      lia.
Qed.

Lemma calculateRenewals_occurrences now d cycle :
  calculateRenewalsInNext12Months now d cycle
  = occurrences (newDate d) (cycleInDays cycle) (today now) (in365Days now).
Proof.
  rewrite calculateRenewalsInNext12Months_window.
  apply occurrencesInWindow_occurrences.
Qed.

Lemma today_valid now : Z.abs now <= maxTime -> today now = Some now.
Proof. intros H. unfold today. cbn. now apply timeClip_valid. Qed.

Lemma in365Days_valid now :
  Z.abs now <= maxTime -> now + 365 * msPerDay <= maxTime ->
  in365Days now = Some (now + 365 * msPerDay).
Proof.
  intros Hn He. unfold in365Days. rewrite (today_valid _ Hn). cbn.
  apply timeClip_valid. unfold msPerDay in *. lia.
Qed.

Lemma in365Days_Some now e :
  in365Days now = Some e ->
  today now = Some now /\ e = now + 365 * msPerDay /\ Z.abs e <= maxTime.
Proof.
  unfold in365Days. destruct (today now) as [t|] eqn:Et; [|discriminate].
  unfold today in Et. apply newDate_Some in Et as [[= ->] _].
  cbn. intros H. apply timeClip_Some in H as [-> H]. auto.
Qed.

Lemma whole_periods_in_a_year cycle :
  365 * msPerDay / (cycleInDays cycle * msPerDay) = 365 / cycleInDays cycle.
Proof.
  assert (0 < cycleInDays cycle).
  { unfold cycleInDays.
    destruct (String.eqb cycle "Monthly"); [lia|].
    destruct (String.eqb cycle "Quarterly"); lia. }
  apply Z.div_mul_cancel_r; [lia | discriminate].
Qed.

End CountFacts.

(** ** Further properties of the hook *)

Module HookProperties.

Import JSDate UseAnalytics Spec DateFacts WalkFacts SortFacts SumFacts.
Import Notions ListFacts CountFacts Samples.
Local Open Scope string_scope.

(** X1.  The counters of the hook partition the list: every subscription is
    counted once, as active or as awaiting cancellation. *)
Theorem statistics_counts_add_up (subs : list Subscription) :
  (activeCount (statistics subs) + cancellationCount (statistics subs)
   = totalCount (statistics subs))%nat
  /\ activeCount (statistics subs) = List.length (active subs)
  /\ cancellationCount (statistics subs)
     = List.length (pendingCancellation subs).
Proof.
  unfold statistics, active, pendingCancellation. cbn. repeat split.
  rewrite Nat.add_comm.
  rewrite <- (filter_lengths (fun s => isAwaitingCancellation s) subs).
  reflexivity.
Qed.

Lemma debt_as_projectedDebt now (l : list Subscription) :
  fold_left
    (fun total sub =>
       (total
        + timesCost
            (calculateRenewalsInNext12Months now (nextRenewalDate sub)
               (billingCycle sub))
            (cost sub))%Q)
    l 0%Q
  = projectedDebt now l.
Proof.
  unfold projectedDebt, JSNumber.sum.
  rewrite (fold_left_sum
    (fun s =>
       timesCost
         (calculateRenewalsInNext12Months now (nextRenewalDate s)
            (billingCycle s))
         (cost s))).
  f_equal. apply map_ext. intros s. unfold projectedCharges.
  now rewrite calculateRenewals_occurrences.
Qed.

(** X2.  The two debts together account for every subscription exactly
    once: their sum is the projected charge of the whole list. *)
Theorem debts_cover_every_subscription (now : Z) (subs : list Subscription) :
  (totalDebt12Months now subs + cancellationDebt now subs
   == projectedDebt now subs)%Q.
Proof.
  unfold totalDebt12Months, cancellationDebt. rewrite !debt_as_projectedDebt.
  unfold projectedDebt.
  rewrite (sum_filter_split (projectedCharges now)
             (fun s => isAwaitingCancellation s) subs).
  ring.
Qed.

(** X3.  Whatever the renewal date, the twelve-month walk counts at most
    one renewal more than the number of whole cycles in 365 days: at most
    13 for a Monthly plan, 5 for a Quarterly one and 2 for any other. *)
Theorem renewals_in_a_year_bounded (now : Z) (d : option Z) (cycle : string) :
  (calculateRenewalsInNext12Months now d cycle
   <= Z.to_nat (365 / cycleInDays cycle) + 1)%nat
  /\ (calculateRenewalsInNext12Months now d "Monthly" <= 13)%nat
  /\ (calculateRenewalsInNext12Months now d "Quarterly" <= 5)%nat
  /\ (calculateRenewalsInNext12Months now d "Annually" <= 2)%nat.
Proof.
  assert (H : forall c,
    (calculateRenewalsInNext12Months now d c
     <= Z.to_nat (365 / cycleInDays c) + 1)%nat).
  { intros c. rewrite calculateRenewals_occurrences. unfold occurrences.
    destruct (newDate d) as [a|]; [|lia].
    destruct (today now) as [s|] eqn:Es; [|lia].
    destruct (in365Days now) as [e|] eqn:Ee; [|lia].
    apply in365Days_Some in Ee as (Ht & -> & _).
    rewrite Ht in Es. injection Es as <-.
    etransitivity; [apply occurrenceCount_bound|].
    - apply cycle_step_pos.
    - unfold msPerDay. lia.
    - replace (now + 365 * msPerDay - now) with (365 * msPerDay) by ring.
      now rewrite whole_periods_in_a_year. }
  split; [apply H|]. split; [|split].
  - apply (H "Monthly").
  - apply (H "Quarterly").
  - apply (H "Annually").
Qed.

(** X4.  A renewal date inside the twelve-month window is counted together
    with every later multiple of the cycle up to the end of the window, so
    at least once. *)
Theorem renewals_from_date_in_window (now a : Z) (cycle : string) :
  Z.abs now <= maxTime -> now + 365 * msPerDay <= maxTime ->
  now <= a <= now + 365 * msPerDay ->
  calculateRenewalsInNext12Months now (Some a) cycle
  = Z.to_nat ((now + 365 * msPerDay - a) / periodMs cycle + 1)
  /\ (1 <= calculateRenewalsInNext12Months now (Some a) cycle)%nat.
Proof.
  intros Hn He Ha.
  assert (Hv : newDate (Some a) = Some a).
  { cbn. apply timeClip_valid. unfold msPerDay in *. lia. }
  assert (Hc : calculateRenewalsInNext12Months now (Some a) cycle
               = Z.to_nat ((now + 365 * msPerDay - a) / periodMs cycle + 1)).
  { rewrite calculateRenewals_occurrences. unfold occurrences.
    rewrite Hv, (today_valid _ Hn), (in365Days_valid _ Hn He).
    apply occurrenceCount_inside; [apply cycle_step_pos | lia]. }
  split; [exact Hc|]. rewrite Hc.
  assert (0 <= (now + 365 * msPerDay - a) / periodMs cycle).
  { apply Z.div_pos; [lia | apply cycle_step_pos]. }
  lia.
Qed.

Lemma renewals_from_date_in_window_witness :
  calculateRenewalsInNext12Months (utc 2025 1 1) (Some (utc 2025 1 15))
    "Monthly"
  = Z.to_nat
      ((utc 2025 1 1 + 365 * msPerDay - utc 2025 1 15) / periodMs "Monthly"
       + 1)
  /\ (1 <= calculateRenewalsInNext12Months (utc 2025 1 1)
            (Some (utc 2025 1 15)) "Monthly")%nat.
Proof.
  apply (renewals_from_date_in_window (utc 2025 1 1) (utc 2025 1 15)
           "Monthly"); vm_compute; try split; discriminate.
Defined.

(** X5.  A renewal date in the past is rolled forward: the walk counts the
    same as from the date one cycle later. *)
Theorem past_renewal_rolls_forward (now a : Z) (cycle : string) :
  - maxTime <= a -> a < now ->
  calculateRenewalsInNext12Months now (Some a) cycle
  = calculateRenewalsInNext12Months now (Some (a + periodMs cycle)) cycle.
Proof.
  intros Ha Hlt. rewrite !calculateRenewals_occurrences. unfold occurrences.
  destruct (today now) as [s|] eqn:Es.
  2:{ now destruct (newDate (Some a)), (newDate (Some (a + periodMs cycle))). }
  destruct (in365Days now) as [e|] eqn:Ee.
  2:{ now destruct (newDate (Some a)), (newDate (Some (a + periodMs cycle))). }
  apply in365Days_Some in Ee as (Ht & -> & He).
  rewrite Ht in Es. injection Es as <-.
  unfold today in Ht. apply newDate_Some in Ht as [_ Hn].
  pose proof (cycle_step_pos cycle) as Hp. fold (periodMs cycle) in Hp.
  assert (Hper : periodMs cycle <= 365 * msPerDay).
  { unfold periodMs, cycleInDays, msPerDay.
    destruct (String.eqb cycle "Monthly"); [lia|].
    destruct (String.eqb cycle "Quarterly"); lia. }
  assert (Hv : newDate (Some a) = Some a).
  { cbn. apply timeClip_valid. lia. }
  assert (Hv' : newDate (Some (a + periodMs cycle)) = Some (a + periodMs cycle)).
  { cbn. apply timeClip_valid. lia. }
  rewrite Hv, Hv'. apply occurrenceCount_before; [exact Hp | lia].
Qed.

Lemma past_renewal_rolls_forward_witness :
  calculateRenewalsInNext12Months (utc 2025 1 1) (Some (utc 2024 12 20))
    "Monthly"
  = calculateRenewalsInNext12Months (utc 2025 1 1)
      (Some (utc 2024 12 20 + periodMs "Monthly")) "Monthly".
Proof.
  apply (past_renewal_rolls_forward (utc 2025 1 1) (utc 2024 12 20) "Monthly");
    vm_compute; [discriminate | reflexivity].
Defined.

End HookProperties.

(** ** The two listings of the hook *)

Module ListingProperties.

Import JSDate UseAnalytics Spec DateFacts WalkFacts SortFacts SumFacts.
Import Notions ListFacts CountFacts Samples.
Local Open Scope string_scope.

Lemma rate_order_total (a b : Subscription) :
  JSArray.before
    (fun a b =>
       (calculateMonthlyRate (cost b) (billingCycle b)
        - calculateMonthlyRate (cost a) (billingCycle a))%Q) a b
  \/ JSArray.before
       (fun a b =>
          (calculateMonthlyRate (cost b) (billingCycle b)
           - calculateMonthlyRate (cost a) (billingCycle a))%Q) b a.
Proof.
  unfold JSArray.before.
  destruct (Qlt_le_dec (calculateMonthlyRate (cost a) (billingCycle a))
              (calculateMonthlyRate (cost b) (billingCycle b))) as [H|H].
  - right. apply Qlt_le_weak in H. lra.
  - left. lra.
Qed.

Lemma rate_order_trans (a b c : Subscription) :
  JSArray.before
    (fun a b =>
       (calculateMonthlyRate (cost b) (billingCycle b)
        - calculateMonthlyRate (cost a) (billingCycle a))%Q) a b ->
  JSArray.before
    (fun a b =>
       (calculateMonthlyRate (cost b) (billingCycle b)
        - calculateMonthlyRate (cost a) (billingCycle a))%Q) b c ->
  JSArray.before
    (fun a b =>
       (calculateMonthlyRate (cost b) (billingCycle b)
        - calculateMonthlyRate (cost a) (billingCycle a))%Q) a c.
Proof. unfold JSArray.before. intros. lra. Qed.

(** X6.  The top list holds up to five active subscriptions in descending
    order of monthly rate, and none of the active subscriptions left out
    costs more per month than one that is listed. *)
Theorem topExpensiveSubscriptions_are_the_dearest (subs : list Subscription) :
  exists rest,
    Permutation (topExpensiveSubscriptions subs ++ rest) (active subs)
    /\ List.length (topExpensiveSubscriptions subs)
       = Nat.min 5 (List.length (active subs))
    /\ StronglySorted costsAtLeast (topExpensiveSubscriptions subs)
    /\ (forall x y,
          In x (topExpensiveSubscriptions subs) -> In y rest ->
          costsAtLeast x y).
Proof.
  unfold topExpensiveSubscriptions. fold (active subs).
  set (cmp := fun a b : Subscription =>
                (calculateMonthlyRate (cost b) (billingCycle b)
                 - calculateMonthlyRate (cost a) (billingCycle a))%Q).
  set (sorted := JSArray.sort cmp (active subs)).
  assert (Hs : StronglySorted costsAtLeast sorted).
  { apply (sorted_weaken (JSArray.before cmp)).
    - unfold JSArray.before, costsAtLeast, monthlyRate, cmp. intros. lra.
    - apply sort_sorted; [apply rate_order_total | apply rate_order_trans]. }
  exists (skipn 5 sorted). rewrite <- (firstn_skipn 5 sorted) in Hs.
  split; [|split; [|split]].
  - rewrite firstn_skipn. apply sort_perm.
  - rewrite length_firstn. unfold sorted. now rewrite sort_length.
  - now apply sorted_app_left in Hs.
  - now apply sorted_app_cross.
Qed.

Lemma date_order_total (a b : Subscription) :
  (exists t, renewalDate a = Some t) -> (exists t, renewalDate b = Some t) ->
  JSArray.before
    (fun a b =>
       inject_Z (diff (newDate (nextRenewalDate a))
                      (newDate (nextRenewalDate b)))) a b
  \/ JSArray.before
       (fun a b =>
          inject_Z (diff (newDate (nextRenewalDate a))
                         (newDate (nextRenewalDate b)))) b a.
Proof.
  unfold JSArray.before, renewalDate. intros [ta ->] [tb ->]. cbn.
  rewrite <- !(Zle_Qle _ 0). lia.
Qed.

Lemma date_order_trans (a b c : Subscription) :
  (exists t, renewalDate a = Some t) -> (exists t, renewalDate b = Some t) ->
  (exists t, renewalDate c = Some t) ->
  JSArray.before
    (fun a b =>
       inject_Z (diff (newDate (nextRenewalDate a))
                      (newDate (nextRenewalDate b)))) a b ->
  JSArray.before
    (fun a b =>
       inject_Z (diff (newDate (nextRenewalDate a))
                      (newDate (nextRenewalDate b)))) b c ->
  JSArray.before
    (fun a b =>
       inject_Z (diff (newDate (nextRenewalDate a))
                      (newDate (nextRenewalDate b)))) a c.
Proof.
  unfold JSArray.before, renewalDate. intros [ta ->] [tb ->] [tc ->]. cbn.
  rewrite <- !(Zle_Qle _ 0). lia.
Qed.

Lemma dueSoon_valid now s :
  dueSoon now s = true -> exists t, renewalDate s = Some t.
Proof.
  unfold dueSoon. intros H.
  apply andb_true_iff in H as [H _]. apply andb_true_iff in H as [_ H].
  destruct (renewalDate s) as [t|]; [now exists t | discriminate].
Qed.

(** X7.  The upcoming renewals are exactly the active subscriptions due
    between now and 30 days from now, each listed as often as it occurs,
    in ascending order of renewal date. *)
Theorem upcomingRenewals_sorted_window (now : Z) (subs : list Subscription) :
  Permutation (upcomingRenewals now subs) (filter (dueSoon now) subs)
  /\ (forall s,
        In s (upcomingRenewals now subs)
        <-> In s subs /\ dueSoon now s = true)
  /\ StronglySorted dueNoLater (upcomingRenewals now subs).
Proof.
  assert (Hdef : upcomingRenewals now subs
                 = JSArray.sort
                     (fun a b =>
                        inject_Z (diff (newDate (nextRenewalDate a))
                                       (newDate (nextRenewalDate b))))
                     (filter (dueSoon now) subs)) by reflexivity.
  rewrite Hdef. split; [apply sort_perm|]. split.
  - intros s. rewrite sort_In, filter_In. reflexivity.
  - set (l := filter (dueSoon now) subs).
    assert (Hg : Forall (fun s => exists t, renewalDate s = Some t) l).
    { apply Forall_forall. intros s Hs. apply filter_In in Hs as [_ Hs].
      now apply (dueSoon_valid now). }
    pose proof (sort_sorted_on _ _ date_order_total date_order_trans l Hg)
      as Hsorted.
    assert (Hg' : Forall (fun s => exists t, renewalDate s = Some t)
                    (JSArray.sort
                       (fun a b =>
                          inject_Z (diff (newDate (nextRenewalDate a))
                                         (newDate (nextRenewalDate b)))) l)).
    { eapply Permutation_Forall; [symmetry; apply sort_perm | exact Hg]. }
    revert Hg'. induction Hsorted as [|x r _ IH Hall]; intros Hg';
      constructor.
    + apply IH. now inversion Hg'.
    + inversion Hg' as [|? ? [tx Hx] Hr]; subst.
      rewrite Forall_forall in *. intros y Hy.
      destruct (Hr y Hy) as [ty Hty]. specialize (Hall y Hy).
      unfold JSArray.before, dueNoLater in *. unfold renewalDate in *.
      rewrite Hx, Hty in *. cbn in *.
      rewrite <- (Zle_Qle _ 0) in Hall. apply Z.leb_le. lia.
Qed.

End ListingProperties.

(** ** The labels of the trend months *)

Module TrendLabels.

Import JSDate UseAnalytics Spec DateFacts WalkFacts TrendFacts.
Import Notions ListFacts CountFacts Samples.

Lemma month_start_year_month tza n :
  getFullYear tza (Some (monthStartDay n * msPerDay - tza)) = Some (n / 12)
  /\ getMonth tza (Some (monthStartDay n * msPerDay - tza)) = Some (n mod 12).
Proof.
  unfold getFullYear, getMonth. rewrite localDay_of_midnight.
  unfold monthStartDay.
  assert (Hm : 0 <= n mod 12 < 12) by (apply Z.mod_pos_bound; lia).
  rewrite civilFromDays_daysFromCivil by lia.
  split; [reflexivity | f_equal; lia].
Qed.

(** The date of trend month [i], for a current date in year [y] (not one
    of 0..99) and month [m]. *)
Lemma trendMonthDate_plain tza now i y m :
  getFullYear tza (today now) = Some y ->
  getMonth tza (today now) = Some m ->
  (0 <=? y) && (y <=? 99) = false ->
  trendMonthDate tza now i
  = timeClip (monthStartDay (12 * y + (m + i)) * msPerDay - tza).
Proof.
  intros Hy Hm Hq. unfold trendMonthDate. fold (today now).
  rewrite Hy, Hm. cbn [addMs]. rewrite (makeDate_plain_year _ _ _ _ Hq).
  do 2 f_equal. ring.
Qed.

(** X8.  The trend has twelve entries, and entry [i] is labelled with the
    calendar month [i] months after the current one, the year moving on
    after December. *)
Theorem trend_months_are_consecutive (tza now : Z)
    (subs : list Subscription) (y m : Z) (k : nat) :
  getFullYear tza (today now) = Some y ->
  getMonth tza (today now) = Some m ->
  (0 <=? y) && (y <=? 99) = false ->
  (k < 12)%nat ->
  trendMonthDate tza now (Z.of_nat k) <> None ->
  List.length (monthlyTrendData tza now subs) = 12%nat
  /\ exists e,
       nth_error (monthlyTrendData tza now subs) k = Some e
       /\ Trend.month e
          = Some ((m + Z.of_nat k) mod 12, y + (m + Z.of_nat k) / 12).
Proof.
  intros Hy Hm Hq Hk Hvalid. split; [reflexivity|].
  exists (trendEntry tza now subs (Z.of_nat k)). split.
  - unfold monthlyTrendData.
    do 12 (destruct k as [|k]; [reflexivity|]). lia.
  - unfold trendEntry. cbn [Trend.month]. unfold monthKeyOf.
    rewrite (trendMonthDate_plain _ _ _ _ _ Hy Hm Hq) in Hvalid |- *.
    destruct (timeClip _) as [t|] eqn:Et; [|contradiction].
    apply timeClip_Some in Et as [-> _].
    destruct (month_start_year_month tza (12 * y + (m + Z.of_nat k)))
      as [-> ->].
    f_equal. f_equal.
    + replace (12 * y + (m + Z.of_nat k)) with (m + Z.of_nat k + y * 12)
        by ring.
      now rewrite Z.mod_add by lia.
    + replace (12 * y + (m + Z.of_nat k)) with (m + Z.of_nat k + y * 12)
        by ring.
      rewrite Z.div_add by lia. ring.
Qed.

Lemma trend_months_are_consecutive_witness :
  List.length (monthlyTrendData 0 (utc 2025 11 10) [netflix]) = 12%nat
  /\ exists e,
       nth_error (monthlyTrendData 0 (utc 2025 11 10) [netflix]) 3 = Some e
       /\ Trend.month e = Some ((10 + 3) mod 12, 2025 + (10 + 3) / 12).
Proof.
  apply (trend_months_are_consecutive 0 (utc 2025 11 10) [netflix] 2025 10 3);
    try reflexivity.
  - vm_compute. lia.
  - vm_compute. discriminate.
Defined.

End TrendLabels.

(** ** More facts about the category accumulator *)

Module BreakdownFacts.

Import JSObject UseAnalytics Spec SortFacts SumFacts CategoryFacts.
Import Notions ListFacts.
Local Open Scope string_scope.

Lemma getOwn_set_other o k v k0 :
  k0 <> k -> getOwn (set o k v) k0 = getOwn o k0.
Proof.
  intros H. unfold set.
  destruct (String.eqb k "__proto__"); [reflexivity|].
  now apply getOwn_setOwn_other.
Qed.

(** What a turn of the [forEach] writes, and where. *)
Lemma addToCategory_cases o s :
  addToCategory o s = o
  \/ exists v, addToCategory o s = setOwn o (categoryOf s) v.
Proof.
  unfold addToCategory, set.
  destruct (get o (categoryOf s)) as [|[v|]|];
    try destruct (JSNumber.truthy v);
    destruct (String.eqb (categoryOf s) "__proto__"); eauto.
Qed.

Lemma addToCategory_other o s k :
  k <> categoryOf s -> getOwn (addToCategory o s) k = getOwn o k.
Proof.
  intros H. destruct (addToCategory_cases o s) as [->|[v ->]]; [reflexivity|].
  now apply getOwn_setOwn_other.
Qed.

(** The accumulator never gets an own property named [__proto__]. *)
Lemma addToCategory_no_proto o s :
  getOwn o "__proto__" = None -> getOwn (addToCategory o s) "__proto__" = None.
Proof.
  intros H. destruct (String.eqb_spec (categoryOf s) "__proto__") as [E|E].
  - unfold addToCategory, get, set. rewrite E, H. cbn. exact H.
  - rewrite addToCategory_other by congruence. exact H.
Qed.

Lemma addToCategory_proto o s :
  getOwn o "__proto__" = None -> filedUnderProto s = true ->
  addToCategory o s = o.
Proof.
  unfold filedUnderProto. intros H E. apply String.eqb_eq in E.
  unfold addToCategory, get, set. rewrite E, H. reflexivity.
Qed.

Lemma fold_skips_proto (subs : list Subscription) o :
  getOwn o "__proto__" = None ->
  fold_left addToCategory subs o
  = fold_left addToCategory
      (filter (fun s => negb (filedUnderProto s)) subs) o.
Proof.
  revert o. induction subs as [|s subs IH]; intros o H; [reflexivity|].
  cbn [fold_left filter]. destruct (filedUnderProto s) eqn:E; cbn [negb].
  - rewrite (addToCategory_proto _ _ H E). now apply IH.
  - cbn [fold_left]. apply IH. now apply addToCategory_no_proto.
Qed.

(** Numbers are only ever stored under names that are not inherited. *)
Lemma addToCategory_numbers_plain o s :
  (forall k v, getOwn o k = Some (Num v) -> isPrototypeMember k = false) ->
  forall k v,
    getOwn (addToCategory o s) k = Some (Num v) -> isPrototypeMember k = false.
Proof.
  intros Hinv k v. destruct (String.eqb_spec k (categoryOf s)) as [->|Hk].
  2:{ rewrite addToCategory_other by exact Hk. apply Hinv. }
  unfold addToCategory, get.
  destruct (getOwn o (categoryOf s)) as [[w|]|] eqn:Eg.
  - intros _. exact (Hinv _ _ Eg).
  - unfold set. destruct (String.eqb (categoryOf s) "__proto__").
    + rewrite Eg. discriminate.
    + rewrite getOwn_setOwn_same. discriminate.
  - destruct (isPrototypeMember (categoryOf s)) eqn:Ep; [|reflexivity].
    unfold set. destruct (String.eqb (categoryOf s) "__proto__").
    + rewrite Eg. discriminate.
    + rewrite getOwn_setOwn_same. discriminate.
Qed.

(** A string, once stored, stays. *)
Lemma addToCategory_keeps_string o s k :
  getOwn o k = Some Str -> getOwn (addToCategory o s) k = Some Str.
Proof.
  intros H. destruct (String.eqb_spec k (categoryOf s)) as [->|Hk].
  2:{ now rewrite addToCategory_other. }
  unfold addToCategory, get, set. rewrite H.
  destruct (String.eqb (categoryOf s) "__proto__"); [exact H|].
  apply getOwn_setOwn_same.
Qed.

Lemma fold_keeps_string (subs : list Subscription) o k :
  getOwn o k = Some Str -> getOwn (fold_left addToCategory subs o) k = Some Str.
Proof.
  revert o. induction subs as [|s subs IH]; intros o H; [exact H|].
  cbn. apply IH. now apply addToCategory_keeps_string.
Qed.

(** A category named after an inherited member stores a string. *)
Lemma addToCategory_breaks o s :
  (forall k v, getOwn o k = Some (Num v) -> isPrototypeMember k = false) ->
  breaksBreakdown s = true ->
  getOwn (addToCategory o s) (categoryOf s) = Some Str.
Proof.
  unfold breaksBreakdown. intros Hinv Hb.
  apply andb_true_iff in Hb as [Hp Hn]. apply negb_true_iff in Hn.
  unfold addToCategory, get, set. rewrite Hn.
  destruct (getOwn o (categoryOf s)) as [[w|]|] eqn:Eg.
  - rewrite (Hinv _ _ Eg) in Hp. discriminate.
  - apply getOwn_setOwn_same.
  - rewrite Hp. apply getOwn_setOwn_same.
Qed.

Lemma fold_breaks (subs : list Subscription) o :
  (forall k v, getOwn o k = Some (Num v) -> isPrototypeMember k = false) ->
  (exists s, In s subs /\ breaksBreakdown s = true) ->
  exists k, getOwn (fold_left addToCategory subs o) k = Some Str.
Proof.
  revert o. induction subs as [|s subs IH]; intros o Hinv (b & Hin & Hb);
    [contradiction|].
  cbn [fold_left]. destruct Hin as [->|Hin].
  - exists (categoryOf b). apply fold_keeps_string.
    now apply addToCategory_breaks.
  - apply IH; [now apply addToCategory_numbers_plain | now exists b].
Qed.

Lemma toCategoryEntries_string es k :
  In (k, Str) es -> toCategoryEntries es = None.
Proof.
  induction es as [|[k' [v|]] es IH]; cbn; [contradiction| |reflexivity].
  intros [H|H]; [discriminate|]. now rewrite IH.
Qed.

Lemma categoryBreakdown_string subs k :
  getOwn (fold_left addToCategory subs []) k = Some Str ->
  categoryBreakdown subs = None.
Proof.
  intros H. unfold categoryBreakdown.
  rewrite (toCategoryEntries_string _ k); [reflexivity|].
  apply (Permutation_in _ (Permutation_sym (entries_perm _))).
  now apply In_getOwn.
Qed.

Lemma plain_without_breaking subs :
  Forall (fun s => breaksBreakdown s = false) subs ->
  plainCategories (filter (fun s => negb (filedUnderProto s)) subs).
Proof.
  intros H. unfold plainCategories. apply Forall_forall. intros s Hs.
  apply filter_In in Hs as [Hin Hp]. rewrite Forall_forall in H.
  specialize (H s Hin). unfold breaksBreakdown, filedUnderProto in *.
  apply negb_true_iff in Hp. rewrite Hp in H. cbn in H.
  now rewrite andb_true_r in H.
Qed.

End BreakdownFacts.

(** ** Facts about the total of the slices *)

Module SliceFacts.

Import JSObject UseAnalytics Spec SortFacts SumFacts CategoryFacts.
Import Notions ListFacts BreakdownFacts RoundingFacts.
Local Open Scope string_scope.

Lemma sum_app (l1 l2 : list Q) :
  (JSNumber.sum (l1 ++ l2) == JSNumber.sum l1 + JSNumber.sum l2)%Q.
Proof.
  induction l1 as [|x l1 IH]; cbn [app].
  - unfold JSNumber.sum at 2. cbn. ring.
  - rewrite !sum_cons, IH. ring.
Qed.

Lemma sum_perm (l l' : list Q) :
  Permutation l l' -> (JSNumber.sum l == JSNumber.sum l')%Q.
Proof.
  induction 1 as [|x l l' _ IH|x y l|l l' l'' _ IH1 _ IH2].
  - reflexivity.
  - rewrite !sum_cons, IH. reflexivity.
  - rewrite !sum_cons. ring.
  - now rewrite IH1.
Qed.

(** Sums of lists that agree element by element up to [eps] differ by at
    most [eps] per element. *)
Lemma sum_close {A B} (f : A -> Q) (g : B -> Q) (eps : Q) l l' :
  Forall2 (fun x y => (Qabs (g y - f x) <= eps)%Q) l l' ->
  (Qabs (JSNumber.sum (map g l') - JSNumber.sum (map f l))
   <= inject_Z (Z.of_nat (List.length l')) * eps)%Q.
Proof.
  induction 1 as [|x y l l' Hxy _ IH].
  - cbn. discriminate.
  - cbn [map List.length]. rewrite !sum_cons, Nat2Z.inj_succ.
    unfold Z.succ. rewrite inject_Z_plus.
    apply Qabs_Qle_condition in Hxy, IH. apply Qabs_Qle_condition.
    change (inject_Z 1) with 1%Q. split; lra.
Qed.

Lemma storedTotal_setOwn o k w :
  (storedTotal (setOwn o k (Num w))
   == storedTotal o
      - match getOwn o k with Some (Num v) => v | _ => 0 end
      + w)%Q.
Proof.
  unfold storedTotal. induction o as [|[k' x] o IH]; cbn [setOwn getOwn map].
  - rewrite sum_cons. cbn. unfold JSNumber.sum. cbn. ring.
  - destruct (String.eqb k' k); cbn [map snd]; rewrite !sum_cons.
    + destruct x; ring.
    + rewrite IH. ring.
Qed.

(** A turn of the [forEach] adds the rate of the subscription to what the
    accumulator holds. *)
Lemma addToCategory_total o done s :
  isPrototypeMember (categoryOf s) = false ->
  holdsGroups o done ->
  (storedTotal (addToCategory o s) == storedTotal o + monthlyRate s)%Q.
Proof.
  intros Hplain Hinv. unfold addToCategory, get.
  pose proof (Hinv (categoryOf s)) as Hc. fold (monthlyRate s).
  destruct (getOwn o (categoryOf s)) as [[v|]|] eqn:Eg.
  - unfold JSNumber.truthy. destruct (Qeq_bool v 0) eqn:Ez; cbn [negb];
      rewrite notProto_set by assumption;
      rewrite storedTotal_setOwn, Eg.
    + apply Qeq_bool_iff in Ez. lra.
    + ring.
  - contradiction.
  - rewrite Hplain, notProto_set by assumption.
    rewrite storedTotal_setOwn, Eg. ring.
Qed.

Lemma fold_total o done rest :
  plainCategories rest ->
  NoDup (map fst o) -> holdsGroups o done ->
  (storedTotal (fold_left addToCategory rest o)
   == storedTotal o + JSNumber.sum (map monthlyRate rest))%Q.
Proof.
  revert o done. induction rest as [|s rest IH]; intros o done Hplain Hnd Hinv.
  - cbn [fold_left map]. change (JSNumber.sum []) with 0%Q. ring.
  - inversion Hplain as [|? ? Hs Hrest]; subst. cbn [fold_left map].
    rewrite (IH (addToCategory o s) (done ++ [s])%list Hrest).
    + rewrite (addToCategory_total o done s Hs Hinv), sum_cons. ring.
    + now apply addToCategory_NoDup.
    + now apply addToCategory_holdsGroups.
Qed.

End SliceFacts.

(** ** Further properties of the category breakdown *)

Module BreakdownProperties.

Import JSObject UseAnalytics Spec SortFacts SumFacts CategoryFacts.
Import Notions ListFacts BreakdownFacts RoundingFacts SliceFacts Samples.
Local Open Scope string_scope.



(** X10.  The breakdown fails (the callback of [map] throws) exactly when
    some subscription is filed under the name of a member that every
    object inherits, other than [__proto__]. *)
Theorem categoryBreakdown_throws_iff (subs : list Subscription) :
  categoryBreakdown subs = None
  <-> exists s, In s subs /\ breaksBreakdown s = true.
Proof.
  split.
  - intros Hnone.
    destruct (existsb breaksBreakdown subs) eqn:E.
    + apply existsb_exists in E. exact E.
    + exfalso.
      assert (Hall : Forall (fun s => breaksBreakdown s = false) subs).
      { apply Forall_forall. intros s Hs.
        destruct (breaksBreakdown s) eqn:Eb; [|reflexivity].
        assert (existsb breaksBreakdown subs = true); [|congruence].
        apply existsb_exists. now exists s. }
      apply plain_without_breaking in Hall.
      destruct (categoryBreakdown_groups_every_subscription _ Hall)
        as (es & Hes & _).
      unfold categoryBreakdown in Hnone, Hes.
      rewrite (fold_skips_proto subs [] eq_refl) in Hnone. congruence.
  - intros Hex.
    destruct (fold_breaks subs [] (fun k v H => False_ind _ ltac:(discriminate H)) Hex)
      as [k Hk].
    now apply (categoryBreakdown_string subs k).
Qed.

(** X11.  Subscriptions filed under the name [__proto__] vanish from the
    breakdown: the result is that of the list without them. *)
Theorem categoryBreakdown_drops_proto (subs : list Subscription) :
  categoryBreakdown subs
  = categoryBreakdown (filter (fun s => negb (filedUnderProto s)) subs).
Proof.
  unfold categoryBreakdown. now rewrite (fold_skips_proto subs [] eq_refl).
Qed.

Lemma categoryBreakdown_rounded subs :
  plainCategories subs ->
  exists r,
    categoryBreakdown subs
    = Some (JSArray.sort (fun a b => (value b - value a)%Q) r)
    /\ Forall2
         (fun kv e =>
            categoryName e = fst kv
            /\ exists v, snd kv = Num v /\ value e = JSNumber.toFixed2 v)
         (entries (fold_left addToCategory subs [])) r.
Proof.
  intros Hplain.
  destruct
    (fold_addToCategory [] [] subs Hplain (NoDup_nil _) holdsGroups_empty)
    as [Hnd Hinv].
  cbn [app] in Hinv.
  set (o := fold_left addToCategory subs []) in *.
  assert (Hnum : Forall (fun kv => exists v, snd kv = Num v) (entries o)).
  { eapply Permutation_Forall; [symmetry; apply entries_perm|].
    apply Forall_forall. intros [k x] Hin. cbn.
    pose proof (Hinv k) as Hk. rewrite (getOwn_In _ _ _ Hnd Hin) in Hk.
    destruct x as [v|]; [now exists v | contradiction]. }
  destruct (toCategoryEntries_numbers _ Hnum) as (r & Hr & Hall).
  exists r. split; [|exact Hall].
  unfold categoryBreakdown. fold o. now rewrite Hr.
Qed.

(** X12.  The slices add up to the total monthly cost of the hook, up to
    the rounding of each slice: the two differ by at most half a cent per
    slice. *)
Theorem slices_add_up_to_total (subs : list Subscription) :
  plainCategories subs ->
  exists es,
    categoryBreakdown subs = Some es
    /\ (Qabs (sliceTotal es - totalMonthlyCost subs)
        <= inject_Z (Z.of_nat (List.length es)) * (1 # 200))%Q.
Proof.
  intros Hplain.
  destruct (categoryBreakdown_rounded subs Hplain) as (r & Hes & Hall).
  exists (JSArray.sort (fun a b => (value b - value a)%Q) r).
  split; [exact Hes|].
  set (o := fold_left addToCategory subs []) in *.
  set (num := fun kv : string * Value =>
                match snd kv with Num v => v | Str => 0%Q end).
  assert (Htot : (JSNumber.sum (map num (entries o))
                  == totalMonthlyCost subs)%Q).
  { rewrite (sum_perm _ (map num o))
      by (apply Permutation_map, entries_perm).
    change (JSNumber.sum (map num o)) with (storedTotal o). unfold o.
    rewrite (fold_total [] [] subs Hplain (NoDup_nil _) holdsGroups_empty).
    unfold totalMonthlyCost, JSNumber.sum. cbn [map fold_left].
    rewrite <- (fold_left_sum monthlyRate subs 0%Q).
    unfold storedTotal, monthlyRate. cbn. ring. }
  assert (Hclose : Forall2
            (fun kv e => (Qabs (value e - num kv) <= 1 # 200)%Q)
            (entries o) r).
  { eapply Forall2_impl; [|exact Hall].
    intros kv e (_ & v & Hv & He). unfold num. rewrite Hv, He.
    apply toFixed2_close. }
  pose proof (sum_close num value (1 # 200) _ _ Hclose) as Hsum.
  unfold sliceTotal. rewrite sort_length.
  rewrite (sum_perm _ (map value r))
    by (apply Permutation_map, sort_perm).
  rewrite <- Htot. exact Hsum.
Qed.

Lemma slices_add_up_to_total_witness :
  exists es,
    categoryBreakdown [netflix; gymPending; annualPlan] = Some es
    /\ (Qabs (sliceTotal es
              - totalMonthlyCost [netflix; gymPending; annualPlan])
        <= inject_Z (Z.of_nat (List.length es)) * (1 # 200))%Q.
Proof.
  apply (slices_add_up_to_total [netflix; gymPending; annualPlan]).
  repeat constructor.
Defined.



End BreakdownProperties.

(** ** Facts about plain objects *)

Module RecordFacts.

Import JSRecord SortFacts.
Local Open Scope string_scope.

Section Records.
Context {V : Type}.
Implicit Types (o : @Obj V) (k : string) (v : V).

Lemma record_getOwn_setOwn_same o k v : getOwn (setOwn o k v) k = Some v.
Proof.
  induction o as [|[k' v'] o IH]; cbn.
  - now rewrite String.eqb_refl.
  - destruct (String.eqb_spec k' k) as [->|Hne]; cbn.
    + now rewrite String.eqb_refl.
    + destruct (String.eqb_spec k' k); [contradiction | exact IH].
Qed.

Lemma record_getOwn_setOwn_other o k v k0 :
  k0 <> k -> getOwn (setOwn o k v) k0 = getOwn o k0.
Proof.
  intros Hne. induction o as [|[k' v'] o IH]; cbn.
  - destruct (String.eqb_spec k k0); [congruence | reflexivity].
  - destruct (String.eqb_spec k' k) as [->|Hk]; cbn.
    + destruct (String.eqb_spec k k0); [congruence | reflexivity].
    + destruct (String.eqb_spec k' k0); [reflexivity | exact IH].
Qed.

Lemma record_getOwn_None_keys o k : getOwn o k = None -> ~ In k (map fst o).
Proof.
  induction o as [|[k' v'] o IH]; cbn; [tauto|].
  destruct (String.eqb_spec k' k); [discriminate|].
  intros H [E|Hin]; [contradiction | now apply IH].
Qed.

(** Writing a property that is not there appends it. *)
Lemma record_setOwn_new o k v : getOwn o k = None -> setOwn o k v = (o ++ [(k, v)])%list.
Proof.
  induction o as [|[k' v'] o IH]; cbn; [reflexivity|].
  destruct (String.eqb k' k); [discriminate|].
  intros H. now rewrite IH.
Qed.

Lemma record_setOwn_keys_old o k v v0 :
  getOwn o k = Some v0 -> map fst (setOwn o k v) = map fst o.
Proof.
  induction o as [|[k' v'] o IH]; cbn; [discriminate|].
  destruct (String.eqb k' k); [reflexivity|].
  intros H. cbn. now rewrite IH.
Qed.

Lemma record_setOwn_NoDup o k v : NoDup (map fst o) -> NoDup (map fst (setOwn o k v)).
Proof.
  intros Hnd. destruct (getOwn o k) as [v0|] eqn:E.
  - now rewrite (record_setOwn_keys_old _ _ _ _ E).
  - rewrite (record_setOwn_new _ _ _ E), map_app. cbn.
    apply NoDup_app; [exact Hnd | repeat constructor; intros [] |].
    intros x Hx [Hk|[]]. subst x. now apply (record_getOwn_None_keys _ _ E).
Qed.

Lemma record_getOwn_In o k v : NoDup (map fst o) -> In (k, v) o -> getOwn o k = Some v.
Proof.
  induction o as [|[k' v'] o IH]; cbn; [contradiction|].
  intros Hnd [[= -> ->]|Hin].
  - now rewrite String.eqb_refl.
  - inversion Hnd as [|? ? Hnot Hnd']; subst.
    destruct (String.eqb_spec k' k) as [->|]; [|now apply IH].
    exfalso. apply Hnot. apply in_map_iff. now exists (k, v).
Qed.

Lemma record_In_getOwn o k v : getOwn o k = Some v -> In (k, v) o.
Proof.
  induction o as [|[k' v'] o IH]; cbn; [discriminate|].
  destruct (String.eqb_spec k' k) as [->|].
  - intros [= ->]. now left.
  - intros H. right. now apply IH.
Qed.

Lemma record_entries_perm o : Permutation (entries o) o.
Proof.
  unfold entries. rewrite (sort_perm compareIndex).
  induction o as [|x o IH]; cbn; [constructor|].
  destruct (isIndexKey x); cbn.
  - now constructor.
  - rewrite <- Permutation_middle. now constructor.
Qed.
End Records.

End RecordFacts.

(** ** Facts about the category table of the panel *)

Module CategoryTrendFacts.

Import JSRecord UseAnalytics Spec SortFacts Notions PanelNotions ListFacts.
Import RecordFacts Panel.
Local Open Scope string_scope.

Lemma filedUnder_snoc k done s :
  filedUnder k (done ++ [s])%list
  = (filedUnder k done
     ++ if String.eqb (categoryOf s) k then [s] else [])%list.
Proof. unfold filedUnder. now rewrite filter_app. Qed.

Lemma list_sum_perm (l l' : list nat) :
  Permutation l l' -> list_sum l = list_sum l'.
Proof.
  induction 1 as [|x l l' _ IH|x y l|l l' l'' _ IH1 _ IH2].
  - reflexivity.
  - change (x + list_sum l = x + list_sum l')%nat. lia.
  - change (y + (x + list_sum l) = x + (y + list_sum l))%nat. lia.
  - lia.
Qed.

Lemma heldCount_cons k (x : list Q) o :
  heldCount ((k, x) :: o) = (List.length x + heldCount o)%nat.
Proof. reflexivity. Qed.

Lemma heldCount_setOwn_old o k (costs costs' : list Q) :
  getOwn o k = Some costs ->
  (heldCount (setOwn o k costs') + List.length costs
   = heldCount o + List.length costs')%nat.
Proof.
  induction o as [|[k' x] o IH]; cbn [getOwn setOwn]; [discriminate|].
  destruct (String.eqb k' k).
  - intros [= ->]. rewrite !heldCount_cons. lia.
  - intros H. specialize (IH H). rewrite !heldCount_cons. lia.
Qed.

Lemma heldCount_setOwn_new o k (costs' : list Q) :
  getOwn o k = None ->
  heldCount (setOwn o k costs') = (heldCount o + List.length costs')%nat.
Proof.
  intros H. rewrite (record_setOwn_new _ _ _ H). unfold heldCount.
  rewrite map_app, list_sum_app. cbn. lia.
Qed.

(** One turn of the [forEach] under a plain name: the rate joins its group
    and nothing else changes. *)
Lemma pushRate_plain o done s :
  JSObject.isPrototypeMember (categoryOf s) = false ->
  NoDup (map fst o) -> holdsRates o done ->
  exists o',
    pushRate o s = Some o'
    /\ NoDup (map fst o') /\ holdsRates o' (done ++ [s])%list
    /\ heldCount o' = S (heldCount o).
Proof.
  intros Hplain Hnd Hinv. unfold pushRate.
  pose proof (Hinv (categoryOf s)) as Hc.
  assert (Hstep : forall costs,
            costs = map monthlyRate (filedUnder (categoryOf s) done) ->
            holdsRates (setOwn o (categoryOf s) (costs ++ [monthlyRate s])%list)
              (done ++ [s])%list).
  { intros costs Hcosts k. rewrite filedUnder_snoc.
    destruct (String.eqb_spec (categoryOf s) k) as [<-|Hk].
    - rewrite record_getOwn_setOwn_same, map_app, Hcosts. split; [reflexivity|].
      intros H. apply app_eq_nil in H as [_ H]. discriminate.
    - rewrite record_getOwn_setOwn_other by congruence. rewrite app_nil_r.
      apply Hinv. }
  destruct (getOwn o (categoryOf s)) as [costs|] eqn:Eg.
  - destruct Hc as [Hcosts _].
    exists (setOwn o (categoryOf s) (costs ++ [monthlyRate s])%list).
    split; [reflexivity|]. split; [now apply record_setOwn_NoDup|].
    split; [now apply Hstep|].
    pose proof (heldCount_setOwn_old o _ costs
                  (costs ++ [monthlyRate s])%list Eg) as H.
    rewrite length_app in H. cbn in H. lia.
  - rewrite Hplain.
    exists (setOwn o (categoryOf s) ([] ++ [monthlyRate s])%list).
    split; [reflexivity|]. split; [now apply record_setOwn_NoDup|].
    split; [apply Hstep; now rewrite Hc|].
    rewrite (heldCount_setOwn_new _ _ _ Eg). cbn. lia.
Qed.

Lemma pushRates_plain rest o done :
  plainCategories rest ->
  NoDup (map fst o) -> holdsRates o done ->
  exists o',
    pushRates o rest = Some o'
    /\ NoDup (map fst o') /\ holdsRates o' (done ++ rest)%list
    /\ heldCount o' = (heldCount o + List.length rest)%nat.
Proof.
  revert o done. induction rest as [|s rest IH]; intros o done Hplain Hnd Hinv.
  - exists o. rewrite app_nil_r. cbn. repeat split; auto.
  - inversion Hplain as [|? ? Hs Hrest]; subst.
    destruct (pushRate_plain o done s Hs Hnd Hinv) as (o1 & H1 & Hnd1 & Hinv1 & Hc1).
    destruct (IH o1 (done ++ [s])%list Hrest Hnd1 Hinv1)
      as (o' & H' & Hnd' & Hinv' & Hc').
    exists o'. cbn [pushRates]. rewrite H1.
    split; [exact H'|]. split; [exact Hnd'|]. split.
    + now rewrite <- app_assoc in Hinv'.
    + rewrite Hc', Hc1. cbn. lia.
Qed.

(** Own properties never carry the name of an inherited member. *)
Lemma pushRate_keys o s o' :
  (forall k, JSObject.isPrototypeMember k = true -> getOwn o k = None) ->
  pushRate o s = Some o' ->
  forall k, JSObject.isPrototypeMember k = true -> getOwn o' k = None.
Proof.
  intros Hinv Hpush k Hk. unfold pushRate in Hpush.
  assert (Hne : JSObject.isPrototypeMember (categoryOf s) = false ->
                k <> categoryOf s) by (intros H ->; congruence).
  destruct (getOwn o (categoryOf s)) as [costs|] eqn:Eg.
  - injection Hpush as <-.
    destruct (JSObject.isPrototypeMember (categoryOf s)) eqn:Ep.
    + rewrite (Hinv _ Ep) in Eg. discriminate.
    + rewrite record_getOwn_setOwn_other by auto. now apply Hinv.
  - destruct (JSObject.isPrototypeMember (categoryOf s)) eqn:Ep;
      [discriminate|].
    injection Hpush as <-.
    rewrite record_getOwn_setOwn_other by auto. now apply Hinv.
Qed.

Lemma pushRates_throws subs o :
  (forall k, JSObject.isPrototypeMember k = true -> getOwn o k = None) ->
  (exists s, In s subs /\ JSObject.isPrototypeMember (categoryOf s) = true) ->
  pushRates o subs = None.
Proof.
  revert o. induction subs as [|s subs IH]; intros o Hinv (b & Hin & Hb);
    [contradiction|].
  cbn [pushRates]. destruct (pushRate o s) as [o'|] eqn:Ep; [|reflexivity].
  destruct Hin as [->|Hin].
  - unfold pushRate in Ep. rewrite (Hinv _ Hb), Hb in Ep. discriminate.
  - apply IH; [now apply (pushRate_keys o s) | now exists b].
Qed.

Lemma rows_order_total (a b : CategoryRow) :
  JSArray.before (fun a b => (totalMonthly b - totalMonthly a)%Q) a b
  \/ JSArray.before (fun a b => (totalMonthly b - totalMonthly a)%Q) b a.
Proof.
  unfold JSArray.before.
  destruct (Qlt_le_dec (totalMonthly a) (totalMonthly b)) as [H|H].
  - right. apply Qlt_le_weak in H. lra.
  - left. lra.
Qed.

Lemma rows_order_trans (a b c : CategoryRow) :
  JSArray.before (fun a b => (totalMonthly b - totalMonthly a)%Q) a b ->
  JSArray.before (fun a b => (totalMonthly b - totalMonthly a)%Q) b c ->
  JSArray.before (fun a b => (totalMonthly b - totalMonthly a)%Q) a c.
Proof. unfold JSArray.before. intros. lra. Qed.

End CategoryTrendFacts.

(** ** Properties of the category table of the panel *)

Module CategoryTrendProperties.

Import JSRecord UseAnalytics Spec SortFacts Notions PanelNotions ListFacts.
Import RecordFacts Panel CategoryTrendFacts RoundingFacts Samples.
Local Open Scope string_scope.

(** X14.  When no category bears the name of an inherited member, the
    table has one row per category name in use, in descending order of
    monthly total; a row counts the subscriptions of its group and carries
    a whole number of cents nearest to the sum of their panel rates, and
    the counts add up to the number of subscriptions. *)
Theorem calculateCategoryTrend_rows (subs : list Subscription) :
  plainCategories subs ->
  exists rows,
    calculateCategoryTrend subs = Some rows
    /\ rowsDescending rows
    /\ NoDup (map rowCategory rows)
    /\ countTotal rows = List.length subs
    /\ (forall s, In s subs -> In (categoryOf s) (map rowCategory rows))
    /\ (forall row,
          In row rows ->
          filedUnder (rowCategory row) subs <> []
          /\ count row = List.length (filedUnder (rowCategory row) subs)
          /\ JSNumber.roundsToCents
               (JSNumber.sum
                  (map monthlyRate (filedUnder (rowCategory row) subs)))
               (totalMonthly row)).
Proof.
  intros Hplain.
  assert (H0 : holdsRates [] []) by (intros k; reflexivity).
  destruct (pushRates_plain subs [] [] Hplain (NoDup_nil _) H0)
    as (o & Ho & Hnd & Hinv & Hcount).
  cbn [app] in Hinv. change (heldCount []) with 0%nat in Hcount.
  set (cmp := fun a b : CategoryRow => (totalMonthly b - totalMonthly a)%Q).
  assert (Hperm : Permutation (JSArray.sort cmp (map toRow (entries o)))
                    (map toRow o)).
  { rewrite sort_perm. apply Permutation_map, record_entries_perm. }
  exists (JSArray.sort cmp (map toRow (entries o))).
  split; [unfold calculateCategoryTrend; now rewrite Ho|].
  split; [|split; [|split; [|split]]].
  - apply (sorted_weaken (JSArray.before cmp)).
    + unfold JSArray.before, cmp. intros. lra.
    + apply sort_sorted; [apply rows_order_total | apply rows_order_trans].
  - eapply Permutation_NoDup;
      [symmetry; apply Permutation_map; exact Hperm|].
    rewrite map_map.
    replace (map (fun x => rowCategory (toRow x)) o) with (map fst o);
      [exact Hnd|].
    apply map_ext. now intros [k x].
  - unfold countTotal.
    rewrite (list_sum_perm _ _ (Permutation_map count Hperm)), map_map.
    transitivity (heldCount o); [|cbn in Hcount; exact Hcount].
    unfold heldCount. f_equal. apply map_ext. now intros [k x].
  - intros s Hs.
    eapply Permutation_in;
      [symmetry; apply Permutation_map; exact Hperm|].
    pose proof (Hinv (categoryOf s)) as Hk.
    destruct (getOwn o (categoryOf s)) as [costs|] eqn:Eg.
    + apply record_In_getOwn in Eg.
      rewrite map_map. apply in_map_iff.
      now exists (categoryOf s, costs).
    + exfalso.
      assert (Hin : In s (filedUnder (categoryOf s) subs)).
      { apply filter_In. split; [exact Hs | apply String.eqb_refl]. }
      rewrite Hk in Hin. contradiction.
  - intros row Hrow.
    apply (Permutation_in _ Hperm) in Hrow.
    apply in_map_iff in Hrow as ([k costs] & <- & Hin).
    pose proof (Hinv k) as Hk. rewrite (record_getOwn_In _ _ _ Hnd Hin) in Hk.
    destruct Hk as [-> Hne]. cbn [toRow rowCategory count totalMonthly].
    split; [exact Hne|]. split; [now rewrite length_map|].
    apply toFixed2_roundsToCents.
Qed.

Lemma calculateCategoryTrend_rows_witness :
  exists rows,
    calculateCategoryTrend [netflix; gymPending; annualPlan] = Some rows
    /\ rowsDescending rows
    /\ NoDup (map rowCategory rows)
    /\ countTotal rows = 3%nat
    /\ (forall s,
          In s [netflix; gymPending; annualPlan] ->
          In (categoryOf s) (map rowCategory rows))
    /\ (forall row,
          In row rows ->
          filedUnder (rowCategory row) [netflix; gymPending; annualPlan]
          <> []
          /\ count row
             = List.length
                 (filedUnder (rowCategory row)
                    [netflix; gymPending; annualPlan])
          /\ JSNumber.roundsToCents
               (JSNumber.sum
                  (map monthlyRate
                     (filedUnder (rowCategory row)
                        [netflix; gymPending; annualPlan])))
               (totalMonthly row)).
Proof.
  apply (calculateCategoryTrend_rows [netflix; gymPending; annualPlan]).
  repeat constructor.
Defined.

(** X15.  The table fails (pushing onto an inherited member throws)
    exactly when some subscription is filed under the name of a member
    that every object inherits, [__proto__] included. *)
Theorem calculateCategoryTrend_throws_iff (subs : list Subscription) :
  calculateCategoryTrend subs = None
  <-> exists s,
        In s subs /\ JSObject.isPrototypeMember (categoryOf s) = true.
Proof.
  split.
  - intros Hnone.
    destruct (existsb (fun s => JSObject.isPrototypeMember (categoryOf s))
                subs) eqn:E.
    + apply existsb_exists in E. exact E.
    + exfalso.
      assert (Hall : plainCategories subs).
      { apply Forall_forall. intros s Hs.
        destruct (JSObject.isPrototypeMember (categoryOf s)) eqn:Eb;
          [|reflexivity].
        assert (existsb (fun s => JSObject.isPrototypeMember (categoryOf s))
                  subs = true); [|congruence].
        apply existsb_exists. now exists s. }
      assert (H0 : holdsRates [] []) by (intros k; reflexivity).
      destruct (pushRates_plain subs [] [] Hall (NoDup_nil _) H0)
        as (o & Ho & _).
      unfold calculateCategoryTrend in Hnone. rewrite Ho in Hnone.
      discriminate.
  - intros Hex. unfold calculateCategoryTrend.
    now rewrite (pushRates_throws subs [] (fun k _ => eq_refl) Hex).
Qed.

End CategoryTrendProperties.

(** ** The panel beside the hook *)

Module PanelProperties.

Import JSRecord UseAnalytics Spec SortFacts Notions PanelNotions ListFacts.
Import RecordFacts Panel CategoryTrendFacts CategoryFacts RoundingFacts.
Import Samples.
Local Open Scope string_scope.

Lemma panel_rate_known (s : Subscription) :
  knownCycle (billingCycle s) = true ->
  Panel.monthlyRate s = Spec.monthlyRate s.
Proof.
  unfold knownCycle, Panel.monthlyRate, Spec.monthlyRate, calculateMonthlyRate.
  destruct (String.eqb (billingCycle s) "Monthly"); [reflexivity|].
  destruct (String.eqb (billingCycle s) "Quarterly"); [reflexivity|].
  destruct (String.eqb (billingCycle s) "Annually"); [reflexivity|].
  discriminate.
Qed.

(** X16.  On subscriptions whose billing cycles are all known, the table
    of the panel and the breakdown of the hook show the same categories
    with the same monthly totals. *)
Theorem panel_table_matches_breakdown (subs : list Subscription) :
  plainCategories subs ->
  Forall (fun s => knownCycle (billingCycle s) = true) subs ->
  exists rows es,
    calculateCategoryTrend subs = Some rows
    /\ categoryBreakdown subs = Some es
    /\ (forall row,
          In row rows ->
          exists e,
            In e es /\ categoryName e = rowCategory row
            /\ (value e == totalMonthly row)%Q)
    /\ (forall e,
          In e es ->
          exists row,
            In row rows /\ rowCategory row = categoryName e
            /\ (totalMonthly row == value e)%Q).
Proof.
  intros Hplain Hknown.
  assert (H0 : holdsRates [] []) by (intros k; reflexivity).
  destruct (pushRates_plain subs [] [] Hplain (NoDup_nil _) H0)
    as (o & Ho & Hnd & Hinv & _).
  cbn [app] in Hinv.
  destruct (categoryBreakdown_groups_every_subscription subs Hplain)
    as (es & Hes & _ & _ & Hnames & Hvalues).
  set (cmp := fun a b : CategoryRow => (totalMonthly b - totalMonthly a)%Q).
  assert (Hperm : Permutation (JSArray.sort cmp (map toRow (entries o)))
                    (map toRow o)).
  { rewrite sort_perm. apply Permutation_map, record_entries_perm. }
  assert (Hsame : forall k,
            (JSNumber.sum (map Panel.monthlyRate (filedUnder k subs))
             == categoryTotal k subs)%Q).
  { intros k. unfold categoryTotal. fold (filedUnder k subs).
    replace (map Panel.monthlyRate (filedUnder k subs))
      with (map Spec.monthlyRate (filedUnder k subs)); [reflexivity|].
    apply map_ext_in. intros s Hs. symmetry. apply panel_rate_known.
    apply filter_In in Hs as [Hs _].
    rewrite Forall_forall in Hknown. now apply Hknown. }
  exists (JSArray.sort cmp (map toRow (entries o))), es.
  split; [unfold calculateCategoryTrend; now rewrite Ho|].
  split; [exact Hes|]. split.
  - intros row Hrow.
    apply (Permutation_in _ Hperm) in Hrow.
    apply in_map_iff in Hrow as ([k costs] & <- & Hin).
    pose proof (Hinv k) as Hk. rewrite (record_getOwn_In _ _ _ Hnd Hin) in Hk.
    destruct Hk as [-> Hne]. cbn [toRow rowCategory totalMonthly].
    assert (Hc : In k (map categoryName es)).
    { apply Hnames. destruct (filedUnder k subs) as [|s l] eqn:El;
        [contradiction|].
      exists s.
      assert (Hs : In s (filedUnder k subs)) by (rewrite El; now left).
      apply filter_In in Hs as [Hs Hk]. apply String.eqb_eq in Hk.
      now split. }
    apply in_map_iff in Hc as (e & He & Hin').
    exists e. split; [exact Hin'|]. split; [exact He|].
    destruct (Hvalues e Hin') as (raw & -> & Hraw).
    apply toFixed2_comp. rewrite Hraw, He. symmetry. apply Hsame.
  - intros e Hin'.
    destruct (Hvalues e Hin') as (raw & Hv & Hraw).
    assert (Hc : In (categoryName e) (map categoryName es))
      by now apply in_map.
    apply Hnames in Hc as (s & Hs & Hcat).
    pose proof (Hinv (categoryName e)) as Hk.
    destruct (getOwn o (categoryName e)) as [costs|] eqn:Eg.
    + destruct Hk as [-> _].
      exists (toRow (categoryName e,
                     map Panel.monthlyRate (filedUnder (categoryName e) subs))).
      split.
      * apply (Permutation_in _ (Permutation_sym Hperm)).
        apply in_map. now apply record_In_getOwn.
      * cbn [toRow rowCategory totalMonthly]. split; [reflexivity|].
        rewrite Hv. apply toFixed2_comp. rewrite Hraw. apply Hsame.
    + exfalso.
      assert (Hin : In s (filedUnder (categoryName e) subs)).
      { apply filter_In. split; [exact Hs | now apply String.eqb_eq]. }
      rewrite Hk in Hin. contradiction.
Qed.

Lemma panel_table_matches_breakdown_witness :
  exists rows es,
    calculateCategoryTrend [netflix; gymPending; annualPlan] = Some rows
    /\ categoryBreakdown [netflix; gymPending; annualPlan] = Some es
    /\ (forall row,
          In row rows ->
          exists e,
            In e es /\ categoryName e = rowCategory row
            /\ (value e == totalMonthly row)%Q)
    /\ (forall e,
          In e es ->
          exists row,
            In row rows /\ rowCategory row = categoryName e
            /\ (totalMonthly row == value e)%Q).
Proof.
  apply (panel_table_matches_breakdown [netflix; gymPending; annualPlan]);
    repeat constructor.
Defined.

(** X17.  The rate the panel works out inline is the rate of the hook on
    the three known cycles; on any other cycle the panel counts nothing
    where the hook counts the full cost. *)
Theorem panel_rate_against_hook_rate (s : Subscription) :
  (knownCycle (billingCycle s) = true ->
   Panel.monthlyRate s = calculateMonthlyRate (cost s) (billingCycle s))
  /\ (knownCycle (billingCycle s) = false ->
      Panel.monthlyRate s = 0%Q
      /\ calculateMonthlyRate (cost s) (billingCycle s) = cost s).
Proof.
  unfold knownCycle, Panel.monthlyRate, calculateMonthlyRate.
  destruct (String.eqb (billingCycle s) "Monthly");
    [split; [reflexivity | discriminate]|].
  destruct (String.eqb (billingCycle s) "Quarterly");
    [split; [reflexivity | discriminate]|].
  destruct (String.eqb (billingCycle s) "Annually");
    [split; [reflexivity | discriminate]|].
  split; [discriminate | now split].
Qed.

Lemma panel_rate_against_hook_rate_witness :
  Panel.monthlyRate annualPlan
  = calculateMonthlyRate (cost annualPlan) (billingCycle annualPlan)
  /\ Panel.monthlyRate PanelSamples.weeklyPass = 0%Q
  /\ calculateMonthlyRate (cost PanelSamples.weeklyPass)
       (billingCycle PanelSamples.weeklyPass)
     = cost PanelSamples.weeklyPass.
Proof.
  split.
  - apply (proj1 (panel_rate_against_hook_rate annualPlan)). reflexivity.
  - apply (proj2 (panel_rate_against_hook_rate PanelSamples.weeklyPass)).
    reflexivity.
Defined.

End PanelProperties.

(** ** Facts about the forecast dates *)

Module ForecastFacts.

Import JSDate UseAnalytics EnhancedAnalytics Spec DateFacts Notions.

(** A day of the month up to the 28th exists in every month. *)
Lemma civilFromDays_day y k d :
  1 <= k <= 12 -> 1 <= d <= 28 ->
  civilFromDays (daysFromCivil y k 1 + d - 1) = (y, k, d).
Proof.
  intros Hk Hd28. unfold daysFromCivil. cbv zeta.
  set (y' := if k <=? 2 then y - 1 else y).
  set (mp := if 2 <? k then k - 3 else k + 9).
  assert (Hy : 0 <= y' - y' / 400 * 400 < 400) by div_lia.
  assert (Hmp : 0 <= mp <= 11) by (subst mp; destruct (Z.ltb_spec 2 k); lia).
  set (yoe := y' - y' / 400 * 400) in *.
  replace (y' / 400 * 146097
           + (yoe * 365 + yoe / 4 - yoe / 100 + ((153 * mp + 2) / 5 + 1 - 1))
           - 719468 + d - 1)
    with (y' / 400 * 146097
          + (yoe * 365 + yoe / 4 - yoe / 100 + ((153 * mp + 2) / 5 + d - 1))
          - 719468) by ring.
  assert (Hd : 0 <= (153 * mp + 2) / 5 + d - 1 < 365) by div_lia.
  rewrite civilFromDays_parts by assumption. cbv zeta.
  assert (Hmp' : (5 * ((153 * mp + 2) / 5 + d - 1) + 2) / 153 = mp)
    by div_lia.
  rewrite Hmp'.
  assert (Hm : (if mp <? 10 then mp + 3 else mp - 9) = k).
  { subst mp. destruct (Z.ltb_spec 2 k).
    - destruct (Z.ltb_spec (k - 3) 10); lia.
    - destruct (Z.ltb_spec (k + 9) 10); lia. }
  rewrite Hm. f_equal; [f_equal|lia].
  subst yoe y'. destruct (Z.leb_spec k 2); ring.
Qed.

Lemma day_of_year_split doy :
  1 <= doy - (153 * ((5 * doy + 2) / 153) + 2) / 5 + 1.
Proof.
  pose proof (Z.div_mod (5 * doy + 2) 153 ltac:(lia)) as Hdm.
  pose proof (Z.mod_pos_bound (5 * doy + 2) 153 ltac:(lia)) as Hb.
  set (mp := (5 * doy + 2) / 153) in *.
  assert (H1 : 153 * mp + 2 <= 5 * doy + 4) by lia.
  assert (H2 : (153 * mp + 2) / 5 <= (5 * doy + 4) / 5)
    by (apply Z.div_le_mono; lia).
  assert (H3 : (5 * doy + 4) / 5 = doy).
  { replace (5 * doy + 4) with (4 + doy * 5) by ring.
    rewrite Z.div_add by lia. reflexivity. }
  lia.
Qed.

(** The day of the month is never below 1. *)
Lemma civilFromDays_day_pos z y k d :
  civilFromDays z = (y, k, d) -> 1 <= d.
Proof.
  unfold civilFromDays. cbv zeta.
  set (doe := z + 719468 - (z + 719468) / 146097 * 146097).
  set (yoe := (doe - doe / 1460 + doe / 36524 - doe / 146096) / 365).
  set (doy := doe - (365 * yoe + yoe / 4 - yoe / 100)).
  clearbody doy. intros [= _ _ <-]. apply day_of_year_split.
Qed.

Lemma localDay_within_day tza day r :
  0 <= r < msPerDay -> localDay tza (day * msPerDay + r - tza) = day.
Proof.
  intros Hr. unfold localDay.
  replace (day * msPerDay + r - tza + tza) with (r + day * msPerDay) by ring.
  rewrite Z.div_add by discriminate. rewrite Z.div_small by exact Hr. lia.
Qed.

Lemma msPerDay_mod_bound x : 0 <= x mod msPerDay < msPerDay.
Proof. apply Z.mod_pos_bound. reflexivity. Qed.

(** [setMonth] from a day up to the 28th lands in the month asked for. *)
Lemma setMonth_month tza t y k dd mo t' :
  civilFromDays (localDay tza t) = (y, k, dd) ->
  dd <= 28 ->
  setMonth tza (Some t) (Some mo) = Some t' ->
  civilFromDays (localDay tza t') = (y + mo / 12, mo mod 12 + 1, dd).
Proof.
  intros Hciv Hdd Hset. unfold setMonth in Hset.
  unfold localDay in Hciv. rewrite Hciv in Hset.
  apply timeClip_Some in Hset as [-> _].
  rewrite localDay_within_day by apply msPerDay_mod_bound.
  pose proof (civilFromDays_day_pos _ _ _ _ Hciv) as Hpos.
  assert (Hm : 0 <= mo mod 12 < 12) by (apply Z.mod_pos_bound; lia).
  apply civilFromDays_day; lia.
Qed.

Lemma today_civil tza now t y m dd :
  today now = Some t ->
  getFullYear tza (today now) = Some y ->
  getMonth tza (today now) = Some m ->
  getDate tza (today now) = Some dd ->
  civilFromDays (localDay tza t) = (y, m + 1, dd).
Proof.
  intros ->. unfold getFullYear, getMonth, getDate.
  destruct (civilFromDays (localDay tza t)) as [[y0 k0] d0].
  intros [= <-] [= <-] [= <-]. f_equal. f_equal. ring.
Qed.

Lemma shortMonthKey_civil tza t y k dd :
  civilFromDays (localDay tza t) = (y, k, dd) ->
  shortMonthKey tza (Some t) = Some (k - 1, y mod 100).
Proof.
  intros H. unfold shortMonthKey, getMonth, getFullYear. now rewrite H.
Qed.

(** The label of the forecast point [i] months ahead. *)
Lemma forecastPoint_month tza now y m dd lastCost avgChange i :
  getFullYear tza (today now) = Some y ->
  getMonth tza (today now) = Some m ->
  getDate tza (today now) = Some dd ->
  dd <= 28 ->
  setMonth tza (today now) (Some (m + i)) <> None ->
  month (forecastPoint tza now lastCost avgChange i)
  = Some ((m + i) mod 12, (y + (m + i) / 12) mod 100).
Proof.
  intros Hy Hm Hd Hdd Hvalid. unfold forecastPoint. cbn [month].
  fold (today now). rewrite Hm. cbn [addMs].
  destruct (today now) as [t|] eqn:Et; [|discriminate].
  pose proof (today_civil tza now t y m dd Et) as Hciv.
  rewrite Et in Hciv. specialize (Hciv Hy Hm Hd).
  destruct (setMonth tza (Some t) (Some (m + i))) as [t'|] eqn:Es;
    [|contradiction].
  rewrite (shortMonthKey_civil _ _ _ _ _
             (setMonth_month _ _ _ _ _ _ _ Hciv Hdd Es)).
  do 2 f_equal. ring.
Qed.

End ForecastFacts.

(** ** The chart of the panel and the budget status *)

Module ChartProperties.

Import JSDate UseAnalytics EnhancedAnalytics Spec DateFacts Notions.
Import ForecastFacts Samples.

(** X18.  Fed by the component, the chart always has fifteen points: the
    twelve months of the trend with their cost as the actual value and no
    forecast, then three forecast points without an actual value.  The
    branch for a short series is never taken. *)
Theorem panel_chart_has_fifteen_points (tza now : Z)
    (subs : list Subscription) :
  exists actual forecast,
    calculateForecast tza now (App.panelTrendData tza now subs)
    = (actual ++ forecast)%list
    /\ List.length actual = 12%nat
    /\ List.length forecast = 3%nat
    /\ map month actual
       = map Trend.month (App.panelTrendData tza now subs)
    /\ map actualSpending actual
       = map (fun e => Some (Trend.cost e))
           (App.panelTrendData tza now subs)
    /\ Forall (fun p => forecastSpending p = None) actual
    /\ Forall (fun p => actualSpending p = None /\ forecastSpending p <> None)
         forecast.
Proof.
  set (trend := App.panelTrendData tza now subs).
  assert (Hlen : List.length trend = 12%nat) by reflexivity.
  unfold calculateForecast. rewrite Hlen.
  change (12 <? 3)%nat with false. cbv iota zeta.
  eexists. eexists. split; [reflexivity|].
  split; [now rewrite length_map|].
  split; [reflexivity|].
  split; [now rewrite map_map|].
  split; [now rewrite map_map|].
  split.
  - apply Forall_forall. intros p Hp.
    apply in_map_iff in Hp as (e & <- & _). reflexivity.
  - repeat constructor; discriminate.
Qed.

(** X19.  When today is no later than the 28th of its month, the forecast
    point [i] (1 to 3) is labelled with the calendar month [i] months
    after the current one and the last two digits of its year. *)
Theorem forecast_months_follow_today (tza now : Z)
    (trend : list Trend.Entry) (y m dd : Z) (i : nat) :
  getFullYear tza (today now) = Some y ->
  getMonth tza (today now) = Some m ->
  getDate tza (today now) = Some dd ->
  dd <= 28 ->
  (3 <= List.length trend)%nat ->
  (1 <= i <= 3)%nat ->
  setMonth tza (today now) (Some (m + Z.of_nat i)) <> None ->
  exists p,
    nth_error (calculateForecast tza now trend) (List.length trend + i - 1)
    = Some p
    /\ month p
       = Some ((m + Z.of_nat i) mod 12,
               (y + (m + Z.of_nat i) / 12) mod 100).
Proof.
  intros Hy Hm Hd Hdd Hlen Hi Hvalid. unfold calculateForecast.
  assert (Hge : (List.length trend <? 3)%nat = false)
    by now apply Nat.ltb_ge.
  rewrite Hge. cbv zeta.
  set (lastCost := Trend.cost (last trend (Trend.mkEntry None 0%Q))).
  set (avgChange := averageChange (JSArray.sliceLast3 trend)).
  exists (forecastPoint tza now lastCost avgChange (Z.of_nat i)). split.
  - rewrite nth_error_app2 by (rewrite length_map; lia).
    rewrite length_map.
    replace (List.length trend + i - 1 - List.length trend)%nat
      with (i - 1)%nat by lia.
    destruct i as [|[|[|[|i]]]]; try lia; reflexivity.
  - now apply (forecastPoint_month tza now y m dd).
Qed.

Lemma forecast_months_follow_today_witness :
  exists p,
    nth_error (calculateForecast 0 (utc 2025 11 10) risingTrend)
      (List.length risingTrend + 2 - 1)
    = Some p
    /\ month p
       = Some ((10 + Z.of_nat 2) mod 12, (2025 + (10 + Z.of_nat 2) / 12) mod 100).
Proof.
  apply (forecast_months_follow_today 0 (utc 2025 11 10) risingTrend
           2025 10 10 2).
  - reflexivity.
  - reflexivity.
  - reflexivity.
  - lia.
  - vm_compute. lia.
  - lia.
  - vm_compute. discriminate.
Defined.






End ChartProperties.

(** ** Facts about the billing-cycle table *)

Module CycleFacts.

Import JSObject UseAnalytics Spec SortFacts CategoryFacts Notions.
Import PanelNotions ListFacts SliceFacts Panel RoundingFacts.
Local Open Scope string_scope.

Section Tally.
Variable key : Subscription -> string.
Variable amount : Subscription -> Q.

Lemma falsy_zero (v : Q) : JSNumber.truthy v = false -> (v == 0)%Q.
Proof.
  unfold JSNumber.truthy. intros H. apply negb_false_iff in H.
  now apply Qeq_bool_iff.
Qed.

(** One turn of [table[k] = (table[k] || 0) + x] under a plain key. *)
Lemma holdsTally_step o done s :
  isPrototypeMember (key s) = false ->
  holdsTally key amount o done ->
  holdsTally key amount
    (set o (key s) (orZeroPlus (get o (key s)) (amount s)))
    (done ++ [s])%list.
Proof.
  intros Hplain Hinv k. rewrite (notProto_set _ _ _ Hplain).
  rewrite filter_app. cbn [filter].
  destruct (String.eqb_spec (key s) k) as [<-|Hne].
  - rewrite getOwn_setOwn_same.
    assert (Hsnoc : forall l : list Subscription,
              (JSNumber.sum (map amount (l ++ [s]))
               == JSNumber.sum (map amount l) + amount s)%Q).
    { intros l. rewrite map_app, sum_app. cbn [map].
      unfold JSNumber.sum at 2. cbn. ring. }
    unfold get. pose proof (Hinv (key s)) as Hk.
    destruct (getOwn o (key s)) as [[v|]|]; cbn [orZeroPlus].
    + destruct (JSNumber.truthy v) eqn:Et; rewrite Hsnoc, <- Hk.
      * reflexivity.
      * rewrite (falsy_zero v Et). reflexivity.
    + contradiction.
    + rewrite Hplain. cbn [orZeroPlus]. rewrite Hsnoc, Hk. reflexivity.
  - rewrite getOwn_setOwn_other by congruence. rewrite app_nil_r.
    apply Hinv.
Qed.

Lemma set_keys o k v :
  exists extra, map fst (set o k v) = (map fst o ++ extra)%list.
Proof.
  unfold set. destruct (String.eqb k "__proto__").
  - exists []. now rewrite app_nil_r.
  - rewrite setOwn_keys. destruct (existsb (String.eqb k) (map fst o)).
    + exists []. now rewrite app_nil_r.
    + now exists [k].
Qed.

Lemma set_NoDup o k v : NoDup (map fst o) -> NoDup (map fst (set o k v)).
Proof.
  intros H. unfold set. destruct (String.eqb k "__proto__");
    auto using setOwn_NoDup.
Qed.

Lemma fold_holdsTally rest o done :
  Forall (fun s => isPrototypeMember (key s) = false) rest ->
  NoDup (map fst o) -> holdsTally key amount o done ->
  let o' :=
    fold_left
      (fun o s => set o (key s) (orZeroPlus (get o (key s)) (amount s)))
      rest o in
  NoDup (map fst o')
  /\ holdsTally key amount o' (done ++ rest)%list
  /\ exists extra, map fst o' = (map fst o ++ extra)%list.
Proof.
  revert o done. induction rest as [|s rest IH]; intros o done Hplain Hnd Hinv.
  - cbn. rewrite app_nil_r. split; [exact Hnd|]. split; [exact Hinv|].
    exists []. now rewrite app_nil_r.
  - inversion Hplain as [|? ? Hs Hrest]; subst. cbn [fold_left].
    set (o1 := set o (key s) (orZeroPlus (get o (key s)) (amount s))).
    destruct (IH o1 (done ++ [s])%list Hrest (set_NoDup _ _ _ Hnd)
                (holdsTally_step o done s Hs Hinv)) as (Hnd' & Hinv' & Hk').
    split; [exact Hnd'|]. split.
    + now rewrite <- app_assoc in Hinv'.
    + destruct Hk' as [extra' Hk'].
      destruct (set_keys o (key s) (orZeroPlus (get o (key s)) (amount s)))
        as [extra Hk].
      exists (extra ++ extra')%list. fold o1 in Hk.
      now rewrite Hk', Hk, app_assoc.
Qed.

End Tally.

(** The two tables are filled side by side. *)
Lemma fold_addCycle subs cycles counts :
  fold_left addCycle subs (cycles, counts)
  = (fold_left
       (fun o s =>
          set o (cycleOf s) (orZeroPlus (get o (cycleOf s)) (cycleRate s)))
       subs cycles,
     fold_left
       (fun o s =>
          set o (cycleOf s) (orZeroPlus (get o (cycleOf s)) 1))
       subs counts).
Proof.
  revert cycles counts. induction subs as [|s subs IH]; intros cycles counts;
    [reflexivity|].
  cbn [fold_left]. unfold addCycle at 2. cbn [fst snd]. apply IH.
Qed.

Lemma holdsTally_initial key amount : holdsTally key amount initialCycles [].
Proof.
  intros k. unfold initialCycles. cbn [getOwn filter map].
  change (JSNumber.sum []) with 0%Q.
  destruct (String.eqb "Monthly" k); [apply Qeq_refl|].
  destruct (String.eqb "Quarterly" k); [apply Qeq_refl|].
  destruct (String.eqb "Annually" k); [apply Qeq_refl | reflexivity].
Qed.

Lemma toCycleEntries_numbers counts es :
  Forall (fun kv => exists v, snd kv = Num v) es ->
  toCycleEntries counts es = Some (map (cycleRow counts) es).
Proof.
  induction 1 as [|[k x] es [v Hv] _ IH]; [reflexivity|].
  cbn in Hv. subst x. cbn [toCycleEntries]. now rewrite IH.
Qed.






Lemma In_keys_getOwn (o : Obj) k :
  In k (map fst o) -> exists v, getOwn o k = Some v.
Proof.
  induction o as [|[k' v'] o IH]; cbn; [contradiction|].
  destruct (String.eqb_spec k' k) as [->|Hne].
  - intros _. now exists v'.
  - intros [H|H]; [contradiction | now apply IH].
Qed.

End CycleFacts.

(** ** Properties of the billing-cycle table *)

Module CycleProperties.

Import JSObject UseAnalytics Spec SortFacts CategoryFacts Notions.
Import PanelNotions ListFacts SliceFacts Panel RoundingFacts CycleFacts.
Import Samples.
Local Open Scope string_scope.








End CycleProperties.

(** ** The renewals of one calendar month *)

Module MonthWindow.

Import JSDate UseAnalytics Spec DateFacts WalkFacts TrendFacts.
Import Notions ListFacts CountFacts Samples.
Local Open Scope string_scope.

(** The window of the trend loop runs from the first midnight of a month
    to the midnight that opens its last day. *)
Lemma month_window tza y m :
  exists n,
    makeDate tza (Some y) (Some m) (Some 1)
    = newDate (Some (monthStartDay n * msPerDay - tza))
    /\ makeDate tza (Some y) (Some (m + 1)) (Some 0)
       = newDate (Some ((monthStartDay (n + 1) - 1) * msPerDay - tza)).
Proof.
  unfold makeDate.
  set (yr := if ((0 <=? y) && (y <=? 99))%Z then 1900 + y else y).
  exists (12 * yr + m). cbn [newDate]. split.
  - rewrite monthStartDay_split. do 2 f_equal. ring.
  - replace (12 * yr + m + 1) with (12 * yr + (m + 1)) by ring.
    rewrite monthStartDay_split. do 2 f_equal. ring.
Qed.

Lemma window_periods (d p a b : Z) :
  0 < d -> 0 < p -> 0 <= b - a <= 30 ->
  (b * d - a * d) / (p * d) <= 30 / p.
Proof.
  intros Hd Hp Hab.
  replace (b * d - a * d) with ((b - a) * d) by ring.
  rewrite Z.div_mul_cancel_r by lia.
  apply Z.div_le_mono; lia.
Qed.

Lemma occurrences_in_month a c n tza :
  0 < c ->
  (occurrences a c
     (newDate (Some (monthStartDay n * msPerDay - tza)%Z))
     (newDate (Some ((monthStartDay (n + 1) - 1) * msPerDay - tza)%Z))
   <= Z.to_nat (30 / c) + 1)%nat.
Proof.
  intros Hc.
  unfold occurrences. destruct a as [a|]; [|lia].
  destruct (newDate (Some (monthStartDay n * msPerDay - tza))) as [s|] eqn:Es;
    [|lia].
  destruct (newDate (Some ((monthStartDay (n + 1) - 1) * msPerDay - tza)))
    as [e|] eqn:Ee; [|lia].
  apply newDate_Some in Es as [[= <-] _].
  apply newDate_Some in Ee as [[= <-] _].
  pose proof (monthStartDay_step n) as Hstep.
  pose proof msPerDay_pos as Hd.
  set (d := msPerDay) in *. clearbody d.
  set (s := monthStartDay n) in *. set (e := monthStartDay (n + 1)) in *.
  clearbody s e.
  etransitivity; [apply occurrenceCount_bound|].
  - nia.
  - nia.
  - replace ((e - 1) * d - tza - (s * d - tza)) with ((e - 1) * d - s * d)
      by ring.
    pose proof (window_periods d c s (e - 1) Hd Hc ltac:(lia)) as Hw.
    assert (0 <= 30 / c) by (apply Z.div_pos; lia).
    assert (0 <= ((e - 1) * d - s * d) / (c * d)).
    { apply Z.div_pos; nia. }
    lia.
Qed.

Lemma renewalsInMonth_bound tza sub monthDate :
  (renewalsInMonth tza sub monthDate
   <= Z.to_nat (30 / cycleInDays (billingCycle sub)) + 1)%nat.
Proof.
  unfold renewalsInMonth.
  destruct monthDate as [t|].
  2:{ cbn [getFullYear getMonth addMs makeDate].
      change (@None Z) with (newDate None) at 1 2.
      rewrite occurrencesInWindow_occurrences. unfold occurrences.
      destruct (newDate (nextRenewalDate sub)); cbn; lia. }
  assert (Hy : exists y, getFullYear tza (Some t) = Some y).
  { unfold getFullYear.
    destruct (civilFromDays (localDay tza t)) as [[y k] dd]. now exists y. }
  assert (Hm : exists m, getMonth tza (Some t) = Some m).
  { unfold getMonth.
    destruct (civilFromDays (localDay tza t)) as [[y k] dd].
    now exists (k - 1). }
  destruct Hy as [y ->], Hm as [m ->]. cbn [addMs].
  destruct (month_window tza y m) as (n & -> & ->).
  rewrite occurrencesInWindow_occurrences.
  apply occurrences_in_month. unfold cycleInDays.
  destruct (String.eqb (billingCycle sub) "Monthly"); [lia|].
  destruct (String.eqb (billingCycle sub) "Quarterly"); lia.
Qed.

End MonthWindow.

(** ** Properties of the monthly count *)

Module MonthProperties.

Import JSDate UseAnalytics Spec DateFacts WalkFacts TrendFacts.
Import Notions ListFacts CountFacts MonthWindow Samples.
Local Open Scope string_scope.

(** X22.  The trend loop counts at most two renewals of a subscription in
    one calendar month, and at most one unless the plan is monthly; so a
    monthly plan adds once or twice its cost to every month, whatever its
    renewal date. *)
Theorem renewals_in_a_month_bounded (tza : Z) (sub : Subscription)
    (monthDate : Date) :
  (renewalsInMonth tza sub monthDate <= 2)%nat
  /\ (billingCycle sub <> "Monthly" ->
      (renewalsInMonth tza sub monthDate <= 1)%nat)
  /\ (billingCycle sub = "Monthly" ->
      (monthSubCost tza sub monthDate == cost sub)%Q
      \/ (monthSubCost tza sub monthDate == 2 * cost sub)%Q).
Proof.
  pose proof (renewalsInMonth_bound tza sub monthDate) as Hb.
  assert (H2 : (renewalsInMonth tza sub monthDate <= 2)%nat).
  { etransitivity; [exact Hb|]. unfold cycleInDays.
    destruct (String.eqb (billingCycle sub) "Monthly"); [cbn; lia|].
    destruct (String.eqb (billingCycle sub) "Quarterly"); cbn; lia. }
  split; [exact H2|]. split.
  - intros Hne. etransitivity; [exact Hb|]. unfold cycleInDays.
    destruct (String.eqb_spec (billingCycle sub) "Monthly"); [contradiction|].
    destruct (String.eqb (billingCycle sub) "Quarterly"); cbn; lia.
  - intros Hm. unfold monthSubCost.
    destruct (renewalsInMonth tza sub monthDate) as [|[|[|r]]]; try lia.
    + cbn [Nat.ltb Nat.leb]. rewrite Hm. cbn [String.eqb]. left.
      reflexivity.
    + left. cbn [Nat.ltb Nat.leb]. cbn [Z.of_nat Pos.of_succ_nat].
      change (inject_Z 1) with 1%Q. ring.
    + right. cbn [Nat.ltb Nat.leb].
      change (inject_Z (Z.of_nat 2)) with 2%Q. ring.
Qed.

Lemma renewals_in_a_month_bounded_witness :
  (renewalsInMonth 0 netflix (Some (utc 2025 3 1)) <= 2)%nat
  /\ ((monthSubCost 0 netflix (Some (utc 2025 3 1)) == cost netflix)%Q
      \/ (monthSubCost 0 netflix (Some (utc 2025 3 1)) == 2 * cost netflix)%Q)
  /\ (renewalsInMonth 0 quarterlyJan (Some (utc 2025 3 1)) <= 1)%nat.
Proof.
  split; [|split].
  - apply (renewals_in_a_month_bounded 0 netflix (Some (utc 2025 3 1))).
  - apply (renewals_in_a_month_bounded 0 netflix (Some (utc 2025 3 1))).
    reflexivity.
  - apply (renewals_in_a_month_bounded 0 quarterlyJan (Some (utc 2025 3 1))).
    discriminate.
Defined.

End MonthProperties.

(** ** How the parts fit together *)

Module Compositions.

Import JSDate UseAnalytics Spec DateFacts WalkFacts.
Import SortFacts Notions ListFacts CountFacts Samples.
Local Open Scope string_scope.

(** X24.  Every subscription listed as an upcoming renewal is active and
    is charged at least once by the twelve-month walk. *)
Theorem upcoming_renewal_is_charged (now : Z) (subs : list Subscription)
    (s : Subscription) :
  now + 365 * msPerDay <= maxTime ->
  In s (upcomingRenewals now subs) ->
  isAwaitingCancellation s = false
  /\ (1 <= calculateRenewalsInNext12Months now (nextRenewalDate s)
            (billingCycle s))%nat.
Proof.
  intros He Hin. unfold upcomingRenewals in Hin.
  apply sort_In in Hin. apply filter_In in Hin as [_ Hdue].
  apply andb_true_iff in Hdue as [Hdue Hact].
  apply andb_true_iff in Hdue as [Hge Hle].
  apply negb_true_iff in Hact. split; [exact Hact|].
  rewrite calculateRenewals_occurrences. unfold occurrences.
  fold (today now) in Hge, Hle.
  destruct (newDate (nextRenewalDate s)) as [a|]; [|discriminate].
  destruct (today now) as [t|] eqn:Et; [|discriminate].
  pose proof Et as Et'. unfold today in Et'.
  apply newDate_Some in Et' as [[= <-] Hn].
  cbn [getTime addMs] in Hle.
  destruct (newDate (Some (now + 30 * msPerDay))) as [e30|] eqn:E30;
    [|discriminate].
  apply newDate_Some in E30 as [[= <-] _].
  unfold geb, leb in Hge. cbn in Hle.
  apply Z.leb_le in Hge, Hle.
  rewrite (in365Days_valid _ Hn He).
  rewrite occurrenceCount_inside; [|apply cycle_step_pos | lia].
  assert (0 <= (now + 365 * msPerDay - a) / (cycleInDays (billingCycle s) * msPerDay)).
  { apply Z.div_pos; [|apply cycle_step_pos]. unfold msPerDay in *. lia. }
  lia.
Qed.

Lemma upcoming_renewal_is_charged_witness :
  isAwaitingCancellation netflix = false
  /\ (1 <= calculateRenewalsInNext12Months (utc 2025 1 20)
            (nextRenewalDate netflix) (billingCycle netflix))%nat.
Proof.
  apply (upcoming_renewal_is_charged (utc 2025 1 20) [netflix; gymPending]).
  - vm_compute. discriminate.
  - vm_compute. left. reflexivity.
Defined.

End Compositions.

(** ** When the billing-cycle table fails *)

Module CycleErrors.

Import JSObject UseAnalytics Spec SortFacts CategoryFacts Notions.
Import PanelNotions ListFacts SliceFacts Panel RoundingFacts CycleFacts.
Local Open Scope string_scope.

Section Tally.
Variable key : Subscription -> string.
Variable amount : Subscription -> Q.

(** Writing under [__proto__] leaves the table as it is. *)
Lemma fold_skips_proto_key subs (o : Obj) :
  fold_left
    (fun o s => set o (key s) (orZeroPlus (get o (key s)) (amount s)))
    subs o
  = fold_left
      (fun o s => set o (key s) (orZeroPlus (get o (key s)) (amount s)))
      (filter (fun s => negb (String.eqb (key s) "__proto__")) subs) o.
Proof.
  revert o. induction subs as [|s subs IH]; intros o; [reflexivity|].
  cbn [fold_left filter].
  destruct (String.eqb (key s) "__proto__") eqn:E; cbn [negb fold_left].
  - unfold set at 2. rewrite E. apply IH.
  - apply IH.
Qed.

(** Numbers are only ever stored under plain names. *)
Lemma step_numbers_plain (o : Obj) s :
  (forall k v, getOwn o k = Some (Num v) -> isPrototypeMember k = false) ->
  forall k v,
    getOwn (set o (key s) (orZeroPlus (get o (key s)) (amount s))) k
    = Some (Num v) ->
    isPrototypeMember k = false.
Proof.
  intros Hinv k v. unfold set.
  destruct (String.eqb (key s) "__proto__"); [apply Hinv|].
  destruct (String.eqb_spec k (key s)) as [->|Hne].
  - rewrite getOwn_setOwn_same. unfold get.
    destruct (getOwn o (key s)) as [[w|]|] eqn:Eg; cbn [orZeroPlus].
    + intros _. now apply (Hinv _ w).
    + discriminate.
    + destruct (isPrototypeMember (key s)); [discriminate | reflexivity].
  - rewrite getOwn_setOwn_other by exact Hne. apply Hinv.
Qed.

(** A string, once stored, stays. *)
Lemma step_keeps_string (o : Obj) s k :
  getOwn o k = Some Str ->
  getOwn (set o (key s) (orZeroPlus (get o (key s)) (amount s))) k
  = Some Str.
Proof.
  intros Hk. unfold set.
  destruct (String.eqb (key s) "__proto__"); [exact Hk|].
  destruct (String.eqb_spec k (key s)) as [->|Hne].
  - rewrite getOwn_setOwn_same. unfold get. now rewrite Hk.
  - now rewrite getOwn_setOwn_other.
Qed.

Lemma fold_keeps_string_key subs (o : Obj) k :
  getOwn o k = Some Str ->
  getOwn
    (fold_left
       (fun o s => set o (key s) (orZeroPlus (get o (key s)) (amount s)))
       subs o) k
  = Some Str.
Proof.
  revert o. induction subs as [|s subs IH]; intros o Hk; [exact Hk|].
  cbn [fold_left]. apply IH. now apply step_keeps_string.
Qed.

(** The name of an inherited member other than [__proto__] gets a
    string. *)
Lemma step_breaks (o : Obj) s :
  (forall k v, getOwn o k = Some (Num v) -> isPrototypeMember k = false) ->
  isPrototypeMember (key s) = true ->
  String.eqb (key s) "__proto__" = false ->
  getOwn (set o (key s) (orZeroPlus (get o (key s)) (amount s))) (key s)
  = Some Str.
Proof.
  intros Hinv Hp Hn. unfold set. rewrite Hn, getOwn_setOwn_same.
  unfold get. destruct (getOwn o (key s)) as [[w|]|] eqn:Eg.
  - rewrite (Hinv _ _ Eg) in Hp. discriminate.
  - reflexivity.
  - now rewrite Hp.
Qed.

Lemma fold_breaks_key subs (o : Obj) :
  (forall k v, getOwn o k = Some (Num v) -> isPrototypeMember k = false) ->
  (exists s,
     In s subs /\ isPrototypeMember (key s) = true
     /\ String.eqb (key s) "__proto__" = false) ->
  exists k,
    getOwn
      (fold_left
         (fun o s => set o (key s) (orZeroPlus (get o (key s)) (amount s)))
         subs o) k
    = Some Str.
Proof.
  revert o. induction subs as [|s subs IH]; intros o Hinv (b & Hin & Hp & Hn);
    [contradiction|].
  cbn [fold_left]. destruct Hin as [->|Hin].
  - exists (key b). apply fold_keeps_string_key. now apply step_breaks.
  - apply IH; [now apply step_numbers_plain|]. now exists b.
Qed.

End Tally.

Lemma toCycleEntries_string counts es k :
  In (k, Str) es -> toCycleEntries counts es = None.
Proof.
  induction es as [|[k' x] es IH]; [contradiction|].
  intros [[= -> ->]|Hin]; [reflexivity|].
  cbn [toCycleEntries]. destruct x as [v|]; [|reflexivity].
  now rewrite (IH Hin).
Qed.

Lemma initialCycles_plain k v :
  getOwn initialCycles k = Some (Num v) -> isPrototypeMember k = false.
Proof.
  unfold initialCycles. cbn [getOwn].
  destruct (String.eqb_spec "Monthly" k) as [<-|_]; [reflexivity|].
  destruct (String.eqb_spec "Quarterly" k) as [<-|_]; [reflexivity|].
  destruct (String.eqb_spec "Annually" k) as [<-|_]; [reflexivity|].
  discriminate.
Qed.

(** The table of a list whose cycles are all plain is made. *)
Lemma calculateBillingCycleData_plain subs :
  plainCycles subs -> calculateBillingCycleData subs <> None.
Proof.
  intros Hplain. unfold calculateBillingCycleData.
  rewrite fold_addCycle. cbn [fst snd].
  assert (Hnd0 : NoDup (map fst initialCycles)).
  { repeat constructor; cbn; intuition discriminate. }
  destruct (fold_holdsTally cycleOf cycleRate subs initialCycles [] Hplain
              Hnd0 (holdsTally_initial _ _)) as (Hnd & Hinv & _).
  cbn [app] in Hinv.
  rewrite toCycleEntries_numbers; [discriminate|].
  eapply Permutation_Forall; [symmetry; apply entries_perm|].
  apply Forall_forall. intros [k x] Hin. cbn.
  pose proof (Hinv k) as Hk. rewrite (getOwn_In _ _ _ Hnd Hin) in Hk.
  destruct x as [v|]; [now exists v | contradiction].
Qed.

(** Subscriptions billed under [__proto__] leave no trace. *)
Lemma calculateBillingCycleData_skips_proto subs :
  calculateBillingCycleData subs
  = calculateBillingCycleData
      (filter (fun s => negb (String.eqb (cycleOf s) "__proto__")) subs).
Proof.
  unfold calculateBillingCycleData. rewrite !fold_addCycle. cbn [fst snd].
  now rewrite <- !fold_skips_proto_key.
Qed.

End CycleErrors.

(** ** Properties of the failing table *)

Module CycleErrorProperties.

Import JSObject UseAnalytics Spec SortFacts CategoryFacts Notions.
Import PanelNotions ListFacts SliceFacts Panel RoundingFacts CycleFacts.
Import CycleErrors.
Local Open Scope string_scope.

(** X25.  The billing-cycle table fails (the callback of [map] throws)
    exactly when some subscription is billed on a cycle that bears the
    name of a member every object inherits, other than [__proto__]. *)
Theorem calculateBillingCycleData_throws_iff (subs : list Subscription) :
  calculateBillingCycleData subs = None
  <-> exists s, In s subs /\ breaksCycles s = true.
Proof.
  split.
  - intros Hnone.
    destruct (existsb breaksCycles subs) eqn:E.
    + apply existsb_exists in E. exact E.
    + exfalso.
      rewrite calculateBillingCycleData_skips_proto in Hnone.
      revert Hnone. apply calculateBillingCycleData_plain.
      apply Forall_forall. intros s Hs.
      apply filter_In in Hs as [Hs Hn]. apply negb_true_iff in Hn.
      destruct (isPrototypeMember (cycleOf s)) eqn:Ep; [|reflexivity].
      assert (existsb breaksCycles subs = true); [|congruence].
      apply existsb_exists. exists s. split; [exact Hs|].
      unfold breaksCycles. now rewrite Ep, Hn.
  - intros (s & Hs & Hb). unfold breaksCycles in Hb.
    apply andb_true_iff in Hb as [Hp Hn]. apply negb_true_iff in Hn.
    unfold calculateBillingCycleData. rewrite fold_addCycle. cbn [fst snd].
    destruct (fold_breaks_key cycleOf cycleRate subs initialCycles
                initialCycles_plain) as [k Hk].
    { now exists s. }
    rewrite (toCycleEntries_string _ _ k); [reflexivity|].
    apply (Permutation_in _ (Permutation_sym (entries_perm _))).
    now apply In_getOwn.
Qed.

End CycleErrorProperties.
